(** * eCFR analyzer: the import pipeline and its derived metrics

    A shallow embedding of the Go backend of [ecfr-analyzer]: the checksum
    engine, the import orchestrator's status record, the word count, the
    content downloader, the historical snapshot service and the trend
    read path, with the theorems that settle the specification's claims
    against them.

    The development goes on to the rest of the backend: the cache of the
    agency checksums, the import of the historical snapshots and its
    months, the imports of the agencies and of the titles, and the
    handlers of the titles, of the agency metrics and of the title
    checksums, with further properties of the code.

    Conventions of the embedding.
    - A Go [string] is a [string] of bytes; a Go [int] is a [Z].
    - A [uuid.UUID] is an [N]; a [time.Time] is a [Z].
    - A table of the relational store is the list of its rows in storage
      order; the table with a primary key that the code reads by key
      ([agency_checksums]) is a finite map.
    - The queries of the agency checksums and of the agency metrics, whose
      results depend on the order that their [ORDER BY] clause leaves to
      the store, take the order in which the store hands their rows over
      as an argument, a [Store.ReadOrder].
    - [crypto/sha256], [regexp], [strings] and [gorm] are libraries of the
      program: they are embedded from their documented behaviour. *)

From Stdlib Require Import ZArith List Ascii String Lia Bool Floats.
From Stdlib Require Import DecimalString DecimalZ DecimalPos.
From Stdlib Require Import Sorting.Sorted Sorting.Permutation.
From stdpp Require Import base option list gmap sorting.

Local Open Scope string_scope.
Local Open Scope list_scope.
Local Open Scope Z_scope.

(** ** crypto/sha256 and [fmt.Sprintf "%x"] *)

Module Sha256.

Definition w32 (x : Z) : Z := x mod 4294967296.

Definition add32 (x y : Z) : Z := w32 (x + y).

Definition rotr (n x : Z) : Z :=
  Z.lor (Z.shiftr x n) (w32 (Z.shiftl x (32 - n))).

Definition Ch (x y z : Z) : Z :=
  Z.lxor (Z.land x y) (Z.land (Z.lxor x 4294967295) z).

Definition Maj (x y z : Z) : Z :=
  Z.lxor (Z.lxor (Z.land x y) (Z.land x z)) (Z.land y z).

Definition bigSigma0 (x : Z) : Z :=
  Z.lxor (Z.lxor (rotr 2 x) (rotr 13 x)) (rotr 22 x).

Definition bigSigma1 (x : Z) : Z :=
  Z.lxor (Z.lxor (rotr 6 x) (rotr 11 x)) (rotr 25 x).

Definition smallSigma0 (x : Z) : Z :=
  Z.lxor (Z.lxor (rotr 7 x) (rotr 18 x)) (Z.shiftr x 3).

Definition smallSigma1 (x : Z) : Z :=
  Z.lxor (Z.lxor (rotr 17 x) (rotr 19 x)) (Z.shiftr x 10).

Definition K : list Z :=
  [ 1116352408; 1899447441; 3049323471; 3921009573; 961987163; 1508970993;
    2453635748; 2870763221; 3624381080; 310598401; 607225278; 1426881987;
    1925078388; 2162078206; 2614888103; 3248222580; 3835390401; 4022224774;
    264347078; 604807628; 770255983; 1249150122; 1555081692; 1996064986;
    2554220882; 2821834349; 2952996808; 3210313671; 3336571891; 3584528711;
    113926993; 338241895; 666307205; 773529912; 1294757372; 1396182291;
    1695183700; 1986661051; 2177026350; 2456956037; 2730485921; 2820302411;
    3259730800; 3345764771; 3516065817; 3600352804; 4094571909; 275423344;
    430227734; 506948616; 659060556; 883997877; 958139571; 1322822218;
    1537002063; 1747873779; 1955562222; 2024104815; 2227730452; 2361852424;
    2428436474; 2756734187; 3204031479; 3329325298 ].

(** The message is padded with 0x80, zeros up to 56 modulo 64, and its
    length in bits as eight big-endian bytes. *)
Definition be_bytes (n : nat) (x : Z) : list Z :=
  map (fun i => Z.land (Z.shiftr x (8 * Z.of_nat i)) 255) (rev (seq 0 n)).

Definition pad (msg : list Z) : list Z :=
  let len := Z.of_nat (length msg) in
  msg ++ [128] ++ repeat 0 (Z.to_nat ((55 - len) mod 64))
      ++ be_bytes 8 (8 * len).

Fixpoint be_words (bs : list Z) : list Z :=
  match bs with
  | b0 :: b1 :: b2 :: b3 :: rest =>
      (((b0 * 256 + b1) * 256 + b2) * 256 + b3) :: be_words rest
  | _ => []
  end.

(** The message schedule, most recent word first. *)
Fixpoint extend (n : nat) (ws : list Z) : list Z :=
  match n with
  | O => ws
  | S n' =>
      let w := add32 (add32 (smallSigma1 (nth 1 ws 0)) (nth 6 ws 0))
                     (add32 (smallSigma0 (nth 14 ws 0)) (nth 15 ws 0)) in
      extend n' (w :: ws)
  end.

Definition schedule (block : list Z) : list Z :=
  rev (extend 48 (rev block)).

Record regs := Regs { ra : Z; rb : Z; rc : Z; rd : Z;
                      re : Z; rf : Z; rg : Z; rh : Z }.

Definition round (s : regs) (kw : Z * Z) : regs :=
  let t1 := add32 (add32 (add32 (rh s) (bigSigma1 (re s)))
                         (add32 (Ch (re s) (rf s) (rg s)) (fst kw)))
                  (snd kw) in
  let t2 := add32 (bigSigma0 (ra s)) (Maj (ra s) (rb s) (rc s)) in
  Regs (add32 t1 t2) (ra s) (rb s) (rc s) (add32 (rd s) t1) (re s) (rf s) (rg s).

Definition compress (h : regs) (block : list Z) : regs :=
  let s := fold_left round (combine K (schedule block)) h in
  Regs (add32 (ra h) (ra s)) (add32 (rb h) (rb s)) (add32 (rc h) (rc s))
       (add32 (rd h) (rd s)) (add32 (re h) (re s)) (add32 (rf h) (rf s))
       (add32 (rg h) (rg s)) (add32 (rh h) (rh s)).

Fixpoint blocks (fuel : nat) (ws : list Z) : list (list Z) :=
  match fuel, ws with
  | S fuel', _ :: _ => firstn 16 ws :: blocks fuel' (skipn 16 ws)
  | _, _ => []
  end.

Definition initial : regs :=
  Regs 1779033703 3144134277 1013904242 2773480762
       1359893119 2600822924 528734635 1541459225.

(** [sha256.Sum256]: the digest as its 32 bytes. *)
Definition Sum256 (msg : list Z) : list Z :=
  let ws := be_words (pad msg) in
  let s := fold_left compress (blocks (length ws) ws) initial in
  flat_map (be_bytes 4)
           [ra s; rb s; rc s; rd s; re s; rf s; rg s; rh s].

Definition hexdigit (d : Z) : ascii :=
  if d <? 10 then ascii_of_N (Z.to_N (48 + d))
  else ascii_of_N (Z.to_N (87 + d)).

(** [fmt.Sprintf("%x", bytes)]: two lowercase hexadecimal digits a byte. *)
Fixpoint hex (bs : list Z) : string :=
  match bs with
  | [] => EmptyString
  | b :: rest => String (hexdigit (b / 16)) (String (hexdigit (b mod 16)) (hex rest))
  end.

Definition bytes_of_string (s : string) : list Z :=
  map (fun c => Z.of_N (N_of_ascii c)) (list_ascii_of_string s).

(** [fmt.Sprintf("%x", sha256.Sum256([]byte(s)))] *)
Definition sum256_hex (s : string) : string :=
  hex (Sum256 (bytes_of_string s)).

End Sha256.

(** ** Word count ([ImportService.calculateWordCount])

    [regexp] and [strings] read a Go string as the sequence of its runes:
    UTF-8 is decoded, and a byte that starts no valid encoding is the rune
    U+FFFD of width one. *)

Module WordCount.

Definition rune := N.

Definition RuneError : rune := 65533%N.

Definition cont (b : N) : bool := ((128 <=? b) && (b <=? 191))%N.

(** The range of the second byte that a leading byte accepts. *)
Definition second_ok (b0 b1 : N) : bool :=
  ((if b0 =? 224 then 160 else if b0 =? 240 then 144 else 128) <=? b1)%N
  && (b1 <=? (if b0 =? 237 then 159 else if b0 =? 244 then 143 else 191))%N.

Fixpoint decode (bs : list N) : list rune :=
  match bs with
  | [] => []
  | b0 :: t0 =>
      if (b0 <? 128)%N then b0 :: decode t0
      else
        match t0 with
        | b1 :: t1 =>
            if (194 <=? b0)%N && (b0 <=? 223)%N && cont b1
            then (N.land b0 31 * 64 + N.land b1 63)%N :: decode t1
            else
              match t1 with
              | b2 :: t2 =>
                  if (224 <=? b0)%N && (b0 <=? 239)%N && second_ok b0 b1 && cont b2
                  then ((N.land b0 15 * 64 + N.land b1 63) * 64 + N.land b2 63)%N
                         :: decode t2
                  else
                    match t2 with
                    | b3 :: t3 =>
                        if (240 <=? b0)%N && (b0 <=? 244)%N && second_ok b0 b1
                           && cont b2 && cont b3
                        then (((N.land b0 7 * 64 + N.land b1 63) * 64
                               + N.land b2 63) * 64 + N.land b3 63)%N :: decode t3
                        else RuneError :: decode t0
                    | [] => RuneError :: decode t0
                    end
              | [] => RuneError :: decode t0
              end
        | [] => RuneError :: decode t0
        end
  end.

Definition runes (s : string) : list rune :=
  decode (map N_of_ascii (list_ascii_of_string s)).

Definition lt : rune := 60%N.     (* '<' *)
Definition gt : rune := 62%N.     (* '>' *)
Definition space : rune := 32%N.  (* ' ' *)

(** [unicode.IsSpace], which [strings.TrimSpace] and [strings.Fields] use. *)
Definition isSpace (r : rune) : bool :=
  ((9 <=? r) && (r <=? 13) || (r =? 32) || (r =? 133) || (r =? 160)
   || (r =? 5760) || (8192 <=? r) && (r <=? 8202) || (r =? 8232)
   || (r =? 8233) || (r =? 8239) || (r =? 8287) || (r =? 12288))%N.

(** The class [\s] of [regexp]: tab, newline, form feed, carriage return
    and space. *)
Definition reSpace (r : rune) : bool :=
  ((r =? 9) || (r =? 10) || (r =? 12) || (r =? 13) || (r =? 32))%N.

(** [regexp.MustCompile(`<[^>]*>`).ReplaceAllString(text, " ")].
    A match starts at a '<' and runs to the first '>' after it; [pending]
    holds, most recent first, the runes read since a '<' that no '>' has
    closed yet.  A '<' that no '>' follows starts no match, and the text
    from it on is kept as it is. *)
Fixpoint stripTagsFrom (pending : option (list rune)) (text : list rune)
  : list rune :=
  match text, pending with
  | [], None => []
  | [], Some buf => rev buf
  | c :: rest, None =>
      if (c =? lt)%N then stripTagsFrom (Some [c]) rest
      else c :: stripTagsFrom None rest
  | c :: rest, Some buf =>
      if (c =? gt)%N then space :: stripTagsFrom None rest
      else stripTagsFrom (Some (c :: buf)) rest
  end.

Definition stripTags (text : list rune) : list rune :=
  stripTagsFrom None text.

Fixpoint dropSpace (text : list rune) : list rune :=
  match text with
  | [] => []
  | c :: rest => if isSpace c then dropSpace rest else text
  end.

(** [strings.TrimSpace] *)
Definition TrimSpace (text : list rune) : list rune :=
  rev (dropSpace (rev (dropSpace text))).

(** [regexp.MustCompile(`\s+`).ReplaceAllString(text, " ")]: [inRun]
    says that the rune before was matched by [\s]. *)
Fixpoint collapseFrom (inRun : bool) (text : list rune) : list rune :=
  match text with
  | [] => []
  | c :: rest =>
      if reSpace c
      then (if inRun then collapseFrom true rest
            else space :: collapseFrom true rest)
      else c :: collapseFrom false rest
  end.

Definition collapseSpace (text : list rune) : list rune :=
  collapseFrom false text.

(** [strings.Fields]: [cur] is the field being read, most recent rune
    first. *)
Fixpoint FieldsFrom (cur : list rune) (text : list rune) : list (list rune) :=
  match text with
  | [] => match cur with [] => [] | _ => [rev cur] end
  | c :: rest =>
      if isSpace c
      then match cur with
           | [] => FieldsFrom [] rest
           | _ => rev cur :: FieldsFrom [] rest
           end
      else FieldsFrom (c :: cur) rest
  end.

Definition Fields (text : list rune) : list (list rune) :=
  FieldsFrom [] text.

Definition wordCountOfRunes (content : list rune) : Z :=
  let text := stripTags content in
  let text := collapseSpace (TrimSpace text) in
  match text with
  | [] => 0
  | _ => Z.of_nat (length (Fields text))
  end.

Definition calculateWordCount (xmlContent : string) : Z :=
  wordCountOfRunes (runes xmlContent).

(** The reading of "strip all markup-style tags" in which a tag leaves
    nothing behind; the code is compared with it. *)
Fixpoint deleteTagsFrom (pending : option (list rune)) (text : list rune)
  : list rune :=
  match text, pending with
  | [], None => []
  | [], Some buf => rev buf
  | c :: rest, None =>
      if (c =? lt)%N then deleteTagsFrom (Some [c]) rest
      else c :: deleteTagsFrom None rest
  | c :: rest, Some buf =>
      if (c =? gt)%N then deleteTagsFrom None rest
      else deleteTagsFrom (Some (c :: buf)) rest
  end.

Definition deleteTags (text : list rune) : list rune :=
  deleteTagsFrom None text.

(** The number of fields of [text], counted at the rune that starts each;
    [atStart] says that the rune before was white space, or that there was
    none. *)
Fixpoint fieldStarts (atStart : bool) (text : list rune) : nat :=
  match text with
  | [] => O
  | c :: rest =>
      if isSpace c then fieldStarts true rest
      else ((if atStart then 1 else 0) + fieldStarts false rest)%nat
  end.

(** Whether a '<' read in [text] is still waiting for its '>'. *)
Fixpoint tagOpenFrom (open : bool) (text : list rune) : bool :=
  match text with
  | [] => open
  | c :: rest =>
      if open then tagOpenFrom (negb (c =? gt)%N) rest
      else tagOpenFrom (c =? lt)%N rest
  end.

Definition tagOpen (text : list rune) : bool := tagOpenFrom false text.

End WordCount.

(** ** Go conversions between [int] and [float64] *)

Module GoNum.

(** [float64(n)]: the nearest double, ties to even. *)
Definition float64_of_int (n : Z) : float :=
  SF2Prim (binary_normalize prec emax n 0 false).

(** [int(f)]: truncation toward zero; for a value that is not finite the
    conversion instruction of amd64 answers the least [int64]. *)
Definition int_of_float64 (f : float) : Z :=
  match Prim2SF f with
  | S754_finite s m e =>
      let v := if 0 <=? e then Z.pos m * 2 ^ e else Z.pos m / 2 ^ (- e) in
      if s then - v else v
  | S754_zero _ => 0
  | _ => -9223372036854775808
  end.

(** Subtraction of two [int]s, with the wrap-around of 64 bits. *)
Definition sub64 (x y : Z) : Z :=
  (x - y + 9223372036854775808) mod 18446744073709551616
  - 9223372036854775808.

(** The [int64] that a sum or difference wraps around to. *)
Definition wrap64 (x : Z) : Z :=
  (x + 9223372036854775808) mod 18446744073709551616 - 9223372036854775808.

(** Addition of two [int64]s, with the wrap-around of 64 bits. *)
Definition add64 (x y : Z) : Z := wrap64 (x + y).

(** [strconv.Itoa], the [%d] of [fmt]. *)
Definition itoa (n : Z) : string := NilZero.string_of_int (Z.to_int n).

Definition newline : string := String (ascii_of_nat 10) EmptyString.

End GoNum.

(** ** The status record of the import orchestrator *)

Module Status.

Record ImportStatus := mkStatus {
  IsLoading : bool;
  CurrentStep : string;
  Progress : Z;
  LastUpdated : Z;
  Error : string;
  TotalTitles : Z;
  CurrentTitle : Z;
  OverallStep : Z;
  TotalSteps : Z;
  AgenciesDone : bool;
  TitlesDone : bool;
  ReferencesDone : bool;
  ContentDone : bool;
  HistoricalDone : bool
}.

(** The status of [NewImportService]. *)
Definition NewImportStatus (now : Z) : ImportStatus :=
  mkStatus false "Ready" 0 now "" 0 0 0 4 false false false false false.

Definition updateStatus (step : string) (progress : Z) (err : string)
    (now : Z) (s : ImportStatus) : ImportStatus :=
  mkStatus (IsLoading s) step progress now err (TotalTitles s)
           (CurrentTitle s) (OverallStep s) (TotalSteps s) (AgenciesDone s)
           (TitlesDone s) (ReferencesDone s) (ContentDone s) (HistoricalDone s).

Definition setLoading (loading : bool) (s : ImportStatus) : ImportStatus :=
  mkStatus loading (CurrentStep s) (Progress s) (LastUpdated s) (Error s)
           (TotalTitles s) (CurrentTitle s) (OverallStep s) (TotalSteps s)
           (AgenciesDone s) (TitlesDone s) (ReferencesDone s) (ContentDone s)
           (HistoricalDone s).

Definition setOverallStep (step : Z) (description : string) (now : Z)
    (s : ImportStatus) : ImportStatus :=
  mkStatus true description (Progress s) now (Error s) (TotalTitles s)
           (CurrentTitle s) step (TotalSteps s) (AgenciesDone s)
           (TitlesDone s) (ReferencesDone s) (ContentDone s) (HistoricalDone s).

(** The [switch] of [markStepComplete]: the flag named by [stepName]. *)
Definition setFlag (stepName : string) (s : ImportStatus) : ImportStatus :=
  let named name := String.eqb stepName name in
  mkStatus (IsLoading s) (CurrentStep s) (Progress s) (LastUpdated s)
           (Error s) (TotalTitles s) (CurrentTitle s) (OverallStep s)
           (TotalSteps s)
           (named "agencies" || AgenciesDone s)
           (named "titles" || TitlesDone s)
           (named "references" || ReferencesDone s)
           (named "content" || ContentDone s)
           (named "historical" || HistoricalDone s).

Definition b2z (b : bool) : Z := if b then 1 else 0.

Definition completedSteps (s : ImportStatus) : Z :=
  b2z (AgenciesDone s) + b2z (TitlesDone s) + b2z (ReferencesDone s)
  + b2z (ContentDone s) + b2z (HistoricalDone s).

Definition markStepComplete (stepName : string) (now : Z)
    (s : ImportStatus) : ImportStatus :=
  let s := setFlag stepName s in
  let completed := completedSteps s in
  let progress :=
    GoNum.int_of_float64
      (GoNum.float64_of_int completed / GoNum.float64_of_int (TotalSteps s)
       * 100)%float in
  let done := completed =? TotalSteps s in
  mkStatus (if done then false else IsLoading s)
           (if done then "All imports completed" else CurrentStep s)
           progress now (Error s) (TotalTitles s) (CurrentTitle s)
           (OverallStep s) (TotalSteps s) (AgenciesDone s) (TitlesDone s)
           (ReferencesDone s) (ContentDone s) (HistoricalDone s).

(** The calls that [ImportAgencies] and then [ImportTitles] make on the
    status record when every fetch succeeds, up to the call that marks
    the content step.  The calls made once per agency and per title, which
    write the current step, the progress, the error and the title counters
    only, are those of a source that lists no agency and no title. *)
Definition throughContent (now : Z) (s : ImportStatus) : ImportStatus :=
  let s := setOverallStep 1 "Importing agencies" now s in
  let s := updateStatus "Importing agencies" 0 "" now s in
  let s := markStepComplete "agencies" now s in
  let s := markStepComplete "references" now s in
  let s := setOverallStep 2 "Importing titles" now s in
  let s := updateStatus "Importing titles" 0 "" now s in
  let s := markStepComplete "titles" now s in
  let s := setOverallStep 3 "Importing content" now s in
  let s := updateStatus "Preparing content download" 0 "" now s in
  let s := updateStatus "Content import completed" 100 "" now s in
  markStepComplete "content" now s.

(** The calls of [ImportTitles] from there to its return; [captureError]
    is the error of [CaptureSnapshot], if it returns one. *)
Definition throughHistorical (captureError : option string) (now : Z)
    (s : ImportStatus) : ImportStatus :=
  let s := setOverallStep 4 "Creating historical snapshots" now s in
  let s := updateStatus "Creating historical snapshots" 0 "" now s in
  let s := match captureError with
           | Some err => updateStatus "Failed to create current snapshot" 0 err now s
           | None => s
           end in
  let s := updateStatus "Importing historical data from eCFR API" 50 "" now s in
  let s := updateStatus "Historical snapshots completed" 100 "" now s in
  markStepComplete "historical" now s.

End Status.

(** ** The content downloader and its strategies *)

Module Downloader.

(** A Go [error] is its message; [None] is [nil]. *)
Definition error := string.

(** What a call [(string, error)] returns. *)
Definition result := (string * option error)%type.

(** A strategy is its name and the answer of its transport for a title
    number. *)
Record ContentDownloadStrategy := mkStrategy {
  GetStrategyName : string;
  DownloadTitleContent : Z -> result
}.

Inductive logLine :=
| Attempting (titleNumber : Z) (strategy : string)
| Succeeded (titleNumber : Z) (strategy : string)
| Failed (titleNumber : Z) (strategy : string) (err : error).

Definition NewBulkContentStrategy (DownloadTitleXML : Z -> result)
  : ContentDownloadStrategy :=
  mkStrategy "Bulk Repository" DownloadTitleXML.

Definition NewAPIContentStrategy (FetchTitleContent : Z -> string -> result)
  : ContentDownloadStrategy :=
  mkStrategy "API" (fun titleNumber => FetchTitleContent titleNumber "").

Record ContentDownloader := mkDownloader {
  strategies : list ContentDownloadStrategy
}.

(** Bulk first, then the API. *)
Definition NewContentDownloader (DownloadTitleXML : Z -> result)
    (FetchTitleContent : Z -> string -> result) : ContentDownloader :=
  mkDownloader [ NewBulkContentStrategy DownloadTitleXML;
                 NewAPIContentStrategy FetchTitleContent ].

(** The loop of [ContentDownloader.DownloadTitleContent], with the lines
    it logs. *)
Fixpoint tryStrategies (sts : list ContentDownloadStrategy)
    (titleNumber : Z) (lastErr : option error) : result * list logLine :=
  match sts with
  | [] => (("", lastErr), [])
  | st :: rest =>
      let name := GetStrategyName st in
      match DownloadTitleContent st titleNumber with
      | (content, None) =>
          ((content, None),
           [Attempting titleNumber name; Succeeded titleNumber name])
      | (_, Some err) =>
          let '(r, log) := tryStrategies rest titleNumber (Some err) in
          (r, Attempting titleNumber name :: Failed titleNumber name err :: log)
      end
  end.

Definition downloadTitleContent (cd : ContentDownloader) (titleNumber : Z)
  : result * list logLine :=
  tryStrategies (strategies cd) titleNumber None.

(** The strategies that a log shows as called, in the order of the calls. *)
Fixpoint attempted (log : list logLine) : list string :=
  match log with
  | [] => []
  | Attempting _ name :: rest => name :: attempted rest
  | _ :: rest => attempted rest
  end.

(** A strategy fails for a title when its call returns an error. *)
Definition failsWith (titleNumber : Z) (st : ContentDownloadStrategy)
    (err : error) : Prop :=
  snd (DownloadTitleContent st titleNumber) = Some err.

Definition fails (titleNumber : Z) (st : ContentDownloadStrategy) : Prop :=
  exists err, failsWith titleNumber st err.

End Downloader.

(** ** The relational store *)

Module Store.

Record Agency := mkAgency {
  a_ID : N;
  a_Name : string;
  a_Slug : string;
  a_ParentID : option N
}.

Record Title := mkTitle {
  t_ID : N;
  t_Number : Z;
  t_Name : string;
  t_Reserved : bool
}.

Record AgencyCFRReference := mkReference {
  acr_AgencyID : N;
  acr_TitleID : N;
  acr_Chapter : option string
}.

Record TitleContent := mkTitleContent {
  tc_TitleID : N;
  tc_ContentDate : Z;
  tc_XMLContent : string;
  tc_WordCount : option Z;
  tc_Checksum : option string;
  tc_CreatedAt : Z
}.

Record HistoricalSnapshot := mkSnapshot {
  hs_SnapshotDate : Z;
  hs_AgencyID : option N;
  hs_TitleID : option N;
  hs_WordCount : option Z;
  hs_Checksum : option string;
  hs_CreatedAt : Z
}.

(** A row of [agency_checksums] without its primary key [agency_id],
    by which the table is indexed. *)
Record AgencyChecksum := mkAgencyChecksum {
  ac_Checksum : string;
  ac_ContentHash : string;
  ac_UpdatedAt : Z
}.

(** The tables.  The generated identifier of a content or snapshot row,
    which no modelled query reads, is left out of the rows.  The store
    answers every query: the errors of a lost connection are not part of
    the model. *)
Record DB := mkDB {
  agencies : list Agency;
  titles : list Title;
  agency_cfr_references : list AgencyCFRReference;
  title_contents : list TitleContent;
  historical_snapshots : list HistoricalSnapshot;
  agency_checksums : gmap N AgencyChecksum
}.

Definition with_title_contents (tcs : list TitleContent) (db : DB) : DB :=
  mkDB (agencies db) (titles db) (agency_cfr_references db) tcs
       (historical_snapshots db) (agency_checksums db).

Definition with_historical_snapshots (hss : list HistoricalSnapshot)
    (db : DB) : DB :=
  mkDB (agencies db) (titles db) (agency_cfr_references db)
       (title_contents db) hss (agency_checksums db).

Definition with_agency_checksums (acs : gmap N AgencyChecksum) (db : DB)
  : DB :=
  mkDB (agencies db) (titles db) (agency_cfr_references db)
       (title_contents db) (historical_snapshots db) acs.

(** [db.Where(cond).FirstOrCreate(&row)] of gorm: the first row that meets
    the conditions is read into [row] and the table is left as it is; when
    there is none, [row] is inserted.  No [Assign] or [Attrs] is given, so
    a row that is found is not written. *)
Definition FirstOrCreate {A : Type} (cond : A -> bool) (row : A)
    (table : list A) : A * list A :=
  match find cond table with
  | Some found => (found, table)
  | None => (row, table ++ [row])
  end.

(** A loop of find-or-create calls: the item [x] is passed over when
    [skip x] holds, and otherwise [row x] is offered under the conditions
    [key x]. *)
Definition findOrCreateStep {A X : Type} (skip : X -> bool)
    (key : X -> A -> bool) (row : X -> A) (table : list A) (x : X) : list A :=
  if skip x then table else snd (FirstOrCreate (key x) (row x) table).

(** The item [x] asks for no write to [table]. *)
Definition written {A X : Type} (skip : X -> bool) (key : X -> A -> bool)
    (table : list A) (x : X) : Prop :=
  skip x = true \/ exists r, find (key x) table = Some r.

(** The order in which the store hands the rows of a query over.  SQL
    leaves the order of the rows that an [ORDER BY] clause does not tell
    apart to the store, and two executions of a query are free to differ
    in it.  A read order is a list of positions: the rows are taken out one
    at a time, each time the row at the next position among the rows that
    are left (the position counted modulo their number); when the positions
    run out, the rows that are left follow as they are stored.  Every
    order of the rows is read in this way ([readIn_any]), and a query takes
    the read order of its execution as an argument. *)
Definition ReadOrder := list nat.

Fixpoint readIn {A : Type} (o : ReadOrder) (rows : list A) : list A :=
  match o with
  | [] => rows
  | n :: later =>
      match rows with
      | [] => []
      | r :: _ =>
          let i := (n mod length rows)%nat in
          nth i rows r :: readIn later (take i rows ++ drop (S i) rows)
      end
  end.

Definition day : Z := 86400.

(** [t.Truncate(24 * time.Hour)] of a time in seconds. *)
Definition truncateDay (t : Z) : Z := t - t mod day.

Definition eqb_opt (x : option N) (y : N) : bool :=
  match x with Some v => (v =? y)%N | None => false end.

Definition isNull {A : Type} (x : option A) : bool :=
  match x with Some _ => false | None => true end.

End Store.

(** ** The content import worker ([ImportService.downloadAndProcessTitle]) *)

Module ContentImport.
Import Store.

Definition calculateChecksum (content : string) : string :=
  Sha256.sum256_hex content.

(** The conditions [title_id = ? AND content_date = ?]. *)
Definition sameTitleAndDate (titleID : N) (contentDate : Z)
    (row : TitleContent) : bool :=
  (tc_TitleID row =? titleID)%N && (tc_ContentDate row =? contentDate).

Definition downloadAndProcessTitle (cd : Downloader.ContentDownloader)
    (title : Title) (now : Z) (db : DB) : DB :=
  match fst (Downloader.downloadTitleContent cd (t_Number title)) with
  | (_, Some _) => db
  | (content, None) =>
      let wordCount := WordCount.calculateWordCount content in
      let checksum := calculateChecksum content in
      let titleContent :=
        mkTitleContent (t_ID title) (truncateDay now) content
                       (Some wordCount) (Some checksum) now in
      with_title_contents
        (snd (FirstOrCreate
                (sameTitleAndDate (t_ID title) (truncateDay now))
                titleContent (title_contents db)))
        db
  end.

(** The rows of one title on one day. *)
Definition rowsOf (titleID : N) (contentDate : Z) (table : list TitleContent)
  : list TitleContent :=
  List.filter (sameTitleAndDate titleID contentDate) table.

End ContentImport.

(** ** The checksum engine *)

Module Checksum.
Import Store.

(** A row [(TitleNumber, Checksum)] of the query. *)
Definition TitleChecksum := (Z * string)%type.

(** [title_contents tc JOIN titles t ON tc.title_id = t.id
     JOIN agency_cfr_references acr ON acr.title_id = t.id
     WHERE acr.agency_id = ? AND tc.checksum IS NOT NULL
       AND tc.checksum != ''], before it is ordered. *)
Definition joinedRows (db : DB) (agencyID : N) : list TitleChecksum :=
  flat_map (fun tc =>
    flat_map (fun t =>
      flat_map (fun acr =>
        if (tc_TitleID tc =? t_ID t)%N && (acr_TitleID acr =? t_ID t)%N
           && (acr_AgencyID acr =? agencyID)%N
        then match tc_Checksum tc with
             | Some c => if String.eqb c "" then [] else [(t_Number t, c)]
             | None => []
             end
        else [])
        (agency_cfr_references db))
      (titles db))
    (title_contents db).

(** [ORDER BY t.number ASC]: the sort compares title numbers only, and
    rows with the same number keep the order in which they are read. *)
Fixpoint insertByNumber (r : TitleChecksum) (sorted : list TitleChecksum)
  : list TitleChecksum :=
  match sorted with
  | [] => [r]
  | x :: rest =>
      if fst r <=? fst x then r :: sorted else x :: insertByNumber r rest
  end.

Definition orderByNumber (rows : list TitleChecksum) : list TitleChecksum :=
  fold_right insertByNumber [] rows.

(** The answer of the query: the join, read in the order [o] of this
    execution and sorted by the title number. *)
Definition titleChecksums (o : ReadOrder) (db : DB) (agencyID : N)
  : list TitleChecksum :=
  orderByNumber (readIn o (joinedRows db agencyID)).

(** [fmt.Sprintf("TITLE_%d:%s\n", tc.TitleNumber, tc.Checksum)] *)
Definition line (tc : TitleChecksum) : string :=
  String.append "TITLE_"
    (String.append (GoNum.itoa (fst tc))
       (String.append ":" (String.append (snd tc) GoNum.newline))).

(** What the loop writes to the [strings.Builder]. *)
Definition buildContent (rows : list TitleChecksum) : string :=
  fold_right (fun tc rest => String.append (line tc) rest) "" rows.

(** The hash of rows that are read in the order of the list. *)
Definition checksumOfRows (rows : list TitleChecksum) : string :=
  Sha256.sum256_hex (buildContent (orderByNumber rows)).

(** [calculateAndStoreAgencyChecksum]; the store answers every query, so
    the outcome is never an error. *)
Definition calculateAndStoreAgencyChecksum (o : ReadOrder) (agencyID : N)
    (now : Z) (db : DB) : string * DB :=
  match titleChecksums o db agencyID with
  | [] => ("skipped", db)
  | rows =>
      let contentHash := Sha256.sum256_hex (buildContent rows) in
      let agencyChecksum := Sha256.sum256_hex (buildContent rows) in
      match agency_checksums db !! agencyID with
      | Some existingChecksum =>
          if String.eqb (ac_ContentHash existingChecksum) contentHash
          then ("skipped", db)
          else ("updated",
                with_agency_checksums
                  (<[agencyID := mkAgencyChecksum agencyChecksum contentHash now]>
                     (agency_checksums db)) db)
      | None =>
          ("created",
           with_agency_checksums
             (<[agencyID := mkAgencyChecksum agencyChecksum contentHash now]>
                (agency_checksums db)) db)
      end
  end.

(** A row [(AgencyID, TitleNumber, Checksum)] of the batch query. *)
Definition AgencyTitleChecksum := (N * Z * string)%type.

(** The join of [calculateBatchAgencyChecksumsOptimized], with
    [acr.agency_id IN ?]. *)
Definition batchJoinedRows (db : DB) (agencyIDs : list N)
  : list AgencyTitleChecksum :=
  flat_map (fun tc =>
    flat_map (fun t =>
      flat_map (fun acr =>
        if (tc_TitleID tc =? t_ID t)%N && (acr_TitleID acr =? t_ID t)%N
           && existsb (N.eqb (acr_AgencyID acr)) agencyIDs
        then match tc_Checksum tc with
             | Some c =>
                 if String.eqb c "" then []
                 else [(acr_AgencyID acr, t_Number t, c)]
             | None => []
             end
        else [])
        (agency_cfr_references db))
      (titles db))
    (title_contents db).

(** [ORDER BY acr.agency_id ASC, t.number ASC]: rows of one agency with
    the same title number keep the order in which they are read. *)
Definition agencyNumberLe (r x : AgencyTitleChecksum) : bool :=
  (fst (fst r) <? fst (fst x))%N
  || (fst (fst r) =? fst (fst x))%N && (snd (fst r) <=? snd (fst x)).

Fixpoint insertByAgencyNumber (r : AgencyTitleChecksum)
    (sorted : list AgencyTitleChecksum) : list AgencyTitleChecksum :=
  match sorted with
  | [] => [r]
  | x :: rest =>
      if agencyNumberLe r x then r :: sorted
      else x :: insertByAgencyNumber r rest
  end.

Definition orderByAgencyNumber (rows : list AgencyTitleChecksum)
  : list AgencyTitleChecksum :=
  fold_right insertByAgencyNumber [] rows.

(** The rows are grouped by agency, each appended to the group of its
    agency in the order of the query. *)
Definition groupByAgency (rows : list AgencyTitleChecksum)
  : gmap N (list TitleChecksum) :=
  fold_left (fun m r =>
               <[fst (fst r) :=
                   (match m !! fst (fst r) with Some g => g | None => [] end)
                   ++ [(snd (fst r), snd r)]]> m)
            rows ∅.

Definition calculateBatchAgencyChecksumsOptimized (o : ReadOrder) (db : DB)
    (agencyIDs : list N) : gmap N string :=
  match agencyIDs with
  | [] => ∅
  | _ =>
      omap (fun titleChecksums =>
              match titleChecksums with
              | [] => None
              | _ => Some (Sha256.sum256_hex (buildContent titleChecksums))
              end)
           (groupByAgency
              (orderByAgencyNumber (readIn o (batchJoinedRows db agencyIDs))))
  end.

(** The rows of one agency among the rows of the batch query. *)
Definition rowsOfAgency (agencyID : N) (rows : list AgencyTitleChecksum)
  : list TitleChecksum :=
  flat_map (fun r =>
              if (fst (fst r) =? agencyID)%N then [(snd (fst r), snd r)]
              else [])
           rows.

Definition byAgencyNumber (x y : AgencyTitleChecksum) : Prop :=
  agencyNumberLe x y = true.

Record stats := mkStats {
  successCount : Z;
  skippedCount : Z;
  errorCount : Z
}.

Definition count (result : string) (st : stats) : stats :=
  if String.eqb result "created" || String.eqb result "updated"
  then mkStats (successCount st + 1) (skippedCount st) (errorCount st)
  else if String.eqb result "skipped"
  then mkStats (successCount st) (skippedCount st + 1) (errorCount st)
  else st.

(** The loop of [CalculateChecksumsHandler] over the agencies, with the
    outcome of each agency in the order of the loop; [orders] gives the
    read order of the query of every agency ([agencies.id] is the primary
    key, so the loop comes to an agency once). *)
Fixpoint processAgencies (orders : N -> ReadOrder) (ids : list N) (now : Z)
    (st : stats) (db : DB) : list string * stats * DB :=
  match ids with
  | [] => ([], st, db)
  | agencyID :: rest =>
      let '(result, db1) :=
        calculateAndStoreAgencyChecksum (orders agencyID) agencyID now db in
      let '(results, st2, db2) :=
        processAgencies orders rest now (count result st) db1 in
      (result :: results, st2, db2)
  end.

Definition CalculateChecksumsHandler (orders : N -> ReadOrder) (now : Z)
    (db : DB) : list string * stats * DB :=
  processAgencies orders (map a_ID (agencies db)) now (mkStats 0 0 0) db.

(** The order of two rows by their title numbers. *)
Definition byNumber (x y : TitleChecksum) : Prop := fst x <= fst y.

(** Whether the character [ch] occurs in [s]. *)
Fixpoint occurs (ch : ascii) (s : string) : bool :=
  match s with
  | EmptyString => false
  | String a rest => Ascii.eqb a ch || occurs ch rest
  end.

(** No checksum of the rows holds a newline (a document checksum is a
    hexadecimal digest). *)
Definition noNewline (rows : list TitleChecksum) : Prop :=
  Forall (fun r => occurs (ascii_of_nat 10) (snd r) = false) rows.

(** Every title number comes with one checksum. *)
Definition oneChecksumPerTitle (rows : list TitleChecksum) : Prop :=
  forall x y, x ∈ rows -> y ∈ rows -> fst x = fst y -> snd x = snd y.

(** The agency needs no write when its rows are read in the order [o]:
    it has no qualifying row, or its record holds the hash of its rows in
    that order. *)
Definition settled (o : ReadOrder) (agencyID : N) (db : DB) : Prop :=
  titleChecksums o db agencyID = []
  \/ exists record,
       agency_checksums db !! agencyID = Some record
       /\ ac_ContentHash record
          = Sha256.sum256_hex (buildContent (titleChecksums o db agencyID)).

(** The title of an agency with content rows on two days, and so with two
    checksums under one title number. *)
Definition twoDays : DB :=
  mkDB [mkAgency 7 "Office of Examples" "office-examples" None]
       [mkTitle 1 10 "Energy" false]
       [mkReference 7 1 None]
       [mkTitleContent 1 0 "<a>one</a>" (Some 1)
          (Some (ContentImport.calculateChecksum "<a>one</a>")) 5;
        mkTitleContent 1 86400 "<a>one two</a>" (Some 2)
          (Some (ContentImport.calculateChecksum "<a>one two</a>")) 86405]
       [] ∅.

End Checksum.

(** ** The historical snapshot service *)

Module Historical.
Import Store.

(** [SELECT MAX(content_date) FROM title_contents]; [None] is NULL. *)
Definition latestContentDate (db : DB) : option Z :=
  fold_left (fun acc tc =>
               match acc with
               | None => Some (tc_ContentDate tc)
               | Some d => Some (Z.max d (tc_ContentDate tc))
               end)
            (title_contents db) None.

Definition sumZ (l : list Z) : Z := fold_right Z.add 0 l.

Definition wordsOf (tc : TitleContent) : Z :=
  match tc_WordCount tc with Some n => n | None => 0 end.

Definition overallKey (snapshotDate : Z) (row : HistoricalSnapshot) : bool :=
  (hs_SnapshotDate row =? snapshotDate) && isNull (hs_AgencyID row)
  && isNull (hs_TitleID row).

Definition agencyKey (snapshotDate : Z) (agencyID : N)
    (row : HistoricalSnapshot) : bool :=
  (hs_SnapshotDate row =? snapshotDate) && eqb_opt (hs_AgencyID row) agencyID
  && isNull (hs_TitleID row).

Definition titleKey (snapshotDate : Z) (titleID : N)
    (row : HistoricalSnapshot) : bool :=
  (hs_SnapshotDate row =? snapshotDate) && eqb_opt (hs_TitleID row) titleID
  && isNull (hs_AgencyID row).

Definition captureOverallSnapshot (snapshotDate now : Z) (db : DB) : DB :=
  let totalWords :=
    sumZ (map wordsOf
              (List.filter (fun tc => tc_ContentDate tc =? snapshotDate)
                           (title_contents db))) in
  let snapshot :=
    mkSnapshot snapshotDate None None (Some totalWords) None now in
  with_historical_snapshots
    (snd (FirstOrCreate (overallKey snapshotDate) snapshot
                        (historical_snapshots db))) db.

(** [agencies a LEFT JOIN agency_cfr_references acr ON a.id = acr.agency_id
     LEFT JOIN title_contents tc ON acr.title_id = tc.title_id
                                 AND tc.content_date = ?
     GROUP BY a.id], with [COALESCE(SUM(tc.word_count), 0)]; [a.id] is the
    primary key, so every agency is a group. *)
Definition agencyWordCounts (snapshotDate : Z) (db : DB) : list (N * Z) :=
  map (fun a =>
         (a_ID a,
          sumZ (flat_map (fun acr =>
                  if (acr_AgencyID acr =? a_ID a)%N
                  then map wordsOf
                         (List.filter
                            (fun tc => (tc_TitleID tc =? acr_TitleID acr)%N
                                       && (tc_ContentDate tc =? snapshotDate))
                            (title_contents db))
                  else [])
                  (agency_cfr_references db))))
      (agencies db).

Definition captureAgencySnapshots (snapshotDate now : Z) (db : DB) : DB :=
  with_historical_snapshots
    (fold_left (fun table awc =>
                  if snd awc =? 0 then table
                  else
                    snd (FirstOrCreate (agencyKey snapshotDate (fst awc))
                           (mkSnapshot snapshotDate (Some (fst awc)) None
                                       (Some (snd awc)) None now)
                           table))
               (agencyWordCounts snapshotDate db)
               (historical_snapshots db)) db.

(** [tc.WordCount == nil || *tc.WordCount == 0] *)
Definition noWords (tc : TitleContent) : bool :=
  match tc_WordCount tc with Some n => n =? 0 | None => true end.

Definition captureTitleSnapshots (snapshotDate now : Z) (db : DB) : DB :=
  with_historical_snapshots
    (fold_left (fun table tc =>
                  if noWords tc then table
                  else
                    snd (FirstOrCreate (titleKey snapshotDate (tc_TitleID tc))
                           (mkSnapshot snapshotDate None (Some (tc_TitleID tc))
                                       (tc_WordCount tc) (tc_Checksum tc) now)
                           table))
               (List.filter (fun tc => tc_ContentDate tc =? snapshotDate)
                            (title_contents db))
               (historical_snapshots db)) db.

(** [CaptureSnapshot]: with no content row the maximum is NULL, which
    does not scan into a [time.Time]: the call returns that error and
    writes nothing. *)
Definition CaptureSnapshot (now : Z) (db : DB) : option Downloader.error * DB :=
  match latestContentDate db with
  | None => (Some "failed to find latest content date", db)
  | Some snapshotDate =>
      let db := captureOverallSnapshot snapshotDate now db in
      let db := captureAgencySnapshots snapshotDate now db in
      let db := captureTitleSnapshots snapshotDate now db in
      (None, db)
  end.

(** The find-or-create calls of one [CaptureSnapshot], in the order in
    which the three loops make them. *)
Inductive write :=
| WriteOverall (totalWords : Z)
| WriteAgency (awc : N * Z)
| WriteTitle (tc : TitleContent).

Definition writeSkipped (w : write) : bool :=
  match w with
  | WriteOverall _ => false
  | WriteAgency awc => snd awc =? 0
  | WriteTitle tc => noWords tc
  end.

Definition writeKey (snapshotDate : Z) (w : write) : HistoricalSnapshot -> bool :=
  match w with
  | WriteOverall _ => overallKey snapshotDate
  | WriteAgency awc => agencyKey snapshotDate (fst awc)
  | WriteTitle tc => titleKey snapshotDate (tc_TitleID tc)
  end.

Definition writeRow (snapshotDate now : Z) (w : write) : HistoricalSnapshot :=
  match w with
  | WriteOverall totalWords =>
      mkSnapshot snapshotDate None None (Some totalWords) None now
  | WriteAgency awc =>
      mkSnapshot snapshotDate (Some (fst awc)) None (Some (snd awc)) None now
  | WriteTitle tc =>
      mkSnapshot snapshotDate None (Some (tc_TitleID tc)) (tc_WordCount tc)
                 (tc_Checksum tc) now
  end.

Definition writes (snapshotDate : Z) (db : DB) : list write :=
  WriteOverall
    (sumZ (map wordsOf
               (List.filter (fun tc => tc_ContentDate tc =? snapshotDate)
                            (title_contents db))))
  :: map WriteAgency (agencyWordCounts snapshotDate db)
  ++ map WriteTitle
       (List.filter (fun tc => tc_ContentDate tc =? snapshotDate)
                    (title_contents db)).

End Historical.

(** ** The trend read path ([getOverallHistory], [getAgencyHistory]) *)

Module Trend.
Import Store.

(** [Date] is the day of the snapshot, [SnapshotDate.Format("2006-01-02")]:
    the text names the day and nothing of the time within it, and is kept
    here as the first second of the day. *)
Record HistoricalPoint := mkPoint {
  hp_Date : Z;
  hp_WordCount : Z;
  hp_ChangePercent : float
}.

(** A row [(SnapshotDate, WordCount)] of the query. *)
Definition SnapshotData := (Z * Z)%type.

Definition inRange (startDate endDate : Z) (row : HistoricalSnapshot) : bool :=
  (truncateDay startDate <=? hs_SnapshotDate row)
  && (hs_SnapshotDate row <=? truncateDay endDate).

Definition scanRow (row : HistoricalSnapshot) : SnapshotData :=
  (hs_SnapshotDate row,
   match hs_WordCount row with Some n => n | None => 0 end).

(** [ORDER BY snapshot_date ASC] *)
Fixpoint insertByDate (r : SnapshotData) (sorted : list SnapshotData)
  : list SnapshotData :=
  match sorted with
  | [] => [r]
  | x :: rest =>
      if fst r <=? fst x then r :: sorted else x :: insertByDate r rest
  end.

Definition orderByDate (rows : list SnapshotData) : list SnapshotData :=
  fold_right insertByDate [] rows.

Definition overallSnapshots (startDate endDate : Z) (db : DB)
  : list SnapshotData :=
  orderByDate
    (map scanRow
         (List.filter (fun row => inRange startDate endDate row
                                  && isNull (hs_AgencyID row)
                                  && isNull (hs_TitleID row))
                      (historical_snapshots db))).

Definition agencySnapshots (agencySlug : string) (startDate endDate : Z)
    (db : DB) : list SnapshotData :=
  orderByDate
    (flat_map (fun row =>
       flat_map (fun a =>
         if eqb_opt (hs_AgencyID row) (a_ID a)
            && String.eqb (a_Slug a) agencySlug
            && inRange startDate endDate row
            && isNull (hs_TitleID row)
         then [scanRow row] else [])
         (agencies db))
       (historical_snapshots db)).

(** The percent change of [cur] against the snapshot before it. *)
Definition changePercent (prev : option SnapshotData) (cur : SnapshotData)
  : float :=
  match prev with
  | Some p =>
      if 0 <? snd p
      then (GoNum.float64_of_int (GoNum.sub64 (snd cur) (snd p))
            / GoNum.float64_of_int (snd p) * 100)%float
      else 0%float
  | None => 0%float
  end.

(** The loop over the snapshots; [prev] is [snapshots[i-1]], and [None]
    at the first index. *)
Fixpoint historyFrom (prev : option SnapshotData)
    (snapshots : list SnapshotData) : list HistoricalPoint :=
  match snapshots with
  | [] => []
  | snapshot :: rest =>
      mkPoint (truncateDay (fst snapshot)) (snd snapshot)
              (changePercent prev snapshot)
        :: historyFrom (Some snapshot) rest
  end.

Definition getOverallHistory (startDate endDate : Z) (db : DB)
  : list HistoricalPoint :=
  historyFrom None (overallSnapshots startDate endDate db).

Definition getAgencyHistory (agencySlug : string) (startDate endDate : Z)
    (db : DB) : list HistoricalPoint :=
  historyFrom None (agencySnapshots agencySlug startDate endDate db).

(** The order of two rows by their dates. *)
Definition byDate (x y : SnapshotData) : Prop := fst x <= fst y.

(** The percent change of a point against the point before it. *)
Definition changeAgainst (p q : HistoricalPoint) : float :=
  if 0 <? hp_WordCount p
  then (GoNum.float64_of_int (GoNum.sub64 (hp_WordCount q) (hp_WordCount p))
        / GoNum.float64_of_int (hp_WordCount p) * 100)%float
  else 0%float.

(** Three overall snapshots on consecutive days, stored out of order,
    beside a snapshot of an agency and one of a title. *)
Definition threeDays : DB :=
  mkDB [mkAgency 7 "Office of Examples" "office-examples" None]
       [mkTitle 1 10 "Energy" false]
       [mkReference 7 1 None]
       []
       [mkSnapshot (2 * day) None None (Some 120) None 0;
        mkSnapshot day (Some 7%N) None (Some 90) None 0;
        mkSnapshot 0 None None (Some 100) None 0;
        mkSnapshot day None (Some 1%N) (Some 90) None 0;
        mkSnapshot day None None (Some 150) None 0;
        mkSnapshot (2 * day) (Some 7%N) None (Some 45) None 0]
       ∅.

End Trend.

(** ** Keys of the snapshot table *)

Module SnapshotKeys.
Import Store.

(** The date, the agency or NULL, and the title or NULL of a snapshot: the
    columns that every find-or-create on the table gives as conditions. *)
Definition snapshotKey (row : HistoricalSnapshot) : Z * option N * option N :=
  (hs_SnapshotDate row, hs_AgencyID row, hs_TitleID row).

(** The snapshot of a title on a date. *)
Definition isTitleSnapshot (snapshotDate : Z) (row : HistoricalSnapshot) : bool :=
  (hs_SnapshotDate row =? snapshotDate) && isNull (hs_AgencyID row)
  && negb (isNull (hs_TitleID row)).

(** The snapshot is dated at midnight, as the rows are that the capture
    writes for a content date and the import for the first of a month. *)
Definition atMidnight (row : HistoricalSnapshot) : Prop :=
  hs_SnapshotDate row mod day = 0.

(** The words of a snapshot, NULL read as 0. *)
Definition snapshotWords (row : HistoricalSnapshot) : Z :=
  match hs_WordCount row with Some n => n | None => 0 end.

End SnapshotKeys.

(** ** The cached agency checksums *)

Module Cache.
Import Store Checksum.

(** [getCachedAgencyChecksums]: the records of the asked agencies
    ([WHERE agency_id IN ?]) give their [Checksum]; the agencies without a
    record are calculated in a batch, whose results are written over the
    map.  The store answers the query, so the legacy calculation is not
    reached.  [o] is the read order of the batch query. *)
Definition getCachedAgencyChecksums (o : ReadOrder) (db : DB)
    (agencyIDs : list N) : gmap N string :=
  match agencyIDs with
  | [] => ∅
  | _ =>
      let cachedChecksums :=
        filter (fun kv => existsb (N.eqb (fst kv)) agencyIDs = true)
               (agency_checksums db) in
      let result := ac_Checksum <$> cachedChecksums in
      let missingIDs :=
        List.filter (fun agencyID =>
                       match result !! agencyID with
                       | Some _ => false
                       | None => true
                       end)
                    agencyIDs in
      match missingIDs with
      | [] => result
      | _ => calculateBatchAgencyChecksumsOptimized o db missingIDs ∪ result
      end
  end.

(** [calculateAgencyChecksum] *)
Definition calculateAgencyChecksum (o : ReadOrder) (db : DB) (agencyID : N)
  : string :=
  match getCachedAgencyChecksums o db [agencyID] !! agencyID with
  | Some checksum => checksum
  | None => ""
  end.

(** The agency is served one checksum whatever the read order: it has a
    record, or each of its title numbers comes with one checksum. *)
Definition oneChecksum (db : DB) (agencyID : N) : Prop :=
  is_Some (agency_checksums db !! agencyID)
  \/ oneChecksumPerTitle (joinedRows db agencyID).

End Cache.

(** ** The import of historical snapshots *)

Module HistoricalImport.
Import Store Historical SnapshotKeys.

(** What [FetchTitleStructure] answers for a title number and a date: the
    [Size] of the structure, an [int], or [None] for an error. *)
Definition StructureClient := Z -> Z -> option Z.

(** One turn of the loop of [importSnapshotsForDate] over the titles, on
    the running [totalWords], an [int64] that wraps around, and the
    snapshot table. *)
Definition titleStep (client : StructureClient) (snapshotDate now : Z)
    (acc : Z * list HistoricalSnapshot) (title : Title)
  : Z * list HistoricalSnapshot :=
  match client (t_Number title) snapshotDate with
  | None => acc
  | Some charCount =>
      if charCount =? 0 then acc
      else
        let estimatedWordCount := Z.quot charCount 5 in
        (GoNum.add64 (fst acc) estimatedWordCount,
         snd (FirstOrCreate (titleKey snapshotDate (t_ID title))
                (mkSnapshot snapshotDate None (Some (t_ID title))
                            (Some estimatedWordCount) None now)
                (snd acc)))
  end.

(** [agencies a LEFT JOIN agency_cfr_references acr ON a.id = acr.agency_id
     LEFT JOIN historical_snapshots hs
       ON acr.title_id = hs.title_id AND hs.snapshot_date = ?
          AND hs.agency_id IS NULL
     GROUP BY a.id HAVING COALESCE(SUM(hs.word_count), 0) > 0] *)
Definition agencyWordCountsOfSnapshots (snapshotDate : Z) (db : DB)
  : list (N * Z) :=
  List.filter (fun awc => snd awc >? 0)
    (map (fun a =>
            (a_ID a,
             sumZ (flat_map (fun acr =>
                     if (acr_AgencyID acr =? a_ID a)%N
                     then map snapshotWords
                            (List.filter
                               (fun hs => eqb_opt (hs_TitleID hs) (acr_TitleID acr)
                                          && (hs_SnapshotDate hs =? snapshotDate)
                                          && isNull (hs_AgencyID hs))
                               (historical_snapshots db))
                     else [])
                     (agency_cfr_references db))))
         (agencies db)).

Definition createAgencySnapshotsFromTitles (snapshotDate now : Z) (db : DB)
  : DB :=
  with_historical_snapshots
    (fold_left (fun table awc =>
                  snd (FirstOrCreate (agencyKey snapshotDate (fst awc))
                         (mkSnapshot snapshotDate (Some (fst awc)) None
                                     (Some (snd awc)) None now)
                         table))
               (agencyWordCountsOfSnapshots snapshotDate db)
               (historical_snapshots db)) db.

Definition importSnapshotsForDate (client : StructureClient)
    (titles : list Title) (snapshotDate now : Z) (db : DB) : DB :=
  let '(totalWords, table) :=
    fold_left (titleStep client snapshotDate now) titles
              (0, historical_snapshots db) in
  let table :=
    if totalWords >? 0
    then snd (FirstOrCreate (overallKey snapshotDate)
                (mkSnapshot snapshotDate None None (Some totalWords) None now)
                table)
    else table in
  createAgencySnapshotsFromTitles snapshotDate now
    (with_historical_snapshots table db).

(** One turn of the loop of [ImportHistoricalData] over the months. *)
Definition monthStep (client : StructureClient) (titles : list Title)
    (now : Z) (db : DB) (snapshotDate : Z) : DB :=
  let existingCount :=
    Z.of_nat (length (List.filter (fun hs => hs_SnapshotDate hs =? snapshotDate)
                                  (historical_snapshots db))) in
  if existingCount >? 0 then db
  else importSnapshotsForDate client titles snapshotDate now db.

(** [ImportHistoricalData]; [months] are the snapshot dates of the loop,
    the first days of the months that [time.Now] gives it. *)
Definition ImportHistoricalData (client : StructureClient) (months : list Z)
    (now : Z) (db : DB) : DB :=
  let titles := List.filter (fun t => negb (t_Reserved t)) (titles db) in
  fold_left (monthStep client titles now) months db.

(** The title is passed over: its structure is not fetched, or is empty. *)
Definition skipsTitle (client : StructureClient) (snapshotDate : Z)
    (title : Title) : bool :=
  match client (t_Number title) snapshotDate with
  | None => true
  | Some charCount => charCount =? 0
  end.

(** The word count that the loop estimates for a title. *)
Definition estimate (client : StructureClient) (snapshotDate : Z)
    (title : Title) : Z :=
  match client (t_Number title) snapshotDate with
  | None => 0
  | Some charCount => Z.quot charCount 5
  end.

Definition titleRow (client : StructureClient) (snapshotDate now : Z)
    (title : Title) : HistoricalSnapshot :=
  mkSnapshot snapshotDate None (Some (t_ID title))
             (Some (estimate client snapshotDate title)) None now.

(** The row is a snapshot of the date. *)
Definition dated (snapshotDate : Z) (row : HistoricalSnapshot) : Prop :=
  hs_SnapshotDate row = snapshotDate.


End HistoricalImport.

(** ** The handlers of the titles and of the agency metrics *)

Module Handlers.
Import Store.

(** [database.DB.Order("number").Find(&titles)]; [number] has a unique
    index, and rows with the same number, which the store does not hold,
    would keep the order of the table. *)
Fixpoint insertTitleByNumber (t : Title) (sorted : list Title) : list Title :=
  match sorted with
  | [] => [t]
  | x :: rest =>
      if t_Number t <=? t_Number x then t :: sorted
      else x :: insertTitleByNumber t rest
  end.

Definition orderTitlesByNumber (rows : list Title) : list Title :=
  fold_right insertTitleByNumber [] rows.

(** [ORDER BY tc.title_id, tc.content_date DESC] *)
Definition titleDateLe (r x : TitleContent) : bool :=
  (tc_TitleID r <? tc_TitleID x)%N
  || (tc_TitleID r =? tc_TitleID x)%N && (tc_ContentDate x <=? tc_ContentDate r).

Fixpoint insertByTitleDate (r : TitleContent) (sorted : list TitleContent)
  : list TitleContent :=
  match sorted with
  | [] => [r]
  | x :: rest =>
      if titleDateLe r x then r :: sorted else x :: insertByTitleDate r rest
  end.

Definition orderByTitleDate (rows : list TitleContent) : list TitleContent :=
  fold_right insertByTitleDate [] rows.

(** [SELECT DISTINCT ON (tc.title_id)]: of the ordered rows, the first of
    every title; [previous] is the title of the row before. *)
Fixpoint distinctOnTitle (previous : option N) (rows : list TitleContent)
  : list TitleContent :=
  match rows with
  | [] => []
  | r :: rest =>
      if eqb_opt previous (tc_TitleID r) then distinctOnTitle previous rest
      else r :: distinctOnTitle (Some (tc_TitleID r)) rest
  end.

Definition titleMetrics (db : DB) : list TitleContent :=
  distinctOnTitle None (orderByTitleDate (title_contents db)).

(** [metricsMap[metric.TitleID] = metric] for every row. *)
Definition metricsMap (db : DB) : gmap N TitleContent :=
  fold_left (fun m metric => <[tc_TitleID metric := metric]> m)
            (titleMetrics db) ∅.

Record TitleWithMetrics := mkTitleWithMetrics {
  twm_ID : N;
  twm_Number : Z;
  twm_Name : string;
  twm_WordCount : Z;
  twm_Checksum : option string
}.

(** The body of the loop of [TitlesHandler] over the titles. *)
Definition titleWithMetrics (metrics : gmap N TitleContent) (title : Title)
  : TitleWithMetrics :=
  match metrics !! t_ID title with
  | Some m =>
      mkTitleWithMetrics (t_ID title) (t_Number title) (t_Name title)
        (match tc_WordCount m with Some n => n | None => 0 end)
        (tc_Checksum m)
  | None =>
      mkTitleWithMetrics (t_ID title) (t_Number title) (t_Name title) 0 None
  end.

(** [TitlesHandler]: the [Data] of the response. *)
Definition TitlesHandler (db : DB) : list TitleWithMetrics :=
  map (titleWithMetrics (metricsMap db)) (orderTitlesByNumber (titles db)).

(** The content row is one of the latest of its title. *)
Definition latestOfTitle (db : DB) (tc : TitleContent) : Prop :=
  In tc (title_contents db)
  /\ forall other, In other (title_contents db) ->
       tc_TitleID other = tc_TitleID tc ->
       tc_ContentDate other <= tc_ContentDate tc.

End Handlers.

(** ** The handlers of the agency metrics *)

Module Metrics.
Import Store Historical Cache.

(** [SELECT COALESCE(SUM(word_count), 0) FROM title_contents
     WHERE word_count IS NOT NULL] *)
Definition totalWords (db : DB) : Z :=
  sumZ (map wordsOf
            (List.filter (fun tc => negb (isNull (tc_WordCount tc)))
                         (title_contents db))).

(** The content rows that [LEFT JOIN title_contents tc
     ON acr.title_id = tc.title_id AND tc.word_count IS NOT NULL] joins to
    a reference. *)
Definition contentOfReference (db : DB) (acr : AgencyCFRReference)
  : list TitleContent :=
  List.filter (fun tc => (tc_TitleID tc =? acr_TitleID acr)%N
                         && negb (isNull (tc_WordCount tc)))
              (title_contents db).

(** A row of the two left joins: the title of the reference and the word
    count of the content, each NULL when the join finds no row. *)
Definition JoinedRow := (option N * option Z)%type.

(** The rows that the left join gives a reference: one for each content
    row, or one without content. *)
Definition rowsOfReference (db : DB) (acr : AgencyCFRReference)
  : list JoinedRow :=
  match contentOfReference db acr with
  | [] => [(Some (acr_TitleID acr), None)]
  | rows => map (fun tc => (Some (acr_TitleID acr), tc_WordCount tc)) rows
  end.

(** [agencies a LEFT JOIN agency_cfr_references acr ON a.id = acr.agency_id
     LEFT JOIN title_contents tc ON ...], the rows of one agency. *)
Definition joinedRowsOfAgency (db : DB) (agencyID : N) : list JoinedRow :=
  match List.filter (fun acr => (acr_AgencyID acr =? agencyID)%N)
                    (agency_cfr_references db) with
  | [] => [(None, None)]
  | references => flat_map (rowsOfReference db) references
  end.

(** [COALESCE(SUM(tc.word_count), 0)] *)
Definition sumWordCount (rows : list JoinedRow) : Z :=
  sumZ (map (fun r => match snd r with Some n => n | None => 0 end) rows).

(** [COUNT(DISTINCT acr.title_id)] *)
Definition countDistinctTitle (rows : list JoinedRow) : Z :=
  Z.of_nat
    (length (nodup N.eq_dec
               (flat_map (fun r => match fst r with Some t => [t] | None => [] end)
                         rows))).

Record AgencyMetrics := mkAgencyMetrics {
  am_ID : N;
  am_Name : string;
  am_Slug : string;
  am_ParentID : option N;
  am_WordCount : Z;
  am_TitleCount : Z
}.

(** [GROUP BY a.id, a.name, a.slug, a.parent_id]: [a.id] is the primary
    key, so every agency is a group. *)
Definition groupOfAgency (db : DB) (a : Agency) : AgencyMetrics :=
  mkAgencyMetrics (a_ID a) (a_Name a) (a_Slug a) (a_ParentID a)
    (sumWordCount (joinedRowsOfAgency db (a_ID a)))
    (countDistinctTitle (joinedRowsOfAgency db (a_ID a))).

(** [ORDER BY word_count DESC]: groups with the same count keep the order
    in which they are read. *)
Fixpoint insertByWordCount (r : AgencyMetrics) (sorted : list AgencyMetrics)
  : list AgencyMetrics :=
  match sorted with
  | [] => [r]
  | x :: rest =>
      if am_WordCount x <=? am_WordCount r then r :: sorted
      else x :: insertByWordCount r rest
  end.

Definition orderByWordCount (rows : list AgencyMetrics) : list AgencyMetrics :=
  fold_right insertByWordCount [] rows.

(** The query of [AgenciesHandler] and [WordCountMetricsHandler], with
    the read order [o] of its execution. *)
Definition agencyMetrics (o : ReadOrder) (db : DB) : list AgencyMetrics :=
  orderByWordCount (readIn o (map (groupOfAgency db) (agencies db))).

Record AgencyWithMetrics := mkAgencyWithMetrics {
  awm_ID : N;
  awm_Name : string;
  awm_Slug : string;
  awm_WordCount : Z;
  awm_PercentOfTotal : float;
  awm_TitleCount : Z;
  awm_Checksum : option string;
  awm_ParentID : option N
}.

(** [if checksumValue, exists := checksums[agencyID];
     exists && checksumValue != ""] *)
Definition checksumPointer (checksums : gmap N string) (agencyID : N)
  : option string :=
  match checksums !! agencyID with
  | Some checksumValue =>
      if String.eqb checksumValue "" then None else Some checksumValue
  | None => None
  end.

Definition percentOfTotal (wordCount total : Z) : float :=
  if total >? 0
  then (GoNum.float64_of_int wordCount / GoNum.float64_of_int total * 100)%float
  else 0%float.

(** The statements that [AgenciesHandler] and [WordCountMetricsHandler]
    share: the total, the query, the batch of checksums and the loop that
    builds the entries.  [om] is the read order of the query of the
    metrics and [oc] that of the batch of checksums. *)
Definition agenciesWithMetrics (om oc : ReadOrder) (db : DB)
  : list AgencyWithMetrics :=
  let total := totalWords db in
  let metrics := agencyMetrics om db in
  let checksums := getCachedAgencyChecksums oc db (map am_ID metrics) in
  map (fun m =>
         mkAgencyWithMetrics (am_ID m) (am_Name m) (am_Slug m) (am_WordCount m)
           (percentOfTotal (am_WordCount m) total) (am_TitleCount m)
           (checksumPointer checksums (am_ID m)) (am_ParentID m))
      metrics.

(** [AgenciesHandler]: the [Data] of the response. *)
Definition AgenciesHandler (om oc : ReadOrder) (db : DB)
  : list AgencyWithMetrics :=
  agenciesWithMetrics om oc db.

(** [WordCountMetricsHandler]: [TotalCFRWords] and [Agencies]. *)
Definition WordCountMetricsHandler (om oc : ReadOrder) (db : DB)
  : Z * list AgencyWithMetrics :=
  (totalWords db, agenciesWithMetrics om oc db).

Record AgencyChecksumInfo := mkAgencyChecksumInfo {
  aci_AgencyID : N;
  aci_AgencyName : string;
  aci_AgencySlug : string;
  aci_Checksum : option string;
  aci_WordCount : Z;
  aci_TitleCount : Z
}.

(** [AgencyChecksumsHandler]: the same query with
    [HAVING COALESCE(SUM(tc.word_count), 0) > 0]; [om] and [oc] are the
    read orders of the query and of the batch of checksums. *)
Definition AgencyChecksumsHandler (om oc : ReadOrder) (db : DB)
  : list AgencyChecksumInfo :=
  let metrics :=
    orderByWordCount
      (readIn om
         (List.filter (fun m => am_WordCount m >? 0)
                      (map (groupOfAgency db) (agencies db)))) in
  let checksums := getCachedAgencyChecksums oc db (map am_ID metrics) in
  map (fun m =>
         mkAgencyChecksumInfo (am_ID m) (am_Name m) (am_Slug m)
           (checksumPointer checksums (am_ID m)) (am_WordCount m)
           (am_TitleCount m))
      metrics.

(** [agency_cfr_references acr LEFT JOIN title_contents tc ON ...
     WHERE acr.agency_id = ?], the query of [AgencyDetailHandler] for the
    agency itself. *)
Definition joinedRowsOfReferences (db : DB) (agencyID : N) : list JoinedRow :=
  flat_map (fun acr =>
              if (acr_AgencyID acr =? agencyID)%N then rowsOfReference db acr
              else [])
           (agency_cfr_references db).

Record TitleBreakdown := mkTitleBreakdown {
  tb_TitleNumber : Z;
  tb_TitleName : string;
  tb_WordCount : Z
}.

(** [title_contents JOIN titles ON titles.id = title_contents.title_id
     JOIN agency_cfr_references ON agency_cfr_references.title_id = titles.id
     WHERE agency_cfr_references.agency_id = ?
       AND title_contents.word_count IS NOT NULL] *)
Definition breakdownRows (db : DB) (agencyID : N) : list TitleBreakdown :=
  flat_map (fun tc =>
    flat_map (fun t =>
      flat_map (fun acr =>
        if (t_ID t =? tc_TitleID tc)%N && (acr_TitleID acr =? t_ID t)%N
           && (acr_AgencyID acr =? agencyID)%N
        then match tc_WordCount tc with
             | Some n => [mkTitleBreakdown (t_Number t) (t_Name t) n]
             | None => []
             end
        else [])
        (agency_cfr_references db))
      (titles db))
    (title_contents db).

(** [GROUP BY titles.number, titles.name] with [SUM]: a row joins the
    group of its number and name, or opens one. *)
Fixpoint addToGroup (r : TitleBreakdown) (groups : list TitleBreakdown)
  : list TitleBreakdown :=
  match groups with
  | [] => [r]
  | g :: rest =>
      if (tb_TitleNumber g =? tb_TitleNumber r)
         && String.eqb (tb_TitleName g) (tb_TitleName r)
      then mkTitleBreakdown (tb_TitleNumber g) (tb_TitleName g)
                            (tb_WordCount g + tb_WordCount r) :: rest
      else g :: addToGroup r rest
  end.

Definition titleBreakdown (db : DB) (agencyID : N) : list TitleBreakdown :=
  fold_left (fun groups r => addToGroup r groups) (breakdownRows db agencyID) [].

Record AgencyDetail := mkAgencyDetail {
  ad_Agency : AgencyWithMetrics;
  ad_SubAgencies : list AgencyWithMetrics;
  ad_TitleBreakdown : list TitleBreakdown
}.

(** [AgencyDetailHandler] for the slug of the path; [None] is the answer
    404.  The entries of this handler leave [PercentOfTotal] at 0.  [os]
    is the read order of the batch of checksums of the sub-agencies and
    [oc] that of the calculation for the agency itself. *)
Definition AgencyDetailHandler (os oc : ReadOrder) (db : DB) (slug : string)
  : option AgencyDetail :=
  match find (fun a => String.eqb (a_Slug a) slug) (agencies db) with
  | None => None
  | Some agency =>
      let rows := joinedRowsOfReferences db (a_ID agency) in
      let subAgenciesMetrics :=
        map (groupOfAgency db)
            (List.filter (fun a => eqb_opt (a_ParentID a) (a_ID agency))
                         (agencies db)) in
      let subChecksums :=
        getCachedAgencyChecksums os db (map am_ID subAgenciesMetrics) in
      let subAgencies :=
        map (fun m =>
               mkAgencyWithMetrics (am_ID m) (am_Name m) (am_Slug m)
                 (am_WordCount m) 0%float (am_TitleCount m)
                 (checksumPointer subChecksums (am_ID m)) (am_ParentID m))
            subAgenciesMetrics in
      let checksumValue := calculateAgencyChecksum oc db (a_ID agency) in
      Some (mkAgencyDetail
              (mkAgencyWithMetrics (a_ID agency) (a_Name agency) (a_Slug agency)
                 (sumWordCount rows) 0%float (countDistinctTitle rows)
                 (if String.eqb checksumValue "" then None
                  else Some checksumValue)
                 (a_ParentID agency))
              subAgencies
              (titleBreakdown db (a_ID agency)))
  end.

(** The entry without its percentage and its checksum. *)
Definition figures (e : AgencyWithMetrics)
  : N * string * string * Z * Z * option N :=
  (awm_ID e, awm_Name e, awm_Slug e, awm_WordCount e, awm_TitleCount e,
   awm_ParentID e).

(** The entry of [AgencyChecksumsHandler] without its checksum. *)
Definition countsOf (i : AgencyChecksumInfo) : N * string * string * Z * Z :=
  (aci_AgencyID i, aci_AgencyName i, aci_AgencySlug i, aci_WordCount i,
   aci_TitleCount i).

(** The entry of [AgencyChecksumsHandler] with the figures of an entry of
    [AgenciesHandler]. *)
Definition infoOf (e : AgencyWithMetrics) : AgencyChecksumInfo :=
  mkAgencyChecksumInfo (awm_ID e) (awm_Name e) (awm_Slug e) (awm_Checksum e)
                       (awm_WordCount e) (awm_TitleCount e).

End Metrics.

(** ** The form of a digest *)

Module Digest.

(** A lowercase hexadecimal digit. *)
Definition isHexDigit (c : ascii) : bool :=
  let n := N_of_ascii c in
  ((48 <=? n) && (n <=? 57) || (97 <=? n) && (n <=? 102))%N.

Fixpoint allChars (p : ascii -> bool) (s : string) : bool :=
  match s with
  | EmptyString => true
  | String c rest => p c && allChars p rest
  end.

End Digest.

(** ** The import of the agencies and of their references *)

Module AgencyImport.
Import Store.

(** [AgencyData] of the agencies document: an agency with its children
    and its references [(Title, Chapter)]. *)
#[local] Unset Elimination Schemes.
Inductive AgencyData := mkAgencyData {
  agd_Name : string;
  agd_Slug : string;
  agd_Children : list AgencyData;
  agd_CFRReferences : list (Z * string)
}.
#[local] Set Elimination Schemes.

(** The conditions [slug = ?]. *)
Definition slugIs (slug : string) (a : Agency) : bool :=
  String.eqb (a_Slug a) slug.

(** The first pass: every agency of the document is found or created by
    its slug and kept in [agencyMap].  [newID] is the [uuid.New] of
    [BeforeCreate], for the table as it is at the insertion. *)
Definition createAgency (newID : list Agency -> N)
    (acc : gmap string Agency * list Agency) (agencyData : AgencyData)
  : gmap string Agency * list Agency :=
  let found :=
    FirstOrCreate (slugIs (agd_Slug agencyData))
      (mkAgency (newID (snd acc)) (agd_Name agencyData) (agd_Slug agencyData)
                None)
      (snd acc) in
  (<[agd_Slug agencyData := fst found]> (fst acc), snd found).

(** [database.DB.Save(childAgency)]: the row with the primary key of
    [agency] is written over. *)
Definition Save (agency : Agency) (table : list Agency) : list Agency :=
  map (fun a => if (a_ID a =? a_ID agency)%N then agency else a) table.

(** What [FirstOrCreate] leaves in the struct [childAgency], which was
    given [ParentID: &parent.ID], when it finds the row [found]: the
    columns of the row, but a NULL [parent_id] is not read into the
    pointer, which keeps the parent it was given. *)
Definition readOver (parent : Agency) (found : Agency) : Agency :=
  mkAgency (a_ID found) (a_Name found) (a_Slug found)
    (match a_ParentID found with
     | Some p => Some p
     | None => Some (a_ID parent)
     end).

(** The second pass, for one child of [parent]: the child is found or
    created by its slug.  A child that is found under another parent is
    moved under [parent]; a child that is found under no parent is left
    as it is in the table, since the struct still holds the parent it was
    given and [childAgency.ParentID == nil || *childAgency.ParentID !=
    parent.ID] is false. *)
Definition createChild (newID : list Agency -> N) (parent : Agency)
    (acc : gmap string Agency * list Agency) (childData : AgencyData)
  : gmap string Agency * list Agency :=
  let found :=
    FirstOrCreate (slugIs (agd_Slug childData))
      (mkAgency (newID (snd acc)) (agd_Name childData) (agd_Slug childData)
                (Some (a_ID parent)))
      (snd acc) in
  let childAgency := readOver parent (fst found) in
  if eqb_opt (a_ParentID childAgency) (a_ID parent)
  then (<[agd_Slug childData := childAgency]> (fst acc), snd found)
  else
    let moved := mkAgency (a_ID childAgency) (a_Name childAgency)
                          (a_Slug childAgency) (Some (a_ID parent)) in
    (<[agd_Slug childData := moved]> (fst acc), Save moved (snd found)).

Definition createChildren (newID : list Agency -> N)
    (acc : gmap string Agency * list Agency) (agencyData : AgencyData)
  : gmap string Agency * list Agency :=
  match fst acc !! agd_Slug agencyData with
  | Some parent => fold_left (createChild newID parent) (agd_Children agencyData) acc
  | None => acc
  end.

(** The conditions [agency_id = ? AND title_id = ? AND chapter = ?]; a
    NULL chapter equals none. *)
Definition referenceIs (agencyID titleID : N) (chapter : string)
    (acr : AgencyCFRReference) : bool :=
  (acr_AgencyID acr =? agencyID)%N && (acr_TitleID acr =? titleID)%N
  && match acr_Chapter acr with
     | Some c => String.eqb c chapter
     | None => false
     end.

(** The third pass, for one reference of an agency: the reference is
    found or created when a title has its number, and passed over
    otherwise. *)
Definition createReference (titles : list Title) (agency : Agency)
    (references : list AgencyCFRReference) (ref : Z * string)
  : list AgencyCFRReference :=
  match find (fun t => t_Number t =? fst ref) titles with
  | Some title =>
      snd (FirstOrCreate (referenceIs (a_ID agency) (t_ID title) (snd ref))
             (mkReference (a_ID agency) (t_ID title) (Some (snd ref)))
             references)
  | None => references
  end.

(** [processAgencyCFRRefs]: the references of an agency of [agencyMap],
    then those of its children. *)
Fixpoint processAgencyCFRRefs (agencyMap : gmap string Agency)
    (titles : list Title) (agencyData : AgencyData)
    (references : list AgencyCFRReference) : list AgencyCFRReference :=
  match agencyMap !! agd_Slug agencyData with
  | Some agency =>
      let references :=
        fold_left (createReference titles agency)
                  (agd_CFRReferences agencyData) references in
      fold_left (fun references childData =>
                   processAgencyCFRRefs agencyMap titles childData references)
                (agd_Children agencyData) references
  | None => references
  end.

(** [ImportAgencies] on the store; [FetchAgencies] is the answer of the
    client, the agencies or an error.  The calls on the status record are
    those of [Status.throughContent]. *)
Definition ImportAgencies
    (FetchAgencies : list AgencyData + Downloader.error)
    (newID : list Agency -> N) (db : DB) : option Downloader.error * DB :=
  match FetchAgencies with
  | inr err => (Some err, db)
  | inl agencies =>
      let first := fold_left (createAgency newID) agencies (∅, Store.agencies db) in
      let second := fold_left (createChildren newID) agencies first in
      let references :=
        fold_left (fun references agencyData =>
                     processAgencyCFRRefs (fst second) (titles db) agencyData
                                          references)
                  agencies (agency_cfr_references db) in
      (None,
       mkDB (snd second) (titles db) references (title_contents db)
            (historical_snapshots db) (agency_checksums db))
  end.

(** What a re-import leaves of an agency: its id, its name and its slug. *)
Definition identity (a : Agency) : N * string * string :=
  (a_ID a, a_Name a, a_Slug a).

(** [newID] gives ids that the table does not hold. *)
Definition freshIDs (newID : list Agency -> N) : Prop :=
  forall table, ~ In (newID table) (map a_ID table).

(** The references grow by rows that name a title of the table. *)
Definition growsByTitles (titles : list Title)
    (before after : list AgencyCFRReference) : Prop :=
  exists more,
    after = before ++ more
    /\ Forall (fun acr => exists t, In t titles /\ acr_TitleID acr = t_ID t) more.

(** What a pass over the document keeps of the agencies table. *)
Definition keepsAgencies (before after : list Agency) : Prop :=
  (exists more, map identity after = map identity before ++ more)
  /\ NoDup (map a_ID after)
  /\ (NoDup (map a_Slug before) -> NoDup (map a_Slug after)).

(** A supply of ids: one more than the largest id of the table. *)
Definition nextID (table : list Agency) : N :=
  N.succ (fold_right N.max 0%N (map a_ID table)).

(** What a pass does to the slugs of the table and to the agencies it
    keeps: [slugs] are the slugs it adds. *)
Definition addsSlugs (slugs : list string)
    (before after : gmap string Agency * list Agency) : Prop :=
  NoDup (map a_ID (snd after))
  /\ (forall slug, In slug (map a_Slug (snd after))
                   <-> In slug (map a_Slug (snd before)) \/ In slug slugs)
  /\ (forall slug, is_Some (fst before !! slug) \/ In slug slugs ->
                   is_Some (fst after !! slug)).

End AgencyImport.

(** ** The import of the titles and of their content *)

Module TitleImport.
Import Store ContentImport.

(** A title of the titles document. *)
Record TitleData := mkTitleData {
  td_Number : Z;
  td_Name : string;
  td_Reserved : bool
}.

(** The loop of [ImportTitles] over the titles of the document: a title
    is found or created by its number.  [newID] is the id that the store
    gives a new row. *)
Definition createTitle (newID : list Title -> N) (table : list Title)
    (titleData : TitleData) : list Title :=
  snd (FirstOrCreate (fun t => t_Number t =? td_Number titleData)
         (mkTitle (newID table) (td_Number titleData) (td_Name titleData)
                  (td_Reserved titleData))
         table).

(** [SELECT * FROM titles WHERE reserved = false] *)
Definition activeTitles (db : DB) : list Title :=
  List.filter (fun t => negb (t_Reserved t)) (titles db).

(** The work of the five workers: every title of the channel is taken
    once, and [downloadAndProcessTitle] reads and writes only the rows of
    its own title, so that a run is the calls in some order, [order]. *)
Definition importContent (cd : Downloader.ContentDownloader) (now : Z)
    (order : list Title) (db : DB) : DB :=
  fold_left (fun db title => downloadAndProcessTitle cd title now db) order db.

(** [ImportTitles] on the store.  [FetchTitles] is the answer of the
    client, the titles or an error; [schedule] gives the order in which the
    workers come to the titles of the channel; [client] and [months] are
    those of [ImportHistoricalData]. *)
Definition ImportTitles (FetchTitles : list TitleData + Downloader.error)
    (newID : list Title -> N) (cd : Downloader.ContentDownloader)
    (schedule : list Title -> list Title)
    (client : HistoricalImport.StructureClient) (months : list Z) (now : Z)
    (db : DB) : option Downloader.error * DB :=
  match FetchTitles with
  | inr err => (Some err, db)
  | inl titles =>
      let db :=
        mkDB (agencies db) (fold_left (createTitle newID) titles (Store.titles db))
             (agency_cfr_references db) (title_contents db)
             (historical_snapshots db) (agency_checksums db) in
      let db := importContent cd now (schedule (activeTitles db)) db in
      let db := snd (Historical.CaptureSnapshot now db) in
      let db := HistoricalImport.ImportHistoricalData client months now db in
      (None, db)
  end.

(** [LoadAllData] on the store: the agencies with their references, then
    the titles with their content and the snapshots. *)
Definition LoadAllData
    (FetchAgencies : list AgencyImport.AgencyData + Downloader.error)
    (newAgencyID : list Agency -> N)
    (FetchTitles : list TitleData + Downloader.error)
    (newTitleID : list Title -> N)
    (cd : Downloader.ContentDownloader) (schedule : list Title -> list Title)
    (client : HistoricalImport.StructureClient) (months : list Z) (now : Z)
    (db : DB) : option Downloader.error * DB :=
  match AgencyImport.ImportAgencies FetchAgencies newAgencyID db with
  | (Some err, db) => (Some err, db)
  | (None, db) =>
      ImportTitles FetchTitles newTitleID cd schedule client months now db
  end.

(** The download of the title fails. *)
Definition downloadFails (cd : Downloader.ContentDownloader) (title : Title)
  : bool :=
  negb (isNull (snd (fst (Downloader.downloadTitleContent cd (t_Number title))))).

(** The row that [downloadAndProcessTitle] offers for a title. *)
Definition contentRow (cd : Downloader.ContentDownloader) (now : Z)
    (title : Title) : TitleContent :=
  let content := fst (fst (Downloader.downloadTitleContent cd (t_Number title))) in
  mkTitleContent (t_ID title) (truncateDay now) content
                 (Some (WordCount.calculateWordCount content))
                 (Some (calculateChecksum content)) now.

End TitleImport.

(** ** The months of the historical import *)

Module SnapshotMonths.

Definition isLeap (year : Z) : bool :=
  (year mod 4 =? 0) && (negb (year mod 100 =? 0) || (year mod 400 =? 0)).

Definition daysIn (year month : Z) : Z :=
  if month =? 2 then (if isLeap year then 29 else 28)
  else if (month =? 4) || (month =? 6) || (month =? 9) || (month =? 11) then 30
  else 31.

(** The normal form that [time.Date] gives a year and a month outside 1
    to 12. *)
Definition normMonth (year month : Z) : Z * Z :=
  (year + (month - 1) / 12, (month - 1) mod 12 + 1).

(** The year and the month of [now.AddDate(0, -monthsBack, 0)]:
    [time.Date] counts the days of [now] from the first of the month that
    lies [monthsBack] months back, so a day that this month does not have
    falls into the next one. *)
Definition monthOfAddDate (year month day monthsBack : Z) : Z * Z :=
  let target := normMonth year (month - monthsBack) in
  if day <=? daysIn (fst target) (snd target) then target
  else normMonth (fst target) (snd target + 1).

(** The months of the loop of [ImportHistoricalData], from one month
    back to 24 months back; every snapshot date is the first day of its
    month. *)
Definition snapshotMonths (year month day : Z) : list (Z * Z) :=
  map (monthOfAddDate year month day) (map Z.of_nat (seq 1 24)).

End SnapshotMonths.

(** ** The handler of the title checksums *)

Module TitleChecksums.
Import Store.

Record ChecksumInfo := mkChecksumInfo {
  ci_TitleNumber : Z;
  ci_TitleName : string;
  ci_Checksum : string;
  ci_LastChanged : Z
}.

(** [title_contents JOIN titles ON titles.id = title_contents.title_id
     WHERE title_contents.checksum IS NOT NULL], before it is ordered. *)
Definition checksumRows (db : DB) : list ChecksumInfo :=
  flat_map (fun tc =>
    flat_map (fun t =>
      if (t_ID t =? tc_TitleID tc)%N
      then match tc_Checksum tc with
           | Some c => [mkChecksumInfo (t_Number t) (t_Name t) c (tc_CreatedAt tc)]
           | None => []
           end
      else [])
      (titles db))
    (title_contents db).

(** [Order("titles.number")] *)
Fixpoint insertInfoByNumber (r : ChecksumInfo) (sorted : list ChecksumInfo)
  : list ChecksumInfo :=
  match sorted with
  | [] => [r]
  | x :: rest =>
      if ci_TitleNumber r <=? ci_TitleNumber x then r :: sorted
      else x :: insertInfoByNumber r rest
  end.

Definition orderInfoByNumber (rows : list ChecksumInfo) : list ChecksumInfo :=
  fold_right insertInfoByNumber [] rows.

(** [ChecksumsHandler]: the [Data] of the response. *)
Definition ChecksumsHandler (db : DB) : list ChecksumInfo :=
  orderInfoByNumber (checksumRows db).

(** The checksums of the content rows that have one. *)
Definition storedChecksums (db : DB) : list string :=
  flat_map (fun tc => match tc_Checksum tc with Some c => [c] | None => [] end)
           (title_contents db).

End TitleChecksums.

(* ================================================================= *)
(** * Theorems *)

Example sha256_abc :
  Sha256.sum256_hex "abc"
  = "ba7816bf8f01cfea414140de5dae2223b00361a396177a9cb410ff61f20015ad".
Proof. vm_compute. reflexivity. Qed.

Example sha256_empty :
  Sha256.sum256_hex ""
  = "e3b0c44298fc1c149afbf4c8996fb92427ae41e4649b934ca495991b7852b855".
Proof. vm_compute. reflexivity. Qed.

(** ** Word count *)

Section WordCountFacts.
Import WordCount.

Lemma reSpace_isSpace c : reSpace c = true -> isSpace c = true.
Proof.
  unfold reSpace. rewrite !orb_true_iff, !N.eqb_eq.
  intros [[[[-> | ->] | ->] | ->] | ->]; reflexivity.
Qed.

Lemma FieldsFrom_length cur text :
  length (FieldsFrom cur text)
  = (fieldStarts (match cur with [] => true | _ => false end) text
     + match cur with [] => 0 | _ => 1 end)%nat.
Proof.
  revert cur. induction text as [|c rest IH]; intros cur; simpl.
  - destruct cur; reflexivity.
  - destruct (isSpace c).
    + destruct cur; simpl; rewrite IH; simpl; lia.
    + rewrite IH. destruct cur; simpl; lia.
Qed.

Lemma Fields_length text : length (Fields text) = fieldStarts true text.
Proof. unfold Fields. rewrite FieldsFrom_length. simpl. lia. Qed.

Lemma dropSpace_split text :
  exists ws, text = ws ++ dropSpace text /\ Forall (fun c => isSpace c = true) ws.
Proof.
  induction text as [|c rest [ws [E F]]]; simpl.
  - exists []. split; [reflexivity | constructor].
  - destruct (isSpace c) eqn:Hc.
    + exists (c :: ws). split; [simpl; congruence | constructor; assumption].
    + exists []. split; [reflexivity | constructor].
Qed.

Lemma fieldStarts_spaces_l b ws text :
  Forall (fun c => isSpace c = true) ws ->
  ws <> [] -> fieldStarts b (ws ++ text) = fieldStarts true text.
Proof.
  intros F. revert b. induction F as [|c ws Hc F IH]; intros b Hne.
  - congruence.
  - simpl. rewrite Hc. destruct ws as [|d ws'].
    + reflexivity.
    + apply IH. discriminate.
Qed.

Lemma fieldStarts_dropSpace text :
  fieldStarts true (dropSpace text) = fieldStarts true text.
Proof.
  destruct (dropSpace_split text) as [ws [E F]].
  destruct ws as [|c ws].
  - simpl in E. congruence.
  - rewrite E at 2. symmetry. apply fieldStarts_spaces_l; [assumption | discriminate].
Qed.

Lemma fieldStarts_spaces b ws :
  Forall (fun c => isSpace c = true) ws -> fieldStarts b ws = O.
Proof.
  intros F. revert b. induction F as [|c ws Hc F IH]; intros b; simpl.
  - reflexivity.
  - rewrite Hc. apply IH.
Qed.

Lemma fieldStarts_spaces_r b text ws :
  Forall (fun c => isSpace c = true) ws ->
  fieldStarts b (text ++ ws) = fieldStarts b text.
Proof.
  intros F. revert b. induction text as [|c rest IH]; intros b; simpl.
  - apply fieldStarts_spaces. assumption.
  - rewrite !IH. reflexivity.
Qed.

Lemma fieldStarts_TrimSpace text :
  fieldStarts true (TrimSpace text) = fieldStarts true text.
Proof.
  unfold TrimSpace. rewrite <- (fieldStarts_dropSpace text).
  set (u := dropSpace text).
  destruct (dropSpace_split (rev u)) as [ws [E F]].
  assert (Eu : u = rev (dropSpace (rev u)) ++ rev ws).
  { rewrite <- rev_app_distr, <- E, rev_involutive. reflexivity. }
  rewrite Eu at 2. symmetry. apply fieldStarts_spaces_r.
  apply Forall_rev. assumption.
Qed.

Lemma fieldStarts_collapseFrom inRun b text :
  (inRun = true -> b = true) ->
  fieldStarts b (collapseFrom inRun text) = fieldStarts b text.
Proof.
  revert inRun b. induction text as [|c rest IH]; intros inRun b Hb; simpl.
  - reflexivity.
  - destruct (reSpace c) eqn:Hre.
    + rewrite (reSpace_isSpace c Hre). destruct inRun.
      * rewrite (Hb eq_refl). apply IH. reflexivity.
      * simpl. apply IH. reflexivity.
    + simpl. destruct (isSpace c).
      * apply IH. discriminate.
      * rewrite IH by discriminate. reflexivity.
Qed.

Lemma wordCountOfRunes_fieldStarts content :
  wordCountOfRunes content = Z.of_nat (fieldStarts true (stripTags content)).
Proof.
  unfold wordCountOfRunes.
  rewrite <- (fieldStarts_TrimSpace (stripTags content)).
  rewrite <- (fieldStarts_collapseFrom false true (TrimSpace (stripTags content)))
    by discriminate.
  fold (collapseSpace (TrimSpace (stripTags content))).
  destruct (collapseSpace (TrimSpace (stripTags content))) as [|c text] eqn:E.
  - reflexivity.
  - rewrite Fields_length. reflexivity.
Qed.

Lemma stripTagsFrom_app pending u w :
  tagOpenFrom (match pending with Some _ => true | None => false end) u = false ->
  stripTagsFrom pending (u ++ w) = stripTagsFrom pending u ++ stripTags w.
Proof.
  revert pending. induction u as [|c rest IH]; intros pending H.
  - destruct pending; [discriminate | reflexivity].
  - destruct pending as [buf|]; simpl in *.
    + destruct (c =? gt)%N; simpl in H.
      * rewrite (IH None H). reflexivity.
      * apply (IH (Some (c :: buf))). exact H.
    + destruct (c =? lt)%N.
      * apply (IH (Some [c])). exact H.
      * rewrite (IH None H). reflexivity.
Qed.

Lemma stripTagsFrom_close buf body v :
  Forall (fun c => c <> gt) body ->
  stripTagsFrom (Some buf) (body ++ gt :: v) = space :: stripTags v.
Proof.
  intros F. revert buf. induction F as [|c body Hc F IH]; intros buf; simpl.
  - reflexivity.
  - destruct (N.eqb_spec c gt); [contradiction | apply IH].
Qed.

(** A '<' that no '>' follows starts no match. *)
Lemma stripTagsFrom_unclosed buf text :
  Forall (fun c => c <> gt) text ->
  stripTagsFrom (Some buf) text = rev buf ++ text.
Proof.
  intros F. revert buf. induction F as [|c text Hc F IH]; intros buf; simpl.
  - rewrite app_nil_r. reflexivity.
  - destruct (N.eqb_spec c gt); [contradiction|].
    rewrite IH. simpl. rewrite <- app_assoc. reflexivity.
Qed.

(** Text without a '<' has no match. *)
Lemma stripTags_plain text :
  Forall (fun c => c <> lt) text -> stripTags text = text.
Proof.
  unfold stripTags. induction 1 as [|c text Hc F IH]; simpl.
  - reflexivity.
  - destruct (N.eqb_spec c lt); [contradiction | congruence].
Qed.

Lemma stripTags_tag u body v :
  tagOpen u = false ->
  Forall (fun c => c <> gt) body ->
  stripTags (u ++ lt :: body ++ gt :: v) = stripTags u ++ space :: stripTags v.
Proof.
  intros Hu Hb. unfold stripTags at 1.
  rewrite (stripTagsFrom_app None u _ Hu). f_equal.
  unfold stripTags. simpl. apply stripTagsFrom_close. assumption.
Qed.

Lemma fieldStarts_space_between b u c v :
  isSpace c = true ->
  fieldStarts b (u ++ c :: v) = (fieldStarts b u + fieldStarts true v)%nat.
Proof.
  intros Hc. revert b. induction u as [|d u IH]; intros b; simpl.
  - rewrite Hc. reflexivity.
  - destruct (isSpace d); rewrite IH; lia.
Qed.

Lemma stripTagsFrom_deleted pending text :
  deleteTagsFrom pending text = [] ->
  Forall (fun c => isSpace c = true) (stripTagsFrom pending text).
Proof.
  revert pending. induction text as [|c rest IH]; intros pending H.
  - destruct pending as [buf|]; simpl in *; [rewrite H|]; constructor.
  - destruct pending as [buf|]; simpl in *.
    + destruct (c =? gt)%N.
      * constructor; [reflexivity | apply IH; assumption].
      * apply IH. assumption.
    + destruct (c =? lt)%N.
      * apply IH. assumption.
      * discriminate.
Qed.

Lemma wordCountOfRunes_deleted content :
  deleteTags content = [] -> wordCountOfRunes content = 0.
Proof.
  intros H. rewrite wordCountOfRunes_fieldStarts.
  rewrite fieldStarts_spaces; [reflexivity|].
  apply stripTagsFrom_deleted. exact H.
Qed.

Lemma wordCountOfRunes_tag u body v :
  tagOpen u = false ->
  Forall (fun c => c <> gt) body ->
  wordCountOfRunes (u ++ lt :: body ++ gt :: v)
  = wordCountOfRunes u + wordCountOfRunes v.
Proof.
  intros Hu Hb. rewrite !wordCountOfRunes_fieldStarts.
  rewrite (stripTags_tag u body v Hu Hb).
  rewrite fieldStarts_space_between by reflexivity. lia.
Qed.

(** The fields hold no white space and none is empty. *)
Lemma FieldsFrom_fields cur text :
  Forall (fun c => isSpace c = false) cur ->
  Forall (fun f => f <> [] /\ Forall (fun c => isSpace c = false) f)
         (FieldsFrom cur text).
Proof.
  revert cur. induction text as [|c rest IH]; intros cur Hcur; simpl.
  - destruct cur as [|d cur']; constructor; [|constructor].
    split.
    + intros E. apply (f_equal (@length _)) in E.
      rewrite length_rev in E. discriminate.
    + apply Forall_rev. assumption.
  - destruct (isSpace c) eqn:Hc.
    + destruct cur as [|d cur'].
      * apply IH. constructor.
      * constructor; [|apply IH; constructor].
        split.
        -- intros E. apply (f_equal (@length _)) in E.
           rewrite length_rev in E. discriminate.
        -- apply Forall_rev. assumption.
    + apply IH. constructor; assumption.
Qed.

Example decode_two_bytes : decode [195; 169]%N = [233]%N.
Proof. reflexivity. Qed.

Example decode_invalid_byte : decode [195; 60]%N = [RuneError; lt].
Proof. reflexivity. Qed.

(** A no-break space, which [\s] does not match, still ends a field. *)
Example no_break_space_separates :
  calculateWordCount
    (String "a" (String (ascii_of_nat 194) (String (ascii_of_nat 160) "b"))) = 2.
Proof. reflexivity. Qed.

(** A '<' with no '>' after it is text. *)
Example unclosed_tag_is_text : calculateWordCount "a <b c" = 3.
Proof. reflexivity. Qed.

Example tag_with_newline :
  stripTags (runes (String.append "x<a" (String.append GoNum.newline "b>y")))
  = runes "x y".
Proof. reflexivity. Qed.

(** C4.  The word count of a document is the number of fields that
    [strings.Fields] finds in its text once every tag match is replaced,
    the text is trimmed and its runs of white space are collapsed; that
    number is already the number of fields of the text right after the tags
    are replaced.  A document of which nothing is left when its tags are
    taken out counts 0 words, and [<a>hello world</a>] counts 2. *)
Theorem calculateWordCount_counts_fields :
  (forall xmlContent : string,
     calculateWordCount xmlContent
     = Z.of_nat (length (Fields (collapseSpace (TrimSpace
                                   (stripTags (runes xmlContent))))))
     /\ calculateWordCount xmlContent
        = Z.of_nat (length (Fields (stripTags (runes xmlContent))))
     /\ Forall (fun f => f <> [] /\ Forall (fun c => isSpace c = false) f)
               (Fields (stripTags (runes xmlContent)))
     /\ (collapseSpace (TrimSpace (stripTags (runes xmlContent))) = [] ->
         calculateWordCount xmlContent = 0)
     /\ (deleteTags (runes xmlContent) = [] ->
         calculateWordCount xmlContent = 0))
  /\ calculateWordCount "" = 0
  /\ calculateWordCount "<a>hello world</a>" = 2.
Proof.
  split; [|split; vm_compute; reflexivity].
  intros xmlContent. unfold calculateWordCount. repeat split.
  - rewrite wordCountOfRunes_fieldStarts, Fields_length.
    unfold collapseSpace.
    rewrite fieldStarts_collapseFrom by discriminate.
    rewrite fieldStarts_TrimSpace. reflexivity.
  - rewrite wordCountOfRunes_fieldStarts, Fields_length. reflexivity.
  - apply FieldsFrom_fields. constructor.
  - intros E. unfold wordCountOfRunes. cbv zeta. rewrite E. reflexivity.
  - apply wordCountOfRunes_deleted.
Qed.

Lemma calculateWordCount_counts_fields_witness :
  deleteTags (runes "<doc><p/></doc>") = []
  /\ calculateWordCount "<doc><p/></doc>" = 0.
Proof.
  split; [reflexivity|].
  apply (proj1 calculateWordCount_counts_fields "<doc><p/></doc>").
  reflexivity.
Defined.

(** C10.  A tag match is replaced by one space: where no '<' of the text
    before is waiting for its '>', the text that replaces
    [before <tag> after] is the replaced [before], a space, and the
    replaced [after]; the words on the two sides of the tag are counted
    apart, so the count of the whole is the sum of the two counts.  The
    word count of [foo<b>bar</b>] is 2. *)
Theorem tag_is_replaced_by_space :
  (forall before tag after : list rune,
     tagOpen before = false ->
     Forall (fun c => c <> gt) tag ->
     stripTags (before ++ lt :: tag ++ gt :: after)
     = stripTags before ++ space :: stripTags after
     /\ wordCountOfRunes (before ++ lt :: tag ++ gt :: after)
        = wordCountOfRunes before + wordCountOfRunes after)
  /\ stripTags (runes "foo<b>bar</b>") = runes "foo bar "
  /\ calculateWordCount "foo<b>bar</b>" = 2.
Proof.
  split; [|split; vm_compute; reflexivity].
  intros before tag after Hopen Htag. split.
  - apply stripTags_tag; assumption.
  - apply wordCountOfRunes_tag; assumption.
Qed.

Lemma tag_is_replaced_by_space_witness :
  wordCountOfRunes (runes "foo" ++ lt :: runes "b" ++ gt :: runes "bar</b>")
  = wordCountOfRunes (runes "foo") + wordCountOfRunes (runes "bar</b>").
Proof.
  apply (proj1 tag_is_replaced_by_space (runes "foo") (runes "b") (runes "bar</b>")).
  - reflexivity.
  - repeat constructor; discriminate.
Defined.

End WordCountFacts.

(** ** The status record *)

Section StatusFacts.
Import Status.

Lemma completedSteps_range s : 0 <= completedSteps s <= 5.
Proof.
  unfold completedSteps, b2z.
  destruct (AgenciesDone s), (TitlesDone s), (ReferencesDone s),
    (ContentDone s), (HistoricalDone s); lia.
Qed.

(** With four total steps the quotient is a multiple of a quarter, which a
    double holds exactly. *)
Lemma quarter_progress completed :
  0 <= completed <= 5 ->
  GoNum.int_of_float64
    (GoNum.float64_of_int completed / GoNum.float64_of_int 4 * 100)%float
  = 25 * completed.
Proof.
  intros H.
  assert (E : completed = 0 \/ completed = 1 \/ completed = 2
              \/ completed = 3 \/ completed = 4 \/ completed = 5) by lia.
  destruct E as [-> | [-> | [-> | [-> | [-> | ->]]]]]; vm_compute; reflexivity.
Qed.

Lemma setFlag_TotalSteps stepName s : TotalSteps (setFlag stepName s) = TotalSteps s.
Proof. reflexivity. Qed.

(** What [markStepComplete] writes: the progress is 25 times the number of
    flags set among the five, and loading stops exactly when that number is
    the number of total steps. *)
Lemma markStepComplete_spec stepName now s :
  TotalSteps s = 4 ->
  let s' := markStepComplete stepName now s in
  let completed := completedSteps (setFlag stepName s) in
  Progress s' = 25 * completed
  /\ IsLoading s' = (if completed =? 4 then false else IsLoading s)
  /\ CurrentStep s'
     = (if completed =? 4 then "All imports completed" else CurrentStep s).
Proof.
  intros H4. cbv zeta. unfold markStepComplete. cbv zeta.
  rewrite setFlag_TotalSteps, H4. simpl.
  rewrite quarter_progress by apply completedSteps_range.
  repeat split.
Qed.

(** Marking the content step stops loading whenever agencies, references
    and titles are marked and the historical step is not. *)
Lemma markStepComplete_content_stops_loading now s :
  TotalSteps s = 4 ->
  AgenciesDone s = true -> ReferencesDone s = true -> TitlesDone s = true ->
  HistoricalDone s = false ->
  let s' := markStepComplete "content" now s in
  IsLoading s' = false /\ CurrentStep s' = "All imports completed"
  /\ HistoricalDone s' = false.
Proof.
  intros H4 Ha Hr Ht Hh. cbv zeta.
  unfold markStepComplete, completedSteps, setFlag. cbv zeta. simpl.
  rewrite H4, Ha, Hr, Ht, Hh. simpl. repeat split.
Qed.

(** Marking the historical step last neither stops loading nor writes the
    completion message. *)
Lemma markStepComplete_historical_keeps_loading now s :
  TotalSteps s = 4 ->
  AgenciesDone s = true -> ReferencesDone s = true -> TitlesDone s = true ->
  ContentDone s = true ->
  let s' := markStepComplete "historical" now s in
  IsLoading s' = IsLoading s /\ CurrentStep s' = CurrentStep s
  /\ Progress s' = 125.
Proof.
  intros H4 Ha Hr Ht Hc. cbv zeta.
  unfold markStepComplete, completedSteps, setFlag. cbv zeta. simpl.
  rewrite H4, Ha, Hr, Ht, Hc. simpl. repeat split.
Qed.

(** C2.  On the run of the whole import, the call that marks the content
    step counts four flags set (agencies, references, titles, content):
    loading stops and the completion message is written while the
    historical step is pending.  The call that marks the historical step
    counts five, which is not the number of total steps: all of agencies,
    titles, content and historical are set, yet the call leaves loading on,
    writes no completion message, and sets the progress to 125. *)
Theorem markStepComplete_counts_five_flags
    (now : Z) (captureError : option string) :
  let atContent := throughContent now (NewImportStatus now) in
  let atEnd := throughHistorical captureError now atContent in
  (IsLoading atContent = false
   /\ CurrentStep atContent = "All imports completed"
   /\ HistoricalDone atContent = false
   /\ Progress atContent = 100)
  /\ (AgenciesDone atEnd = true /\ TitlesDone atEnd = true
      /\ ContentDone atEnd = true /\ HistoricalDone atEnd = true
      /\ IsLoading atEnd = true
      /\ CurrentStep atEnd = "Historical snapshots completed"
      /\ Progress atEnd = 125).
Proof. destruct captureError; vm_compute; repeat split. Qed.

End StatusFacts.

(** ** The content downloader *)

Section DownloaderFacts.
Import Downloader.

(** The strategies before the first success are called and fail; the
    successful one is called last, and its content is returned. *)
Lemma tryStrategies_first_success before st after titleNumber content lastErr :
  Forall (fails titleNumber) before ->
  DownloadTitleContent st titleNumber = (content, None) ->
  let '(r, log) := tryStrategies (before ++ st :: after) titleNumber lastErr in
  r = (content, None)
  /\ attempted log = map GetStrategyName (before ++ [st]).
Proof.
  intros F Hst. revert lastErr.
  induction F as [|s before [e He] F IH]; intros lastErr; simpl.
  - rewrite Hst. split; reflexivity.
  - unfold failsWith in He.
    destruct (DownloadTitleContent s titleNumber) as [c o]. simpl in He. subst o.
    specialize (IH (Some e)).
    destruct (tryStrategies (before ++ st :: after) titleNumber (Some e)) as [r log].
    destruct IH as [Hr Hlog]. simpl. rewrite Hlog. split; [exact Hr | reflexivity].
Qed.

(** When every strategy fails, each is called once, in order, and the error
    of the last one is returned with no content. *)
Lemma tryStrategies_all_fail sts st titleNumber err lastErr :
  Forall (fails titleNumber) sts ->
  failsWith titleNumber st err ->
  let '(r, log) := tryStrategies (sts ++ [st]) titleNumber lastErr in
  r = ("", Some err)
  /\ attempted log = map GetStrategyName (sts ++ [st]).
Proof.
  intros F Hst. revert lastErr.
  induction F as [|s sts [e He] F IH]; intros lastErr; simpl.
  - unfold failsWith in Hst.
    destruct (DownloadTitleContent st titleNumber) as [c o]. simpl in Hst. subst o.
    split; reflexivity.
  - unfold failsWith in He.
    destruct (DownloadTitleContent s titleNumber) as [c o]. simpl in He. subst o.
    specialize (IH (Some e)).
    destruct (tryStrategies (sts ++ [st]) titleNumber (Some e)) as [r log].
    destruct IH as [Hr Hlog]. simpl. rewrite Hlog. split; [exact Hr | reflexivity].
Qed.

(** C7.  The downloader holds the bulk strategy and then the API strategy.
    For every title number and whatever the two transports answer: when the
    bulk download succeeds its content is returned and the API is not
    called; when it fails the API is called next, and its content is
    returned when it succeeds; when both fail the error of the API, the
    last one seen, is returned with no content. *)
Theorem DownloadTitleContent_first_success
    (DownloadTitleXML : Z -> result)
    (FetchTitleContent : Z -> string -> result) (titleNumber : Z) :
  let cd := NewContentDownloader DownloadTitleXML FetchTitleContent in
  map GetStrategyName (strategies cd) = ["Bulk Repository"; "API"]
  /\ fst (downloadTitleContent cd titleNumber)
     = match DownloadTitleXML titleNumber with
       | (content, None) => (content, None)
       | (_, Some _) =>
           match FetchTitleContent titleNumber "" with
           | (content, None) => (content, None)
           | (_, Some err) => ("", Some err)
           end
       end
  /\ attempted (snd (downloadTitleContent cd titleNumber))
     = match DownloadTitleXML titleNumber with
       | (_, None) => ["Bulk Repository"]
       | (_, Some _) => ["Bulk Repository"; "API"]
       end.
Proof.
  cbv zeta. unfold downloadTitleContent, NewContentDownloader. simpl.
  destruct (DownloadTitleXML titleNumber) as [c1 [e1|]]; simpl.
  - destruct (FetchTitleContent titleNumber "") as [c2 [e2|]]; simpl;
      repeat split.
  - repeat split.
Qed.

End DownloaderFacts.

(** ** The store *)

Section StoreFacts.
Import Store.

Lemma FirstOrCreate_found {A : Type} (cond : A -> bool) (row found : A) table :
  find cond table = Some found ->
  FirstOrCreate cond row table = (found, table).
Proof. intros H. unfold FirstOrCreate. rewrite H. reflexivity. Qed.

Lemma FirstOrCreate_created {A : Type} (cond : A -> bool) (row : A) table :
  find cond table = None ->
  FirstOrCreate cond row table = (row, table ++ [row]).
Proof. intros H. unfold FirstOrCreate. rewrite H. reflexivity. Qed.

Lemma find_app_Some {A : Type} (cond : A -> bool) l1 l2 x :
  find cond l1 = Some x -> find cond (l1 ++ l2) = Some x.
Proof.
  induction l1 as [|a l1 IH]; simpl; [discriminate|].
  destruct (cond a); [trivial | exact IH].
Qed.

Lemma find_app_None {A : Type} (cond : A -> bool) l1 l2 :
  find cond l1 = None -> find cond (l1 ++ l2) = find cond l2.
Proof.
  induction l1 as [|a l1 IH]; simpl; [reflexivity|].
  destruct (cond a); [discriminate | exact IH].
Qed.

(** After a find-or-create some row meets the conditions, provided the row
    that was offered meets them. *)
Lemma FirstOrCreate_finds {A : Type} (cond : A -> bool) (row : A) table :
  cond row = true ->
  exists r, find cond (snd (FirstOrCreate cond row table)) = Some r.
Proof.
  intros Hrow. unfold FirstOrCreate.
  destruct (find cond table) as [found|] eqn:E; simpl.
  - eauto.
  - rewrite find_app_None by assumption. simpl. rewrite Hrow. eauto.
Qed.

(** A find-or-create only appends. *)
Lemma FirstOrCreate_extends {A : Type} (cond : A -> bool) (row : A) table :
  exists more, snd (FirstOrCreate cond row table) = table ++ more.
Proof.
  unfold FirstOrCreate. destruct (find cond table); simpl.
  - exists []. rewrite app_nil_r. reflexivity.
  - eauto.
Qed.

(** Reading in an order keeps the rows. *)
Lemma readIn_Permutation {A : Type} (o : ReadOrder) (rows : list A) :
  readIn o rows ≡ₚ rows.
Proof.
  revert rows. induction o as [|n o IH]; intros rows; [reflexivity|].
  destruct rows as [|r rows]; [reflexivity|].
  cbn [readIn]. set (l := r :: rows). set (i := (n mod length l)%nat).
  assert (Hi : (i < length l)%nat).
  { apply Nat.mod_upper_bound. discriminate. }
  destruct (lookup_lt_is_Some_2 l i Hi) as [x Hx].
  rewrite (nth_lookup_Some l i r x Hx), IH.
  rewrite <- (take_drop_middle l i x Hx) at 3.
  apply Permutation_middle.
Qed.

(** Every order of the rows is one in which they are read. *)
Lemma readIn_any {A : Type} (rows rows' : list A) :
  rows ≡ₚ rows' -> exists o, readIn o rows = rows'.
Proof.
  revert rows. induction rows' as [|x rows' IH]; intros rows Hp.
  - apply Permutation_nil_r in Hp. subst. exists []. reflexivity.
  - assert (Hx : x ∈ rows) by (rewrite Hp; left).
    apply list_elem_of_lookup_1 in Hx. destruct Hx as [i Hi].
    pose proof (lookup_lt_Some rows i x Hi) as Hlt.
    assert (Hrest : take i rows ++ drop (S i) rows ≡ₚ rows').
    { apply (Permutation_cons_inv (a := x)).
      rewrite Permutation_middle, (take_drop_middle rows i x Hi). exact Hp. }
    destruct (IH _ Hrest) as [o Ho].
    exists (i :: o). destruct rows as [|r rows]; [discriminate|].
    cbn [readIn]. rewrite (Nat.mod_small _ _ Hlt).
    rewrite (nth_lookup_Some _ i r x Hi), Ho. reflexivity.
Qed.

Lemma readIn_nil {A : Type} (o : ReadOrder) (rows : list A) :
  readIn o rows = [] <-> rows = [].
Proof.
  split.
  - intros E. apply Permutation_nil_r. rewrite <- E.
    symmetry. apply readIn_Permutation.
  - intros ->. destruct o; reflexivity.
Qed.

End StoreFacts.

(** ** The content import worker *)

Section ContentImportFacts.
Import Store ContentImport.

(** When the title has a row for the day, a new download of it is not
    stored: the content table is left as it was. *)
Lemma downloadAndProcessTitle_row_exists cd title now db found :
  find (sameTitleAndDate (t_ID title) (truncateDay now)) (title_contents db)
  = Some found ->
  title_contents (downloadAndProcessTitle cd title now db) = title_contents db.
Proof.
  intros H. unfold downloadAndProcessTitle.
  destruct (fst (Downloader.downloadTitleContent cd (t_Number title)))
    as [content [err|]]; [reflexivity|].
  simpl. rewrite (FirstOrCreate_found _ _ found) by assumption. reflexivity.
Qed.

Lemma find_filter_nil {A : Type} (cond : A -> bool) table :
  find cond table = None -> List.filter cond table = [].
Proof.
  induction table as [|a table IH]; simpl; [reflexivity|].
  destruct (cond a); [discriminate | exact IH].
Qed.

Lemma filter_find_nil {A : Type} (cond : A -> bool) table :
  List.filter cond table = [] -> find cond table = None.
Proof.
  induction table as [|a table IH]; simpl; [reflexivity|].
  destruct (cond a); [discriminate | exact IH].
Qed.

(** The worker keeps at most one row for every title and day. *)
Lemma downloadAndProcessTitle_one_row cd title now db :
  (forall t d, (length (rowsOf t d (title_contents db)) <= 1)%nat) ->
  forall t d,
    (length (rowsOf t d (title_contents
                           (downloadAndProcessTitle cd title now db))) <= 1)%nat.
Proof.
  intros Hdb t d. unfold downloadAndProcessTitle.
  destruct (fst (Downloader.downloadTitleContent cd (t_Number title)))
    as [content [err|]]; [apply Hdb|].
  simpl. unfold FirstOrCreate.
  destruct (find _ (title_contents db)) as [found|] eqn:E; simpl; [apply Hdb|].
  unfold rowsOf. rewrite List.filter_app, length_app. simpl.
  destruct (sameTitleAndDate t d _) eqn:Hnew; simpl.
  - apply find_filter_nil in E.
    assert (Hk : t_ID title = t /\ truncateDay now = d).
    { unfold sameTitleAndDate in Hnew. simpl in Hnew.
      apply andb_true_iff in Hnew. destruct Hnew as [H1 H2].
      apply N.eqb_eq in H1. apply Z.eqb_eq in H2. split; assumption. }
    destruct Hk as [<- <-]. rewrite E. simpl. lia.
  - specialize (Hdb t d). unfold rowsOf in Hdb. lia.
Qed.

(** C3.  A title is imported twice on one day, the second time with other
    content: the table holds one row for the title and the day, and the row
    still holds the content, the word count and the checksum of the first
    download; nothing of the second download is stored. *)
Theorem reimport_keeps_first_download :
  let title := mkTitle 1 10 "Energy" false in
  let db0 := mkDB [] [title] [] [] [] ∅ in
  let first :=
    Downloader.NewContentDownloader
      (fun _ => ("<a>one</a>", None)) (fun _ _ => ("", Some "not called")) in
  let second :=
    Downloader.NewContentDownloader
      (fun _ => ("<a>one two</a>", None)) (fun _ _ => ("", Some "not called")) in
  let db1 := downloadAndProcessTitle first title 1000 db0 in
  let db2 := downloadAndProcessTitle second title 2000 db1 in
  truncateDay 1000 = truncateDay 2000
  /\ title_contents db2 = title_contents db1
  /\ map tc_XMLContent (title_contents db2) = ["<a>one</a>"]
  /\ map tc_WordCount (title_contents db2) = [Some 1]
  /\ WordCount.calculateWordCount "<a>one two</a>" = 2
  /\ map tc_Checksum (title_contents db2) = [Some (calculateChecksum "<a>one</a>")]
  /\ calculateChecksum "<a>one</a>" <> calculateChecksum "<a>one two</a>".
Proof.
  cbv zeta. repeat split; try (vm_compute; reflexivity).
  vm_compute. discriminate.
Qed.

End ContentImportFacts.

(** ** The checksum engine *)

Section ChecksumFacts.
Import Store Checksum.

(** *** The order of the rows *)

Lemma insertByNumber_Permutation r rows : insertByNumber r rows ≡ₚ r :: rows.
Proof.
  induction rows as [|x rows IH]; simpl; [reflexivity|].
  destruct (fst r <=? fst x); [reflexivity|].
  rewrite IH. apply perm_swap.
Qed.

Lemma orderByNumber_Permutation rows : orderByNumber rows ≡ₚ rows.
Proof.
  induction rows as [|r rows IH]; simpl; [reflexivity|].
  rewrite insertByNumber_Permutation, IH. reflexivity.
Qed.

Lemma insertByNumber_sorted r rows :
  StronglySorted byNumber rows -> StronglySorted byNumber (insertByNumber r rows).
Proof.
  induction 1 as [|x rows Hs IH Hx]; simpl.
  - repeat constructor.
  - destruct (Z.leb_spec (fst r) (fst x)) as [Hle|Hgt].
    + constructor; [constructor; assumption|].
      constructor; [exact Hle|].
      eapply Forall_impl; [exact Hx|].
      unfold byNumber. intros y Hy. lia.
    + constructor; [exact IH|].
      rewrite insertByNumber_Permutation.
      constructor; [unfold byNumber; lia | exact Hx].
Qed.

Lemma orderByNumber_sorted rows : StronglySorted byNumber (orderByNumber rows).
Proof.
  induction rows as [|r rows IH]; simpl.
  - constructor.
  - apply insertByNumber_sorted. exact IH.
Qed.

(** Rows with pairwise distinct title numbers give each title one
    checksum. *)
Lemma oneChecksumPerTitle_NoDup rows :
  NoDup (map fst rows) -> oneChecksumPerTitle rows.
Proof.
  unfold oneChecksumPerTitle.
  induction rows as [|r rows IH]; intros Hnd x y Hx Hy E.
  - inversion Hx.
  - simpl in Hnd. apply NoDup_cons in Hnd. destruct Hnd as [Hr Hnd].
    apply elem_of_cons in Hx, Hy.
    destruct Hx as [-> | Hx], Hy as [-> | Hy].
    + reflexivity.
    + exfalso. apply Hr. rewrite E. apply (list_elem_of_fmap_2 fst). exact Hy.
    + exfalso. apply Hr. rewrite <- E. apply (list_elem_of_fmap_2 fst). exact Hx.
    + apply IH; assumption.
Qed.

Lemma orderByNumber_nil rows : orderByNumber rows = [] -> rows = [].
Proof.
  destruct rows as [|r rows]; [reflexivity|]. simpl.
  destruct (orderByNumber rows) as [|x sorted]; simpl; [discriminate|].
  destruct (fst r <=? fst x); discriminate.
Qed.

(** Rows that give each title one checksum are ordered the same way
    whatever the order in which they are read. *)
Lemma orderByNumber_order_irrelevant rows rows' :
  oneChecksumPerTitle rows ->
  rows ≡ₚ rows' ->
  orderByNumber rows = orderByNumber rows'.
Proof.
  intros Hone Hperm.
  apply (StronglySorted_unique_strong byNumber).
  - intros x y Hx Hy Hxy Hyx. unfold byNumber in *.
    rewrite orderByNumber_Permutation in Hx, Hy.
    rewrite <- Hperm in Hy.
    destruct x as [n c], y as [m d]. simpl in *.
    assert (n = m) by lia. subst m.
    f_equal. apply (Hone (n, c) (n, d)); auto.
  - apply orderByNumber_sorted.
  - apply orderByNumber_sorted.
  - rewrite !orderByNumber_Permutation. exact Hperm.
Qed.

Lemma checksumOfRows_order_irrelevant rows rows' :
  oneChecksumPerTitle rows ->
  rows ≡ₚ rows' ->
  checksumOfRows rows = checksumOfRows rows'.
Proof.
  intros Hone Hperm. unfold checksumOfRows.
  rewrite (orderByNumber_order_irrelevant rows rows' Hone Hperm). reflexivity.
Qed.

Example line_of_title_10 :
  line (10, "abc") = String.append "TITLE_10:abc" GoNum.newline.
Proof. reflexivity. Qed.

Example orderByNumber_ascending :
  orderByNumber [(29, "c"); (7, "a"); (10, "b")] = [(7, "a"); (10, "b"); (29, "c")].
Proof. reflexivity. Qed.

(** Rows that are sorted are left as they are. *)
Lemma orderByNumber_sorted_id rows :
  StronglySorted byNumber rows -> orderByNumber rows = rows.
Proof.
  induction 1 as [|x rows Hs IH Hx]; [reflexivity|].
  cbn [orderByNumber fold_right]. fold (orderByNumber rows). rewrite IH.
  destruct rows as [|y rows]; [reflexivity|].
  inversion Hx as [|? ? Hxy _]; subst. unfold byNumber in Hxy.
  cbn [insertByNumber]. rewrite (proj2 (Z.leb_le _ _) Hxy). reflexivity.
Qed.

(** *** The answers of the query *)

Lemma titleChecksums_Permutation o db agencyID :
  titleChecksums o db agencyID ≡ₚ joinedRows db agencyID.
Proof.
  unfold titleChecksums.
  rewrite orderByNumber_Permutation. apply readIn_Permutation.
Qed.

Lemma titleChecksums_sorted o db agencyID :
  StronglySorted byNumber (titleChecksums o db agencyID).
Proof. apply orderByNumber_sorted. Qed.

(** Every order of the rows that ascends in the title numbers is an
    answer of the query. *)
Lemma titleChecksums_any db agencyID rows :
  rows ≡ₚ joinedRows db agencyID -> StronglySorted byNumber rows ->
  exists o, titleChecksums o db agencyID = rows.
Proof.
  intros Hp Hs. symmetry in Hp.
  destruct (readIn_any _ _ Hp) as [o Ho].
  exists o. unfold titleChecksums. rewrite Ho.
  apply orderByNumber_sorted_id. exact Hs.
Qed.

(** When every title number comes with one checksum the query has one
    answer. *)
Lemma titleChecksums_one_answer o o' db agencyID :
  oneChecksumPerTitle (joinedRows db agencyID) ->
  titleChecksums o db agencyID = titleChecksums o' db agencyID.
Proof.
  intros Hone. unfold titleChecksums.
  transitivity (orderByNumber (joinedRows db agencyID)).
  - symmetry. apply orderByNumber_order_irrelevant; [exact Hone|].
    symmetry. apply readIn_Permutation.
  - apply orderByNumber_order_irrelevant; [exact Hone|].
    symmetry. apply readIn_Permutation.
Qed.

Lemma titleChecksums_nil o db agencyID :
  titleChecksums o db agencyID = [] <-> joinedRows db agencyID = [].
Proof.
  unfold titleChecksums. split.
  - intros E. apply orderByNumber_nil in E. apply readIn_nil in E. exact E.
  - intros ->. rewrite (proj2 (readIn_nil o []) eq_refl). reflexivity.
Qed.

(** *** Change detection *)

Lemma titleChecksums_frame o acs db agencyID :
  titleChecksums o (with_agency_checksums acs db) agencyID
  = titleChecksums o db agencyID.
Proof. reflexivity. Qed.

Lemma settled_skipped o agencyID now db :
  settled o agencyID db ->
  calculateAndStoreAgencyChecksum o agencyID now db = ("skipped", db).
Proof.
  unfold calculateAndStoreAgencyChecksum. intros [Hnil | [record [Hrec Hhash]]].
  - rewrite Hnil. reflexivity.
  - destruct (titleChecksums o db agencyID) as [|r rows]; [reflexivity|].
    rewrite Hrec, Hhash, String.eqb_refl. reflexivity.
Qed.

Lemma calculateAndStoreAgencyChecksum_settles o agencyID now db :
  settled o agencyID (snd (calculateAndStoreAgencyChecksum o agencyID now db)).
Proof.
  unfold calculateAndStoreAgencyChecksum.
  destruct (titleChecksums o db agencyID) as [|r rows] eqn:Hrows.
  - left. exact Hrows.
  - destruct (agency_checksums db !! agencyID) as [existing|] eqn:Hrec.
    + destruct (String.eqb_spec (ac_ContentHash existing)
                  (Sha256.sum256_hex (buildContent (r :: rows)))) as [E|E].
      * right. exists existing. simpl. rewrite Hrows. auto.
      * right. eexists. simpl. rewrite titleChecksums_frame, Hrows.
        split; [apply lookup_insert_eq | reflexivity].
    + right. eexists. simpl. rewrite titleChecksums_frame, Hrows.
      split; [apply lookup_insert_eq | reflexivity].
Qed.

(** The calculation for another agency leaves the agency settled. *)
Lemma calculateAndStoreAgencyChecksum_keeps_settled o o' agencyID other now db :
  other <> agencyID ->
  settled o agencyID db ->
  settled o agencyID (snd (calculateAndStoreAgencyChecksum o' other now db)).
Proof.
  intros Hne Hs. unfold calculateAndStoreAgencyChecksum.
  destruct (titleChecksums o' db other) as [|r rows]; [exact Hs|].
  destruct (agency_checksums db !! other) as [existing|].
  - destruct (String.eqb _ _); [exact Hs|].
    unfold settled in *. simpl. rewrite titleChecksums_frame.
    rewrite lookup_insert_ne by assumption. exact Hs.
  - unfold settled in *. simpl. rewrite titleChecksums_frame.
    rewrite lookup_insert_ne by assumption. exact Hs.
Qed.

Lemma processAgencies_keeps_settled orders agencyID ids now st db :
  settled (orders agencyID) agencyID db ->
  settled (orders agencyID) agencyID (snd (processAgencies orders ids now st db)).
Proof.
  revert st db. induction ids as [|a ids IH]; intros st db Hs; simpl.
  - exact Hs.
  - assert (H1 : settled (orders agencyID) agencyID
                   (snd (calculateAndStoreAgencyChecksum (orders a) a now db))).
    { destruct (N.eq_dec a agencyID) as [->|Hne].
      - apply calculateAndStoreAgencyChecksum_settles.
      - apply calculateAndStoreAgencyChecksum_keeps_settled; assumption. }
    destruct (calculateAndStoreAgencyChecksum (orders a) a now db) as [result db1].
    specialize (IH (count result st) db1 H1).
    destruct (processAgencies orders ids now (count result st) db1)
      as [[results st2] db2].
    exact IH.
Qed.

Lemma processAgencies_settles orders ids now st db :
  Forall (fun a => settled (orders a) a (snd (processAgencies orders ids now st db)))
         ids.
Proof.
  revert st db. induction ids as [|a ids IH]; intros st db; simpl.
  - constructor.
  - pose proof (calculateAndStoreAgencyChecksum_settles (orders a) a now db) as H1.
    destruct (calculateAndStoreAgencyChecksum (orders a) a now db) as [result db1].
    pose proof (processAgencies_keeps_settled orders a ids now (count result st)
                  db1 H1) as H2.
    specialize (IH (count result st) db1).
    destruct (processAgencies orders ids now (count result st) db1)
      as [[results st2] db2].
    simpl in *. constructor; assumption.
Qed.

Lemma processAgencies_settled orders ids now st db :
  Forall (fun a => settled (orders a) a db) ids ->
  processAgencies orders ids now st db
  = (map (fun _ => "skipped") ids,
     mkStats (successCount st) (skippedCount st + Z.of_nat (length ids))
             (errorCount st),
     db).
Proof.
  intros F. revert st. induction F as [|a ids Ha F IH]; intros st; simpl.
  - destruct st. simpl. rewrite Z.add_0_r. reflexivity.
  - rewrite (settled_skipped (orders a) a now db Ha). rewrite IH.
    change (count "skipped" st)
      with (mkStats (successCount st) (skippedCount st + 1) (errorCount st)).
    cbn [successCount skippedCount errorCount map length].
    replace (skippedCount st + 1 + Z.of_nat (length ids))
      with (skippedCount st + Z.of_nat (S (length ids))) by lia.
    reflexivity.
Qed.

Lemma processAgencies_agencies orders ids now st db :
  agencies (snd (processAgencies orders ids now st db)) = agencies db.
Proof.
  revert st db. induction ids as [|a ids IH]; intros st db; simpl.
  - reflexivity.
  - assert (H1 : agencies (snd (calculateAndStoreAgencyChecksum (orders a) a now db))
                 = agencies db).
    { unfold calculateAndStoreAgencyChecksum.
      destruct (titleChecksums (orders a) db a); [reflexivity|].
      destruct (agency_checksums db !! a); [|reflexivity].
      destruct (String.eqb _ _); reflexivity. }
    destruct (calculateAndStoreAgencyChecksum (orders a) a now db) as [result db1].
    specialize (IH (count result st) db1).
    destruct (processAgencies orders ids now (count result st) db1)
      as [[results st2] db2].
    simpl in *. congruence.
Qed.

(** An agency that is settled in one read order is settled in every read
    order when each of its title numbers comes with one checksum. *)
Lemma settled_any_order o o' agencyID db :
  oneChecksumPerTitle (joinedRows db agencyID) ->
  settled o agencyID db -> settled o' agencyID db.
Proof.
  intros Hone. unfold settled.
  rewrite (titleChecksums_one_answer o' o db agencyID Hone). trivial.
Qed.

Lemma flat_map_nil {A B : Type} (f : A -> list B) l :
  (forall x, In x l -> f x = []) -> flat_map f l = [].
Proof.
  induction l as [|a l IH]; intros H; simpl; [reflexivity|].
  rewrite (H a) by (left; reflexivity).
  apply IH. intros x Hx. apply H. right. exact Hx.
Qed.

Lemma joinedRows_nil db agencyID :
  (forall acr t tc,
     In acr (agency_cfr_references db) -> acr_AgencyID acr = agencyID ->
     In t (titles db) -> t_ID t = acr_TitleID acr ->
     In tc (title_contents db) -> tc_TitleID tc = t_ID t ->
     tc_Checksum tc = None \/ tc_Checksum tc = Some "") ->
  joinedRows db agencyID = [].
Proof.
  intros H. unfold joinedRows.
  apply flat_map_nil. intros tc Htc.
  apply flat_map_nil. intros t Ht.
  apply flat_map_nil. intros acr Hacr.
  destruct ((tc_TitleID tc =? t_ID t)%N && (acr_TitleID acr =? t_ID t)%N
            && (acr_AgencyID acr =? agencyID)%N) eqn:E; [|reflexivity].
  apply andb_true_iff in E. destruct E as [E E3].
  apply andb_true_iff in E. destruct E as [E1 E2].
  apply N.eqb_eq in E1, E2, E3.
  destruct (H acr t tc Hacr E3 Ht (eq_sym E2) Htc E1) as [-> | ->]; reflexivity.
Qed.

(** C8.  When none of the titles that the agency references has a content
    row with a checksum that is neither NULL nor empty, the calculation
    answers "skipped" and leaves the store as it was: it creates no record
    for the agency, and so stores no hash of an empty text. *)
Theorem no_checksum_without_recorded_titles (o : ReadOrder) (agencyID : N)
    (now : Z) (db : DB) :
  (forall acr t tc,
     In acr (agency_cfr_references db) -> acr_AgencyID acr = agencyID ->
     In t (titles db) -> t_ID t = acr_TitleID acr ->
     In tc (title_contents db) -> tc_TitleID tc = t_ID t ->
     tc_Checksum tc = None \/ tc_Checksum tc = Some "") ->
  calculateAndStoreAgencyChecksum o agencyID now db = ("skipped", db)
  /\ agency_checksums (snd (calculateAndStoreAgencyChecksum o agencyID now db))
       !! agencyID
     = agency_checksums db !! agencyID.
Proof.
  intros H.
  assert (E : calculateAndStoreAgencyChecksum o agencyID now db = ("skipped", db)).
  { unfold calculateAndStoreAgencyChecksum.
    rewrite (proj2 (titleChecksums_nil o db agencyID) (joinedRows_nil db agencyID H)).
    reflexivity. }
  rewrite E. split; reflexivity.
Qed.

Lemma no_checksum_without_recorded_titles_witness :
  let db := mkDB [mkAgency 7 "Office of Examples" "office-examples" None]
                 [mkTitle 1 10 "Energy" false; mkTitle 2 12 "Banks" false]
                 [mkReference 7 1 (Some "I"); mkReference 7 2 None]
                 [mkTitleContent 1 0 "<a/>" (Some 0) None 5;
                  mkTitleContent 2 0 "" None (Some "") 5]
                 [] ∅ in
  calculateAndStoreAgencyChecksum [] 7 9 db = ("skipped", db)
  /\ agency_checksums (snd (calculateAndStoreAgencyChecksum [] 7 9 db)) !! 7%N = None.
Proof.
  cbv zeta.
  apply (no_checksum_without_recorded_titles [] 7 9).
  simpl. intros acr t tc _ _ _ _ [<- | [<- | []]] _; simpl; auto.
Defined.

(** The outcomes of one calculation.  For an agency with qualifying rows:
    when its record holds the hash just computed the outcome is "skipped"
    and the store is left as it was; when the record holds another hash
    the outcome is "updated", and when there is no record it is "created",
    and in both cases the record now holds the new hash. *)
Lemma calculateAndStoreAgencyChecksum_cases o agencyID now db :
  let rows := titleChecksums o db agencyID in
  let hash := Sha256.sum256_hex (buildContent rows) in
  let stored :=
    with_agency_checksums
      (<[agencyID := mkAgencyChecksum hash hash now]> (agency_checksums db)) db in
  let first := calculateAndStoreAgencyChecksum o agencyID now db in
  rows <> [] ->
  (forall record,
     agency_checksums db !! agencyID = Some record ->
     ac_ContentHash record = hash -> first = ("skipped", db))
  /\ (forall record,
        agency_checksums db !! agencyID = Some record ->
        ac_ContentHash record <> hash -> first = ("updated", stored))
  /\ (agency_checksums db !! agencyID = None -> first = ("created", stored)).
Proof.
  cbv zeta. intros Hrows. unfold calculateAndStoreAgencyChecksum.
  destruct (titleChecksums o db agencyID) as [|r rows]; [congruence|].
  repeat split.
  - intros record -> E. rewrite E, String.eqb_refl. reflexivity.
  - intros record -> E. apply String.eqb_neq in E. rewrite E. reflexivity.
  - intros ->. reflexivity.
Qed.

Lemma calculateAndStoreAgencyChecksum_joinedRows o other now db agencyID :
  joinedRows (snd (calculateAndStoreAgencyChecksum o other now db)) agencyID
  = joinedRows db agencyID.
Proof.
  unfold calculateAndStoreAgencyChecksum.
  destruct (titleChecksums o db other); [reflexivity|].
  destruct (agency_checksums db !! other); [|reflexivity].
  destruct (String.eqb _ _); reflexivity.
Qed.

Lemma processAgencies_joinedRows orders ids now st db agencyID :
  joinedRows (snd (processAgencies orders ids now st db)) agencyID
  = joinedRows db agencyID.
Proof.
  revert st db. induction ids as [|a ids IH]; intros st db; [reflexivity|].
  cbn [processAgencies].
  pose proof (calculateAndStoreAgencyChecksum_joinedRows (orders a) a now db
                agencyID) as H1.
  destruct (calculateAndStoreAgencyChecksum (orders a) a now db) as [result db1].
  specialize (IH (count result st) db1).
  destruct (processAgencies orders ids now (count result st) db1)
    as [[results st2] db2].
  cbn [snd] in *. congruence.
Qed.

(** A second run that reads the rows as the first one did, or a second
    run in any read order over agencies whose title numbers come with one
    checksum each, answers "skipped" for every agency and leaves the store
    as the first run left it. *)
Lemma second_run_skips orders orders' now now' db :
  (forall a, In a (agencies db) ->
     orders' (a_ID a) = orders (a_ID a)
     \/ oneChecksumPerTitle (joinedRows db (a_ID a))) ->
  let db1 := snd (CalculateChecksumsHandler orders now db) in
  CalculateChecksumsHandler orders' now' db1
  = (map (fun _ => "skipped") (agencies db),
     mkStats 0 (Z.of_nat (length (agencies db))) 0,
     db1).
Proof.
  intros Hsame. cbv zeta. unfold CalculateChecksumsHandler.
  rewrite processAgencies_agencies.
  rewrite processAgencies_settled.
  - rewrite length_map, map_map. reflexivity.
  - pose proof (processAgencies_settles orders (map a_ID (agencies db)) now
                  (mkStats 0 0 0) db) as F.
    rewrite Forall_map in F |- *. rewrite Forall_forall in F |- *.
    intros a Ha. specialize (F a Ha). cbn beta in F |- *.
    destruct (Hsame a (proj1 (list_elem_of_In _ _) Ha)) as [-> | Hone];
      [exact F|].
    apply (settled_any_order (orders (a_ID a))); [|exact F].
    rewrite processAgencies_joinedRows. exact Hone.
Qed.

(** Two runs of the recalculation over a store with one agency and one
    title with content: the first creates the record, the second skips. *)
Example two_runs_created_then_skipped :
  let db := mkDB [mkAgency 7 "Office of Examples" "office-examples" None]
                 [mkTitle 1 10 "Energy" false]
                 [mkReference 7 1 None]
                 [mkTitleContent 1 0 "<a>one</a>" (Some 1)
                                 (Some (ContentImport.calculateChecksum "<a>one</a>")) 5]
                 [] ∅ in
  let '(results1, stats1, db1) := CalculateChecksumsHandler (fun _ => []) 9 db in
  let '(results2, stats2, db2) :=
    CalculateChecksumsHandler (fun _ => [1%nat]) 10 db1 in
  results1 = ["created"] /\ stats1 = mkStats 1 0 0
  /\ results2 = ["skipped"] /\ stats2 = mkStats 0 1 0
  /\ ac_Checksum <$> agency_checksums db2 !! 7%N
     = Some "6c339d157da98349da66c49f052f3f09dd78759e2f0d2df1cae8e51fa1386862".
Proof. vm_compute. repeat split. Qed.

(** C5.  Two runs of the recalculation over the store [twoDays], in which
    title 10 has a content row on each of two days, with nothing imported
    in between.  The query of the agency orders its two rows by the title
    number alone, and both orders of the rows are answers to it.  The first
    run reads the rows as they are stored and answers "created".  The
    second run reads them in the other order: it computes another hash than
    the one stored, answers "updated" and writes the record over, although
    no content has changed. *)
Theorem second_run_updates_unchanged_agency :
  let '(results1, stats1, db1) :=
    CalculateChecksumsHandler (fun _ => []) 9 twoDays in
  let '(results2, stats2, db2) :=
    CalculateChecksumsHandler (fun _ => [1%nat]) 10 db1 in
  title_contents db1 = title_contents twoDays
  /\ titles db1 = titles twoDays
  /\ agency_cfr_references db1 = agency_cfr_references twoDays
  /\ results1 = ["created"] /\ stats1 = mkStats 1 0 0
  /\ results2 = ["updated"] /\ stats2 = mkStats 1 0 0
  /\ ac_ContentHash <$> agency_checksums db1 !! 7%N
     = Some "5dafba5840d219202bb2da2281aa5079b168fa62ef1078df7763e67644634d60"
  /\ ac_ContentHash <$> agency_checksums db2 !! 7%N
     = Some "9083b283610833613229acf3eca26f42169db4eb3b3e75cfcbffc699a52e8399".
Proof. vm_compute. repeat split. Qed.

(** *** The hashed text determines the rows *)

Lemma append_String x a b :
  String.append (String x a) b = String x (String.append a b).
Proof. reflexivity. Qed.

Lemma append_assoc (a b c : string) :
  String.append (String.append a b) c = String.append a (String.append b c).
Proof.
  induction a as [|x a IH]; [reflexivity|].
  rewrite !append_String, IH. reflexivity.
Qed.

Lemma append_inj_l p x y :
  String.append p x = String.append p y -> x = y.
Proof.
  induction p as [|c p IH]; [trivial|].
  rewrite !append_String. intros [= E]. apply IH. exact E.
Qed.

Lemma append_split ch a a' r r' :
  occurs ch a = false -> occurs ch a' = false ->
  String.append a (String ch r) = String.append a' (String ch r') ->
  a = a' /\ r = r'.
Proof.
  revert a'. induction a as [|x a IH]; intros [|y a'] Ha Ha' E;
    rewrite ?append_String in E; cbn [occurs] in Ha, Ha'.
  - injection E as <-. split; reflexivity.
  - injection E as <- _. rewrite Ascii.eqb_refl in Ha'. discriminate.
  - injection E as -> _. rewrite Ascii.eqb_refl in Ha. discriminate.
  - injection E as <- E. apply orb_false_iff in Ha, Ha'.
    destruct (IH a' (proj2 Ha) (proj2 Ha') E) as [<- <-]. split; reflexivity.
Qed.

Lemma digits_no_colon d : occurs ":" (NilEmpty.string_of_uint d) = false.
Proof. induction d; simpl; auto. Qed.

Lemma itoa_no_colon n : occurs ":" (GoNum.itoa n) = false.
Proof.
  unfold GoNum.itoa, NilZero.string_of_int, NilZero.string_of_uint.
  destruct (Z.to_int n) as [d|d]; destruct d; simpl;
    try reflexivity; apply digits_no_colon.
Qed.

Lemma itoa_inj n m : GoNum.itoa n = GoNum.itoa m -> n = m.
Proof.
  unfold GoNum.itoa. intros E.
  apply DecimalZ.to_int_inj.
  assert (Hn : forall z, Z.to_int z <> Decimal.Pos Decimal.Nil
                         /\ Z.to_int z <> Decimal.Neg Decimal.Nil).
  { intros [|p|p]; simpl; split; try discriminate;
      intros [= H]; exact (DecimalPos.Unsigned.to_uint_nonnil p H). }
  pose proof (NilZero.isi (Z.to_int n) (proj1 (Hn n)) (proj2 (Hn n))) as H1.
  pose proof (NilZero.isi (Z.to_int m) (proj1 (Hn m)) (proj2 (Hn m))) as H2.
  rewrite E in H1. congruence.
Qed.

Lemma buildContent_cons r rows :
  buildContent (r :: rows)
  = String.append "TITLE_"
      (String.append (GoNum.itoa (fst r))
         (String ":" (String.append (snd r)
                        (String (ascii_of_nat 10) (buildContent rows))))).
Proof.
  unfold buildContent, line, GoNum.newline. cbn [fold_right].
  rewrite !append_assoc. reflexivity.
Qed.

(** Rows whose checksums hold no newline are read back from the text. *)
Lemma buildContent_inj rows rows' :
  noNewline rows -> noNewline rows' ->
  buildContent rows = buildContent rows' -> rows = rows'.
Proof.
  intros F. revert rows'.
  induction F as [|[n c] rows Hc F IH]; intros [|[n' c'] rows'] F' E.
  - reflexivity.
  - rewrite buildContent_cons in E. discriminate.
  - rewrite buildContent_cons in E. discriminate.
  - rewrite !buildContent_cons in E. cbn [fst snd] in E.
    apply append_inj_l in E.
    apply append_split in E; try apply itoa_no_colon.
    destruct E as [En E]. apply itoa_inj in En. subst n'.
    inversion F' as [|? ? Hc' F'']; subst. simpl in Hc, Hc'.
    apply append_split in E; try assumption.
    destruct E as [<- E]. f_equal. apply IH; assumption.
Qed.

Lemma noNewline_orderByNumber rows : noNewline rows -> noNewline (orderByNumber rows).
Proof.
  unfold noNewline. intros F.
  rewrite (orderByNumber_Permutation rows). exact F.
Qed.

(** *** The batch calculation *)

Lemma flat_map_flat_map {A B C : Type} (f : A -> list B) (g : B -> list C) l :
  flat_map g (flat_map f l) = flat_map (fun x => flat_map g (f x)) l.
Proof.
  induction l as [|x l IH]; simpl; [reflexivity|].
  rewrite flat_map_app, IH. reflexivity.
Qed.

Lemma flat_map_ext_in {A B : Type} (f g : A -> list B) l :
  (forall x, In x l -> f x = g x) -> flat_map f l = flat_map g l.
Proof.
  induction l as [|x l IH]; intros H; simpl; [reflexivity|].
  rewrite (H x) by (left; reflexivity).
  rewrite IH; [reflexivity|]. intros y Hy. apply H. right. exact Hy.
Qed.

(** The rows of the batch query that belong to one of its agencies are the
    rows of the query for that agency. *)
Lemma rowsOfAgency_batchJoinedRows db agencyIDs agencyID :
  In agencyID agencyIDs ->
  rowsOfAgency agencyID (batchJoinedRows db agencyIDs) = joinedRows db agencyID.
Proof.
  intros Hin. unfold rowsOfAgency, batchJoinedRows, joinedRows.
  rewrite flat_map_flat_map. apply flat_map_ext_in. intros tc _.
  rewrite flat_map_flat_map. apply flat_map_ext_in. intros t _.
  rewrite flat_map_flat_map. apply flat_map_ext_in. intros acr _.
  destruct (N.eqb_spec (acr_AgencyID acr) agencyID) as [E|E].
  - assert (Hex : existsb (N.eqb (acr_AgencyID acr)) agencyIDs = true).
    { apply existsb_exists. exists agencyID. split; [exact Hin|].
      apply N.eqb_eq. exact E. }
    rewrite Hex.
    destruct ((tc_TitleID tc =? t_ID t)%N && (acr_TitleID acr =? t_ID t)%N);
      simpl; [|reflexivity].
    destruct (tc_Checksum tc) as [c|]; [|reflexivity].
    destruct (String.eqb c ""); simpl; [reflexivity|].
    rewrite (proj2 (N.eqb_eq _ _) E). reflexivity.
  - rewrite andb_false_r.
    destruct ((tc_TitleID tc =? t_ID t)%N && (acr_TitleID acr =? t_ID t)%N
              && existsb (N.eqb (acr_AgencyID acr)) agencyIDs);
      [|reflexivity].
    destruct (tc_Checksum tc) as [c|]; [|reflexivity].
    destruct (String.eqb c ""); simpl; [reflexivity|].
    rewrite (proj2 (N.eqb_neq _ _) E). reflexivity.
Qed.

Lemma insertByAgencyNumber_Permutation r rows :
  insertByAgencyNumber r rows ≡ₚ r :: rows.
Proof.
  induction rows as [|x rows IH]; simpl; [reflexivity|].
  destruct (agencyNumberLe r x); [reflexivity|].
  rewrite IH. apply perm_swap.
Qed.

Lemma agencyNumberLe_total x y :
  agencyNumberLe x y = false -> agencyNumberLe y x = true.
Proof.
  unfold agencyNumberLe. destruct x as [[a n] c], y as [[b m] d]. simpl.
  destruct (N.ltb_spec a b), (N.eqb_spec a b), (N.ltb_spec b a),
    (N.eqb_spec b a), (Z.leb_spec n m), (Z.leb_spec m n);
    simpl; intros; try reflexivity; try discriminate; lia.
Qed.

Lemma agencyNumberLe_trans x y z :
  agencyNumberLe x y = true -> agencyNumberLe y z = true ->
  agencyNumberLe x z = true.
Proof.
  unfold agencyNumberLe. destruct x as [[a n] c], y as [[b m] d], z as [[e k] f].
  simpl.
  destruct (N.ltb_spec a b), (N.eqb_spec a b), (N.ltb_spec b e),
    (N.eqb_spec b e), (N.ltb_spec a e), (N.eqb_spec a e),
    (Z.leb_spec n m), (Z.leb_spec m k), (Z.leb_spec n k);
    simpl; intros; try reflexivity; try discriminate; lia.
Qed.

Lemma insertByAgencyNumber_sorted r rows :
  StronglySorted byAgencyNumber rows ->
  StronglySorted byAgencyNumber (insertByAgencyNumber r rows).
Proof.
  induction 1 as [|x rows Hs IH Hx]; simpl.
  - repeat constructor.
  - destruct (agencyNumberLe r x) eqn:Hle.
    + constructor; [constructor; assumption|].
      constructor; [exact Hle|].
      eapply Forall_impl; [exact Hx|].
      intros y Hy. eapply agencyNumberLe_trans; eassumption.
    + constructor; [exact IH|].
      rewrite insertByAgencyNumber_Permutation.
      constructor; [apply agencyNumberLe_total; exact Hle | exact Hx].
Qed.

Lemma orderByAgencyNumber_sorted rows :
  StronglySorted byAgencyNumber (orderByAgencyNumber rows).
Proof.
  induction rows as [|r rows IH]; simpl.
  - constructor.
  - apply insertByAgencyNumber_sorted. exact IH.
Qed.

(** Below a row of a later agency no row of the agency is left. *)
Lemma rowsOfAgency_later agencyID x rows :
  (agencyID < fst (fst x))%N ->
  Forall (byAgencyNumber x) rows ->
  rowsOfAgency agencyID rows = [].
Proof.
  intros Hlt F. unfold rowsOfAgency. apply flat_map_nil. intros y Hy.
  rewrite Forall_forall in F. specialize (F y).
  rewrite list_elem_of_In in F. specialize (F Hy).
  unfold byAgencyNumber, agencyNumberLe in F.
  destruct (N.eqb_spec (fst (fst y)) agencyID) as [E|E]; [|reflexivity].
  exfalso.
  destruct (N.ltb_spec (fst (fst x)) (fst (fst y))),
    (N.eqb_spec (fst (fst x)) (fst (fst y))); simpl in F;
    try discriminate; lia.
Qed.

(** Inserting a row among the sorted rows of all agencies inserts it among
    the rows of its own agency. *)
Lemma rowsOfAgency_insert agencyID r rows :
  StronglySorted byAgencyNumber rows ->
  rowsOfAgency agencyID (insertByAgencyNumber r rows)
  = if (fst (fst r) =? agencyID)%N
    then insertByNumber (snd (fst r), snd r) (rowsOfAgency agencyID rows)
    else rowsOfAgency agencyID rows.
Proof.
  induction 1 as [|x rows Hs IH Hx]; cbn [insertByAgencyNumber].
  - unfold rowsOfAgency. simpl.
    destruct (fst (fst r) =? agencyID)%N; reflexivity.
  - destruct (agencyNumberLe r x) eqn:Hle.
    + change (rowsOfAgency agencyID (r :: x :: rows))
        with ((if (fst (fst r) =? agencyID)%N then [(snd (fst r), snd r)] else [])
              ++ rowsOfAgency agencyID (x :: rows)).
      destruct (N.eqb_spec (fst (fst r)) agencyID) as [Er|Er]; [|reflexivity].
      change (rowsOfAgency agencyID (x :: rows))
        with ((if (fst (fst x) =? agencyID)%N then [(snd (fst x), snd x)] else [])
              ++ rowsOfAgency agencyID rows).
      unfold agencyNumberLe in Hle.
      destruct (N.eqb_spec (fst (fst x)) agencyID) as [Ex|Ex].
      * simpl. rewrite Er, Ex, N.ltb_irrefl, N.eqb_refl in Hle. simpl in Hle.
        rewrite Hle. reflexivity.
      * assert (Hlt : (agencyID < fst (fst x))%N).
        { destruct (N.ltb_spec (fst (fst r)) (fst (fst x))),
            (N.eqb_spec (fst (fst r)) (fst (fst x)));
            simpl in Hle; try discriminate; lia. }
        rewrite (rowsOfAgency_later agencyID x rows Hlt Hx). reflexivity.
    + change (rowsOfAgency agencyID (x :: insertByAgencyNumber r rows))
        with ((if (fst (fst x) =? agencyID)%N then [(snd (fst x), snd x)] else [])
              ++ rowsOfAgency agencyID (insertByAgencyNumber r rows)).
      change (rowsOfAgency agencyID (x :: rows))
        with ((if (fst (fst x) =? agencyID)%N then [(snd (fst x), snd x)] else [])
              ++ rowsOfAgency agencyID rows).
      rewrite IH.
      destruct (N.eqb_spec (fst (fst r)) agencyID) as [Er|Er]; [|reflexivity].
      destruct (N.eqb_spec (fst (fst x)) agencyID) as [Ex|Ex]; [|reflexivity].
      unfold agencyNumberLe in Hle.
      rewrite Er, Ex, N.ltb_irrefl, N.eqb_refl in Hle. simpl in Hle.
      simpl. rewrite Hle. reflexivity.
Qed.

Lemma rowsOfAgency_orderByAgencyNumber agencyID rows :
  rowsOfAgency agencyID (orderByAgencyNumber rows)
  = orderByNumber (rowsOfAgency agencyID rows).
Proof.
  induction rows as [|r rows IH]; [reflexivity|].
  cbn [orderByAgencyNumber fold_right].
  rewrite rowsOfAgency_insert by apply orderByAgencyNumber_sorted.
  fold (orderByAgencyNumber rows). rewrite IH.
  change (rowsOfAgency agencyID (r :: rows))
    with ((if (fst (fst r) =? agencyID)%N then [(snd (fst r), snd r)] else [])
          ++ rowsOfAgency agencyID rows).
  destruct (fst (fst r) =? agencyID)%N; reflexivity.
Qed.

Lemma groupByAgency_lookup agencyID rows (m : gmap N (list TitleChecksum)) :
  fold_left (fun m r =>
               <[fst (fst r) :=
                   (match m !! fst (fst r) with Some g => g | None => [] end)
                   ++ [(snd (fst r), snd r)]]> m)
            rows m !! agencyID
  = match rowsOfAgency agencyID rows with
    | [] => m !! agencyID
    | more =>
        Some ((match m !! agencyID with Some g => g | None => [] end) ++ more)
    end.
Proof.
  revert m. induction rows as [|r rows IH]; intros m; [reflexivity|].
  cbn [fold_left]. rewrite IH.
  change (rowsOfAgency agencyID (r :: rows))
    with ((if (fst (fst r) =? agencyID)%N then [(snd (fst r), snd r)] else [])
          ++ rowsOfAgency agencyID rows).
  destruct (N.eqb_spec (fst (fst r)) agencyID) as [E|E].
  - rewrite E, lookup_insert_eq. simpl.
    destruct (rowsOfAgency agencyID rows) as [|x more].
    + reflexivity.
    + rewrite <- app_assoc. reflexivity.
  - rewrite lookup_insert_ne by exact E. reflexivity.
Qed.

Lemma rowsOfAgency_Permutation agencyID rows rows' :
  rows ≡ₚ rows' -> rowsOfAgency agencyID rows ≡ₚ rowsOfAgency agencyID rows'.
Proof. intros Hp. unfold rowsOfAgency. apply Permutation_flat_map. exact Hp. Qed.

(** The batch calculation gives every agency it is asked for a checksum of
    the stored calculation: none when the agency has no qualifying row,
    and otherwise the digest of its lines in ascending order of the title
    numbers, the rows read in some order. *)
Lemma calculateBatchAgencyChecksumsOptimized_lookup o db agencyIDs agencyID :
  In agencyID agencyIDs ->
  exists o',
    calculateBatchAgencyChecksumsOptimized o db agencyIDs !! agencyID
    = match joinedRows db agencyID with
      | [] => None
      | rows => Some (checksumOfRows (readIn o' rows))
      end.
Proof.
  intros Hin.
  set (read := rowsOfAgency agencyID (readIn o (batchJoinedRows db agencyIDs))).
  assert (Hp : joinedRows db agencyID ≡ₚ read).
  { unfold read.
    rewrite <- (rowsOfAgency_batchJoinedRows db agencyIDs agencyID Hin).
    apply rowsOfAgency_Permutation. symmetry. apply readIn_Permutation. }
  destruct (readIn_any _ _ Hp) as [o' Ho']. exists o'.
  unfold calculateBatchAgencyChecksumsOptimized.
  destruct agencyIDs as [|a0 ids]; [destruct Hin|].
  rewrite lookup_omap. unfold groupByAgency.
  rewrite groupByAgency_lookup, lookup_empty.
  rewrite rowsOfAgency_orderByAgencyNumber. fold read.
  unfold checksumOfRows. revert Hp Ho'.
  destruct (joinedRows db agencyID) as [|r rows]; intros Hp Ho'.
  - apply Permutation_nil in Hp. rewrite Hp. reflexivity.
  - rewrite Ho'. destruct (orderByNumber read) as [|x sorted] eqn:Hs.
    + apply orderByNumber_nil in Hs. rewrite Hs in Hp.
      apply Permutation_nil_r in Hp. discriminate.
    + reflexivity.
Qed.

(** C1.  In the store [twoDays] one agency references title 10, which has
    a content row on each of two days, with two checksums.  The queries
    order their rows by the title number alone, so both orders of the two
    rows are answers, and the rows are hashed in the order in which the
    store hands them over: the same pairs read in the other order give the
    agency another checksum, in the stored calculation and in the batch
    one. *)
Theorem agency_checksum_depends_on_row_order :
  let c1 := ContentImport.calculateChecksum "<a>one</a>" in
  let c2 := ContentImport.calculateChecksum "<a>one two</a>" in
  let checksum o :=
    ac_Checksum <$>
      agency_checksums
        (snd (calculateAndStoreAgencyChecksum o 7 9 twoDays)) !! 7%N in
  let batch o :=
    calculateBatchAgencyChecksumsOptimized o twoDays [7%N] !! 7%N in
  joinedRows twoDays 7 = [(10, c1); (10, c2)]
  /\ titleChecksums [] twoDays 7 = [(10, c1); (10, c2)]
  /\ titleChecksums [1%nat] twoDays 7 = [(10, c2); (10, c1)]
  /\ StronglySorted byNumber (titleChecksums [] twoDays 7)
  /\ StronglySorted byNumber (titleChecksums [1%nat] twoDays 7)
  /\ titleChecksums [] twoDays 7 ≡ₚ titleChecksums [1%nat] twoDays 7
  /\ checksum []
     = Some "5dafba5840d219202bb2da2281aa5079b168fa62ef1078df7763e67644634d60"
  /\ checksum [1%nat]
     = Some "9083b283610833613229acf3eca26f42169db4eb3b3e75cfcbffc699a52e8399"
  /\ batch [] = checksum []
  /\ batch [1%nat] = checksum [1%nat].
Proof.
  cbv zeta. repeat split; try (vm_compute; reflexivity);
    try apply titleChecksums_sorted.
  rewrite !titleChecksums_Permutation. reflexivity.
Qed.

(** The checksum of an agency is the SHA-256 digest, in hexadecimal, of the
    lines [TITLE_<number>:<checksum>] of its rows taken in ascending order
    of their title numbers, rows of one number in the order in which they
    are read; the calculation stores it for an agency with rows, and the
    batch calculation returns it for some read order.  For rows that give
    every title number one checksum the checksum is the same whatever the
    order in which the rows are read.  For such rows, with checksums that
    hold no newline, the hashed text changes if and only if the rows
    change; the checksum changes only if they do, and it changes whenever
    they do unless SHA-256 gives the two texts one digest. *)
Lemma agency_checksum_of_sorted_lines (rows rows' : list TitleChecksum) :
  (StronglySorted byNumber (orderByNumber rows)
   /\ orderByNumber rows ≡ₚ rows
   /\ checksumOfRows rows
      = Sha256.sum256_hex
          (fold_right (fun tc rest => String.append (line tc) rest) ""
                      (orderByNumber rows)))
  /\ (forall o db agencyID now,
        joinedRows db agencyID = rows -> rows <> [] ->
        let result := calculateAndStoreAgencyChecksum o agencyID now db in
        exists record,
          agency_checksums (snd result) !! agencyID = Some record
          /\ ac_ContentHash record = checksumOfRows (readIn o rows)
          /\ (fst result <> "skipped" ->
              ac_Checksum record = checksumOfRows (readIn o rows)))
  /\ (forall o db agencyIDs agencyID,
        In agencyID agencyIDs ->
        joinedRows db agencyID = rows -> rows <> [] ->
        exists o',
          calculateBatchAgencyChecksumsOptimized o db agencyIDs !! agencyID
          = Some (checksumOfRows (readIn o' rows)))
  /\ (oneChecksumPerTitle rows -> rows ≡ₚ rows' ->
      checksumOfRows rows = checksumOfRows rows')
  /\ (oneChecksumPerTitle rows -> noNewline rows -> noNewline rows' ->
      (buildContent (orderByNumber rows) = buildContent (orderByNumber rows')
       <-> rows ≡ₚ rows')
      /\ (checksumOfRows rows <> checksumOfRows rows' -> ~ rows ≡ₚ rows')
      /\ ((Sha256.sum256_hex (buildContent (orderByNumber rows))
           = Sha256.sum256_hex (buildContent (orderByNumber rows')) ->
           buildContent (orderByNumber rows) = buildContent (orderByNumber rows')) ->
          (checksumOfRows rows = checksumOfRows rows' <-> rows ≡ₚ rows'))).
Proof.
  split; [|split; [|split; [|split]]].
  - split; [apply orderByNumber_sorted | split].
    + apply orderByNumber_Permutation.
    + reflexivity.
  - intros o db agencyID now Hrows Hne. cbv zeta.
    unfold checksumOfRows. rewrite <- Hrows.
    fold (titleChecksums o db agencyID).
    assert (Hne' : titleChecksums o db agencyID <> []).
    { intros E. apply Hne. rewrite <- Hrows.
      apply (titleChecksums_nil o). exact E. }
    unfold calculateAndStoreAgencyChecksum.
    destruct (titleChecksums o db agencyID) as [|r rs] eqn:Hr; [congruence|].
    destruct (agency_checksums db !! agencyID) as [existing|] eqn:Hrec.
    + destruct (String.eqb_spec (ac_ContentHash existing)
                  (Sha256.sum256_hex (buildContent (r :: rs)))) as [E|E].
      * exists existing. cbn [fst snd].
        split; [assumption | split; [exact E | congruence]].
      * eexists. cbn [fst snd agency_checksums with_agency_checksums].
        split; [apply lookup_insert_eq | split; reflexivity].
    + eexists. cbn [fst snd agency_checksums with_agency_checksums].
      split; [apply lookup_insert_eq | split; reflexivity].
  - intros o db agencyIDs agencyID Hin Hrows Hne.
    destruct (calculateBatchAgencyChecksumsOptimized_lookup o db agencyIDs
                agencyID Hin) as [o' Ho'].
    exists o'. rewrite Ho', Hrows. destruct rows; [congruence | reflexivity].
  - apply checksumOfRows_order_irrelevant.
  - intros Hone Hnl Hnl'.
    assert (Htext : buildContent (orderByNumber rows)
                    = buildContent (orderByNumber rows') <-> rows ≡ₚ rows').
    { split.
      - intros E. apply buildContent_inj in E;
          try (apply noNewline_orderByNumber; assumption).
        rewrite <- (orderByNumber_Permutation rows), E.
        apply orderByNumber_Permutation.
      - intros Hp. rewrite (orderByNumber_order_irrelevant rows rows' Hone Hp).
        reflexivity. }
    split; [exact Htext | split].
    + intros Hdiff Hp. apply Hdiff.
      apply checksumOfRows_order_irrelevant; assumption.
    + intros Hcoll. unfold checksumOfRows. split.
      * intros E. apply Htext. apply Hcoll. exact E.
      * intros Hp. apply Htext in Hp. rewrite Hp. reflexivity.
Qed.

End ChecksumFacts.

(** ** The historical snapshot service *)

Section FindOrCreateLoop.
Import Store.
Context {A X : Type}.
Variables (skip : X -> bool) (key : X -> A -> bool).

Lemma written_app table more x :
  written skip key table x -> written skip key (table ++ more) x.
Proof.
  intros [Hs | [r Hr]]; [left; exact Hs | right].
  exists r. apply find_app_Some. exact Hr.
Qed.

Lemma findOrCreateStep_extends row table x :
  exists more, findOrCreateStep skip key row table x = table ++ more.
Proof.
  unfold findOrCreateStep. destruct (skip x).
  - exists []. rewrite app_nil_r. reflexivity.
  - apply FirstOrCreate_extends.
Qed.

Lemma findOrCreateStep_written row table x :
  key x (row x) = true ->
  written skip key (findOrCreateStep skip key row table x) x.
Proof.
  intros Hrow. unfold findOrCreateStep, written.
  destruct (skip x); [left; reflexivity | right].
  apply FirstOrCreate_finds. exact Hrow.
Qed.

Lemma findOrCreateStep_stable row table x :
  written skip key table x -> findOrCreateStep skip key row table x = table.
Proof.
  unfold findOrCreateStep. intros [Hs | [r Hr]].
  - rewrite Hs. reflexivity.
  - destruct (skip x); [reflexivity|].
    rewrite (FirstOrCreate_found _ _ r _ Hr). reflexivity.
Qed.

Lemma loop_extends row xs table :
  exists more, fold_left (findOrCreateStep skip key row) xs table = table ++ more.
Proof.
  revert table. induction xs as [|x xs IH]; intros table; simpl.
  - exists []. rewrite app_nil_r. reflexivity.
  - destruct (findOrCreateStep_extends row table x) as [m1 E1].
    destruct (IH (findOrCreateStep skip key row table x)) as [m2 E2].
    exists (m1 ++ m2). rewrite E2, E1, app_assoc. reflexivity.
Qed.

Lemma loop_keeps_written row xs table y :
  written skip key table y ->
  written skip key (fold_left (findOrCreateStep skip key row) xs table) y.
Proof.
  intros H. destruct (loop_extends row xs table) as [more ->].
  apply written_app. exact H.
Qed.

(** After the loop every item finds its row. *)
Lemma loop_written row xs table :
  (forall x, key x (row x) = true) ->
  Forall (written skip key (fold_left (findOrCreateStep skip key row) xs table)) xs.
Proof.
  intros Hrow. revert table. induction xs as [|x xs IH]; intros table; simpl.
  - constructor.
  - constructor; [|apply IH].
    apply loop_keeps_written. apply findOrCreateStep_written. apply Hrow.
Qed.

(** A loop whose items all find their rows writes nothing. *)
Lemma loop_stable row xs table :
  Forall (written skip key table) xs ->
  fold_left (findOrCreateStep skip key row) xs table = table.
Proof.
  induction 1 as [|x xs Hx F IH]; simpl; [reflexivity|].
  rewrite findOrCreateStep_stable by exact Hx. exact IH.
Qed.

End FindOrCreateLoop.

Section HistoricalFacts.
Import Store Historical.

Lemma fold_left_map {A B C : Type} (f : A -> B -> A) (g : C -> B) l a :
  fold_left f (map g l) a = fold_left (fun a x => f a (g x)) l a.
Proof. revert a. induction l as [|x l IH]; intros a; simpl; auto. Qed.

(** The three loops of [CaptureSnapshot] are one loop over its writes. *)
Lemma CaptureSnapshot_writes now db snapshotDate :
  latestContentDate db = Some snapshotDate ->
  CaptureSnapshot now db
  = (None,
     with_historical_snapshots
       (fold_left (findOrCreateStep writeSkipped (writeKey snapshotDate)
                                    (writeRow snapshotDate now))
                  (writes snapshotDate db) (historical_snapshots db))
       db).
Proof.
  intros Hd. unfold CaptureSnapshot. rewrite Hd. f_equal.
  unfold writes. cbn [fold_left]. rewrite fold_left_app, !fold_left_map.
  reflexivity.
Qed.

Lemma writeKey_writeRow snapshotDate now w :
  writeKey snapshotDate w (writeRow snapshotDate now w) = true.
Proof.
  destruct w; simpl; unfold overallKey, agencyKey, titleKey; simpl;
    rewrite Z.eqb_refl, ?N.eqb_refl; reflexivity.
Qed.

Lemma CaptureSnapshot_content now db :
  title_contents (snd (CaptureSnapshot now db)) = title_contents db
  /\ agencies (snd (CaptureSnapshot now db)) = agencies db
  /\ agency_cfr_references (snd (CaptureSnapshot now db))
     = agency_cfr_references db.
Proof.
  unfold CaptureSnapshot. destruct (latestContentDate db); repeat split.
Qed.

(** A capture over two titles with content and one agency that references
    both: one overall row, one row for the agency and one for each title;
    a second capture adds none. *)
Example CaptureSnapshot_four_rows :
  let db := mkDB [mkAgency 7 "Office of Examples" "office-examples" None;
                  mkAgency 8 "Office of Nothing" "office-nothing" None]
                 [mkTitle 1 10 "Energy" false; mkTitle 2 12 "Banks" false]
                 [mkReference 7 1 None; mkReference 7 2 (Some "I")]
                 [mkTitleContent 1 86400 "<a>one</a>" (Some 1) (Some "c1") 86405;
                  mkTitleContent 2 86400 "<a>one two</a>" (Some 2) (Some "c2") 86405;
                  mkTitleContent 1 0 "<a>old text here</a>" (Some 3) (Some "c0") 5]
                 [] ∅ in
  let db1 := snd (CaptureSnapshot 90000 db) in
  let db2 := snd (CaptureSnapshot 90001 db1) in
  historical_snapshots db1
  = [mkSnapshot 86400 None None (Some 3) None 90000;
     mkSnapshot 86400 (Some 7%N) None (Some 3) None 90000;
     mkSnapshot 86400 None (Some 1%N) (Some 1) (Some "c1") 90000;
     mkSnapshot 86400 None (Some 2%N) (Some 2) (Some "c2") 90000]
  /\ historical_snapshots db2 = historical_snapshots db1.
Proof. vm_compute. split; reflexivity. Qed.

(** C6.  A second [CaptureSnapshot] on the store that a first one left, with
    no content imported in between, finds the row of every one of its
    find-or-create calls (overall, per agency and per title, each under the
    date and its agency or title or neither): it works on the same content
    date and leaves the store as it was, so the snapshot table has the
    same rows and the same number of rows. *)
Theorem CaptureSnapshot_rerun_is_noop (now now' : Z) (db : DB) :
  let db1 := snd (CaptureSnapshot now db) in
  let db2 := snd (CaptureSnapshot now' db1) in
  latestContentDate db1 = latestContentDate db
  /\ db2 = db1
  /\ length (historical_snapshots db2) = length (historical_snapshots db1).
Proof.
  cbv zeta.
  assert (Hdate : latestContentDate (snd (CaptureSnapshot now db))
                  = latestContentDate db).
  { unfold latestContentDate.
    rewrite (proj1 (CaptureSnapshot_content now db)). reflexivity. }
  assert (Hsame : snd (CaptureSnapshot now' (snd (CaptureSnapshot now db)))
                  = snd (CaptureSnapshot now db)).
  { destruct (latestContentDate db) as [d|] eqn:Hd.
    - rewrite (CaptureSnapshot_writes now' _ d Hdate).
      rewrite (CaptureSnapshot_writes now db d Hd). cbn [snd].
      set (table := fold_left _ (writes d db) (historical_snapshots db)).
      change (writes d (with_historical_snapshots table db)) with (writes d db).
      change (historical_snapshots (with_historical_snapshots table db))
        with table.
      rewrite loop_stable.
      + reflexivity.
      + apply loop_written. intros w. apply writeKey_writeRow.
    - clear Hdate. unfold CaptureSnapshot. rewrite Hd. simpl.
      rewrite Hd. reflexivity. }
  rewrite Hsame. repeat split. exact Hdate.
Qed.

End HistoricalFacts.

(** ** The trend read path *)

Section TrendFacts.
Import Store Trend.

Lemma insertByDate_Permutation r rows : insertByDate r rows ≡ₚ r :: rows.
Proof.
  induction rows as [|x rows IH]; simpl; [reflexivity|].
  destruct (fst r <=? fst x); [reflexivity|].
  rewrite IH. apply perm_swap.
Qed.

Lemma orderByDate_Permutation rows : orderByDate rows ≡ₚ rows.
Proof.
  induction rows as [|r rows IH]; simpl; [reflexivity|].
  rewrite insertByDate_Permutation, IH. reflexivity.
Qed.

Lemma insertByDate_sorted r rows :
  StronglySorted byDate rows -> StronglySorted byDate (insertByDate r rows).
Proof.
  induction 1 as [|x rows Hs IH Hx]; simpl.
  - repeat constructor.
  - destruct (Z.leb_spec (fst r) (fst x)) as [Hle|Hgt].
    + constructor; [constructor; assumption|].
      constructor; [exact Hle|].
      eapply Forall_impl; [exact Hx|].
      unfold byDate. intros y Hy. lia.
    + constructor; [exact IH|].
      rewrite insertByDate_Permutation.
      constructor; [unfold byDate; lia | exact Hx].
Qed.

Lemma orderByDate_sorted rows : StronglySorted byDate (orderByDate rows).
Proof.
  induction rows as [|r rows IH]; simpl.
  - constructor.
  - apply insertByDate_sorted. exact IH.
Qed.

Lemma truncateDay_div t : truncateDay t = day * (t / day).
Proof.
  unfold truncateDay. pose proof (Z.div_mod t day). unfold day in *. lia.
Qed.

Lemma truncateDay_mono x y : x <= y -> truncateDay x <= truncateDay y.
Proof.
  intros H. rewrite !truncateDay_div.
  pose proof (Z.div_le_mono x y day). unfold day in *. lia.
Qed.

(** A time at midnight is the day it names. *)
Lemma truncateDay_midnight t : t mod day = 0 -> truncateDay t = t.
Proof. unfold truncateDay. lia. Qed.

Lemma historyFrom_dates prev snapshots :
  map hp_Date (historyFrom prev snapshots)
  = map (fun x => truncateDay (fst x)) snapshots.
Proof.
  revert prev. induction snapshots as [|x rows IH]; intros prev; simpl.
  - reflexivity.
  - rewrite IH. reflexivity.
Qed.

Lemma historyFrom_words prev snapshots :
  map hp_WordCount (historyFrom prev snapshots) = map snd snapshots.
Proof.
  revert prev. induction snapshots as [|x rows IH]; intros prev; simpl.
  - reflexivity.
  - rewrite IH. reflexivity.
Qed.

Lemma historyFrom_sorted snapshots :
  StronglySorted Z.le (map hp_Date (historyFrom None (orderByDate snapshots))).
Proof.
  rewrite historyFrom_dates.
  induction (orderByDate_sorted snapshots) as [|x rows Hs IH Hx]; simpl.
  - constructor.
  - constructor; [exact IH|].
    apply Forall_map. eapply Forall_impl; [exact Hx|].
    intros y Hy. apply truncateDay_mono. exact Hy.
Qed.

Lemma historyFrom_first prev snapshots p :
  historyFrom prev snapshots !! 0%nat = Some p ->
  hp_ChangePercent p
  = changePercent prev (hp_Date p, hp_WordCount p).
Proof.
  destruct snapshots as [|[d w] rows]; simpl; [discriminate|].
  intros [= <-]. reflexivity.
Qed.

Lemma historyFrom_next prev snapshots i p q :
  historyFrom prev snapshots !! i = Some p ->
  historyFrom prev snapshots !! S i = Some q ->
  hp_ChangePercent q = changeAgainst p q.
Proof.
  revert prev i. induction snapshots as [|[d w] rows IH]; intros prev i Hp Hq.
  - discriminate.
  - simpl in Hp, Hq. destruct i as [|i].
    + injection Hp as <-. simpl in Hq.
      apply historyFrom_first in Hq. rewrite Hq. reflexivity.
    + simpl in Hp. apply (IH (Some (d, w)) i Hp Hq).
Qed.

Lemma history_points snapshots :
  let history := historyFrom None (orderByDate snapshots) in
  StronglySorted Z.le (map hp_Date history)
  /\ (forall p, history !! 0%nat = Some p -> hp_ChangePercent p = 0%float)
  /\ (forall i p q,
        history !! i = Some p -> history !! S i = Some q ->
        hp_ChangePercent q = changeAgainst p q).
Proof.
  cbv zeta. split; [apply historyFrom_sorted | split].
  - intros p Hp. apply historyFrom_first in Hp. exact Hp.
  - intros i p q. apply historyFrom_next.
Qed.

(** C9.  The points of the overall history and of the history of an agency
    come in ascending order of their dates.  The change percent of the
    first point is 0; the change percent of every other point is, when the
    word count of the point before it is positive, the difference of the
    two word counts divided by the word count of the point before and
    multiplied by 100, computed in doubles, and 0 otherwise, so also when
    that word count is zero.  For overall snapshots of 100, 150 and 120
    words on three consecutive days the change percents are 0, 50 and
    -20. *)
Theorem history_change_percent
    (agencySlug : string) (startDate endDate : Z) (db : DB) :
  let holds (history : list HistoricalPoint) :=
    StronglySorted Z.le (map hp_Date history)
    /\ (forall p, history !! 0%nat = Some p -> hp_ChangePercent p = 0%float)
    /\ (forall i p q,
          history !! i = Some p -> history !! S i = Some q ->
          hp_ChangePercent q
          = if 0 <? hp_WordCount p
            then (GoNum.float64_of_int
                    (GoNum.sub64 (hp_WordCount q) (hp_WordCount p))
                  / GoNum.float64_of_int (hp_WordCount p) * 100)%float
            else 0%float) in
  holds (getOverallHistory startDate endDate db)
  /\ holds (getAgencyHistory agencySlug startDate endDate db)
  /\ getOverallHistory 0 (2 * day) threeDays
     = [mkPoint 0 100 0%float; mkPoint day 150 50%float;
        mkPoint (2 * day) 120 (-20)%float]
  /\ getAgencyHistory "office-examples" 0 (2 * day) threeDays
     = [mkPoint day 90 0%float;
        mkPoint (2 * day) 45 (-50)%float].
Proof.
  cbv zeta. split; [|split; [|split; vm_compute; reflexivity]].
  - apply history_points.
  - apply history_points.
Qed.

Lemma history_change_percent_witness :
  let history := getOverallHistory 0 (2 * day) threeDays in
  history !! 1%nat = Some (mkPoint day 150 50%float)
  /\ history !! 2%nat = Some (mkPoint (2 * day) 120 (-20)%float)
  /\ (-20)%float
     = (GoNum.float64_of_int (GoNum.sub64 120 150)
        / GoNum.float64_of_int 150 * 100)%float.
Proof.
  cbv zeta. split; [vm_compute; reflexivity | split; [vm_compute; reflexivity|]].
  apply (proj2 (proj2 (proj1 (history_change_percent "" 0 (2 * day) threeDays)))
           1%nat (mkPoint day 150 50%float) (mkPoint (2 * day) 120 (-20)%float));
    vm_compute; reflexivity.
Defined.

End TrendFacts.


(* ================================================================= *)
(** * Further properties of the code *)

(** ** The content downloader with any strategies *)

Section DownloaderMore.
Import Downloader.

(** X1.  Whatever strategies a downloader holds: with none it returns no
    content and no error; the content of the first strategy that succeeds
    is returned, after every strategy before it was called and failed, and
    no strategy after it is called; when every strategy fails each is
    called once, in order, and the error of the last is returned with no
    content. *)
Theorem downloadTitleContent_any_strategies
    (cd : ContentDownloader) (titleNumber : Z) :
  (strategies cd = [] ->
   downloadTitleContent cd titleNumber = (("", None), []))
  /\ (forall before st after content,
        strategies cd = before ++ st :: after ->
        Forall (fails titleNumber) before ->
        DownloadTitleContent st titleNumber = (content, None) ->
        fst (downloadTitleContent cd titleNumber) = (content, None)
        /\ attempted (snd (downloadTitleContent cd titleNumber))
           = map GetStrategyName (before ++ [st]))
  /\ (forall sts st err,
        strategies cd = sts ++ [st] ->
        Forall (fails titleNumber) sts ->
        failsWith titleNumber st err ->
        fst (downloadTitleContent cd titleNumber) = ("", Some err)
        /\ attempted (snd (downloadTitleContent cd titleNumber))
           = map GetStrategyName (sts ++ [st])).
Proof.
  unfold downloadTitleContent. split; [|split].
  - intros ->. reflexivity.
  - intros before st after content -> F Hst.
    pose proof (tryStrategies_first_success before st after titleNumber
                  content None F Hst) as H.
    destruct (tryStrategies (before ++ st :: after) titleNumber None) as [r log].
    exact H.
  - intros sts st err -> F Hst.
    pose proof (tryStrategies_all_fail sts st titleNumber err None F Hst) as H.
    destruct (tryStrategies (sts ++ [st]) titleNumber None) as [r log].
    exact H.
Qed.

Lemma downloadTitleContent_any_strategies_witness :
  let down := mkStrategy "Mirror" (fun _ => ("", Some "mirror is down")) in
  let up := mkStrategy "Archive" (fun n => (GoNum.itoa n, None)) in
  let cd := mkDownloader [down; up; down] in
  fst (downloadTitleContent cd 7) = ("7", None)
  /\ attempted (snd (downloadTitleContent cd 7)) = ["Mirror"; "Archive"].
Proof.
  cbv zeta.
  apply (proj1 (proj2 (downloadTitleContent_any_strategies _ 7))
           [mkStrategy "Mirror" (fun _ => ("", Some "mirror is down"))]
           (mkStrategy "Archive" (fun n => (GoNum.itoa n, None)))
           [mkStrategy "Mirror" (fun _ => ("", Some "mirror is down"))]).
  - reflexivity.
  - constructor; [|constructor]. exists "mirror is down". reflexivity.
  - reflexivity.
Defined.

End DownloaderMore.


(** ** The content import worker *)

Section ContentImportMore.
Import Store ContentImport.

(** X2.  The worker keeps the content table at one row for a title and a
    day at most: when no title and day has two rows before a title is
    processed, none has two after; the other tables are left as they were,
    and a failed download leaves the whole store as it was. *)
Theorem downloadAndProcessTitle_keeps_one_row
    (cd : Downloader.ContentDownloader) (title : Title) (now : Z) (db : DB) :
  (forall t d, (length (rowsOf t d (title_contents db)) <= 1)%nat) ->
  let db' := downloadAndProcessTitle cd title now db in
  (forall t d, (length (rowsOf t d (title_contents db')) <= 1)%nat)
  /\ (exists more, title_contents db' = title_contents db ++ more
                   /\ (length more <= 1)%nat)
  /\ titles db' = titles db /\ agencies db' = agencies db
  /\ agency_cfr_references db' = agency_cfr_references db
  /\ historical_snapshots db' = historical_snapshots db
  /\ agency_checksums db' = agency_checksums db
  /\ (forall err,
        snd (fst (Downloader.downloadTitleContent cd (t_Number title))) = Some err ->
        db' = db).
Proof.
  intros Hone. cbv zeta. split; [|split].
  - apply downloadAndProcessTitle_one_row. exact Hone.
  - unfold downloadAndProcessTitle.
    destruct (fst (Downloader.downloadTitleContent cd (t_Number title)))
      as [content [err|]].
    + exists []. rewrite app_nil_r. split; [reflexivity | simpl; lia].
    + cbn [title_contents with_title_contents]. unfold FirstOrCreate.
      destruct (find _ (title_contents db)); cbn [snd].
      * exists []. rewrite app_nil_r. split; [reflexivity | simpl; lia].
      * eexists. split; [reflexivity | simpl; lia].
  - unfold downloadAndProcessTitle.
    destruct (fst (Downloader.downloadTitleContent cd (t_Number title)))
      as [content [err|]]; repeat split; try discriminate.
Qed.

Lemma downloadAndProcessTitle_keeps_one_row_witness :
  let title := mkTitle 1 10 "Energy" false in
  let db := mkDB [] [title] []
                 [mkTitleContent 1 0 "<a>old</a>" (Some 1) (Some "c0") 5] [] ∅ in
  let cd := Downloader.NewContentDownloader
              (fun _ => ("<a>one</a>", None)) (fun _ _ => ("", Some "not called")) in
  (length (rowsOf 1 86400 (title_contents
                             (downloadAndProcessTitle cd title 90000 db))) <= 1)%nat.
Proof.
  cbv zeta.
  apply (downloadAndProcessTitle_keeps_one_row _ _ 90000).
  intros t d. unfold rowsOf. simpl.
  destruct (sameTitleAndDate t d _); simpl; lia.
Defined.

End ContentImportMore.

(** ** The snapshot table *)

Section SnapshotTableFacts.
Import Store Historical SnapshotKeys.

Lemma eqb_opt_true x y : eqb_opt x y = true <-> x = Some y.
Proof.
  destruct x as [v|]; simpl; [|split; discriminate].
  rewrite N.eqb_eq. split; congruence.
Qed.

Lemma isNull_true {A : Type} (x : option A) : isNull x = true <-> x = None.
Proof. destruct x; simpl; split; congruence. Qed.

(** The conditions of a write hold of the rows with the key of its row. *)
Lemma writeKey_snapshotKey snapshotDate now w row :
  writeKey snapshotDate w row = true
  <-> snapshotKey row = snapshotKey (writeRow snapshotDate now w).
Proof.
  unfold snapshotKey.
  destruct w; simpl; unfold overallKey, agencyKey, titleKey;
    rewrite !andb_true_iff, Z.eqb_eq, ?isNull_true, ?eqb_opt_true;
    split; [intros [[-> ->] ->]; reflexivity | intros [= -> -> ->]; auto
           | intros [[-> ->] ->]; reflexivity | intros [= -> -> ->]; auto
           | intros [[-> ->] ->]; reflexivity | intros [= -> -> ->]; auto].
Qed.

Lemma find_none_key {A K : Type} (cond : A -> bool) (key : A -> K) (k : K) table :
  (forall r, cond r = true <-> key r = k) ->
  find cond table = None -> ~ In k (map key table).
Proof.
  intros Hk Hfind Hin. apply in_map_iff in Hin. destruct Hin as [r [Hr Hin]].
  pose proof (find_none cond table Hfind r Hin) as Hf.
  apply Hk in Hr. congruence.
Qed.

Lemma loop_keeps_keys snapshotDate now ws table :
  NoDup (map snapshotKey table) ->
  NoDup
    (map snapshotKey
         (fold_left (findOrCreateStep writeSkipped (writeKey snapshotDate)
                                      (writeRow snapshotDate now)) ws table)).
Proof.
  revert table. induction ws as [|w ws IH]; intros table Hnd; simpl; [exact Hnd|].
  apply IH. unfold findOrCreateStep. destruct (writeSkipped w); [exact Hnd|].
  unfold FirstOrCreate.
  destruct (find (writeKey snapshotDate w) table) eqn:Hfind; simpl; [exact Hnd|].
  rewrite map_app. simpl.
  apply NoDup_app. repeat split.
  - exact Hnd.
  - intros k Hk Hk'. apply list_elem_of_In in Hk, Hk'. simpl in Hk'.
    destruct Hk' as [<- | []].
    revert Hk.
    apply (find_none_key (writeKey snapshotDate w) snapshotKey).
    + intros r. apply writeKey_snapshotKey.
    + exact Hfind.
  - apply NoDup_singleton.
Qed.

(** A loop whose items find no row, neither in the table nor among the
    rows of the items before them, appends the row of every item that it
    does not pass over. *)
Lemma loop_appends {A X : Type} (skip : X -> bool) (key : X -> A -> bool)
    (row : X -> A) xs table :
  (forall x r, In x xs -> In r table -> key x r = false) ->
  ForallOrdPairs (fun x y => key y (row x) = false) xs ->
  fold_left (findOrCreateStep skip key row) xs table
  = table ++ map row (List.filter (fun x => negb (skip x)) xs).
Proof.
  revert table. induction xs as [|x xs IH]; intros table Habs Hpair; simpl.
  - rewrite app_nil_r. reflexivity.
  - inversion Hpair as [|? ? Hx Hrest]; subst.
    unfold findOrCreateStep at 2. destruct (skip x) eqn:Hs; simpl.
    + apply IH; [|exact Hrest].
      intros y r Hy Hr. apply Habs; [right; exact Hy | exact Hr].
    + assert (Hfind : find (key x) table = None).
      { destruct (find (key x) table) as [r|] eqn:E; [|reflexivity].
        apply find_some in E. destruct E as [Hin Hk].
        rewrite (Habs x r (or_introl eq_refl) Hin) in Hk. discriminate. }
      rewrite (FirstOrCreate_created _ _ _ Hfind). cbn [snd].
      rewrite IH; [rewrite <- app_assoc; reflexivity | | exact Hrest].
      intros y r Hy Hr. apply in_app_or in Hr. destruct Hr as [Hr | [<- | []]].
      * apply Habs; [right; exact Hy | exact Hr].
      * rewrite Forall_forall in Hx. apply Hx. apply list_elem_of_In. exact Hy.
Qed.

(** Every row that a loop appends is the row of one of its items. *)
Lemma loop_rows_from {A X : Type} (skip : X -> bool) (key : X -> A -> bool)
    (row : X -> A) xs table :
  exists more,
    fold_left (findOrCreateStep skip key row) xs table = table ++ more
    /\ Forall (fun r => exists x, In x xs /\ r = row x) more.
Proof.
  revert table. induction xs as [|x xs IH]; intros table; simpl.
  - exists []. rewrite app_nil_r. split; [reflexivity | constructor].
  - assert (Hweak : forall more,
              Forall (fun r => exists y, In y xs /\ r = row y) more ->
              Forall (fun r => exists y, (x = y \/ In y xs) /\ r = row y) more).
    { intros more F. eapply Forall_impl; [exact F|]. intros r [y [Hy ->]]. eauto. }
    unfold findOrCreateStep at 2. destruct (skip x).
    + destruct (IH table) as [more [E F]]. exists more. split; [exact E|].
      apply Hweak. exact F.
    + unfold FirstOrCreate. destruct (find (key x) table); cbn [snd].
      * destruct (IH table) as [more [E F]]. exists more. split; [exact E|].
        apply Hweak. exact F.
      * destruct (IH (table ++ [row x])) as [more [E F]].
        exists (row x :: more). rewrite E, <- app_assoc. split; [reflexivity|].
        constructor; [eauto|]. apply Hweak. exact F.
Qed.

Lemma filter_none {A : Type} (f : A -> bool) l :
  (forall x, In x l -> f x = false) -> List.filter f l = [].
Proof.
  induction l as [|a l IH]; intros H; simpl; [reflexivity|].
  rewrite (H a (or_introl eq_refl)). apply IH. intros x Hx. apply H. right. exact Hx.
Qed.

Lemma filter_all {A : Type} (f : A -> bool) l :
  (forall x, In x l -> f x = true) -> List.filter f l = l.
Proof.
  induction l as [|a l IH]; intros H; simpl; [reflexivity|].
  rewrite (H a (or_introl eq_refl)). f_equal. apply IH.
  intros x Hx. apply H. right. exact Hx.
Qed.

Lemma words_of_title_rows snapshotDate now tcs :
  sumZ (map snapshotWords
            (map (fun tc => writeRow snapshotDate now (WriteTitle tc))
                 (List.filter (fun tc => negb (noWords tc)) tcs)))
  = sumZ (map wordsOf tcs).
Proof.
  induction tcs as [|tc tcs IH]; [reflexivity|].
  cbn [List.filter map]. unfold sumZ in *.
  assert (Hw : noWords tc = true -> wordsOf tc = 0).
  { unfold noWords, wordsOf. destruct (tc_WordCount tc) as [n|]; [|reflexivity].
    intros H. apply Z.eqb_eq in H. exact H. }
  destruct (noWords tc) eqn:Hn; cbn [negb map fold_right].
  - rewrite (Hw eq_refl), IH. reflexivity.
  - rewrite IH. reflexivity.
Qed.

Lemma titles_ordered_pairs snapshotDate now tcs :
  NoDup (map tc_TitleID tcs) ->
  ForallOrdPairs
    (fun x y => writeKey snapshotDate (WriteTitle y)
                  (writeRow snapshotDate now (WriteTitle x)) = false)
    tcs.
Proof.
  induction tcs as [|tc tcs IH]; intros Hnd; simpl; constructor.
  - simpl in Hnd. apply NoDup_cons in Hnd. destruct Hnd as [Hnotin _].
    apply Forall_forall. intros y Hy. simpl. unfold titleKey. simpl.
    destruct (N.eqb_spec (tc_TitleID tc) (tc_TitleID y)) as [E|E].
    + exfalso. apply Hnotin. rewrite E. apply (list_elem_of_fmap_2 tc_TitleID).
      exact Hy.
    + rewrite andb_false_r. reflexivity.
  - apply IH. simpl in Hnd. apply NoDup_cons in Hnd. apply Hnd.
Qed.

(** X5.  On the first capture for a content date, with one content row a
    title on that date, the overall snapshot of the date is one row, its
    word count is the sum of the word counts of the content rows of the
    date, and the word counts of the snapshots of the titles on that date
    add up to it. *)
Theorem CaptureSnapshot_overall_is_sum_of_titles
    (now snapshotDate : Z) (db : DB) :
  latestContentDate db = Some snapshotDate ->
  (forall r, In r (historical_snapshots db) -> hs_SnapshotDate r <> snapshotDate) ->
  NoDup (map tc_TitleID
             (List.filter (fun tc => tc_ContentDate tc =? snapshotDate)
                          (title_contents db))) ->
  let table := historical_snapshots (snd (CaptureSnapshot now db)) in
  let total :=
    sumZ (map wordsOf
              (List.filter (fun tc => tc_ContentDate tc =? snapshotDate)
                           (title_contents db))) in
  List.filter (overallKey snapshotDate) table
  = [mkSnapshot snapshotDate None None (Some total) None now]
  /\ sumZ (map snapshotWords (List.filter (isTitleSnapshot snapshotDate) table))
     = total.
Proof.
  intros Hd Hfresh Hnd. cbv zeta.
  rewrite (CaptureSnapshot_writes now db snapshotDate Hd). cbn [snd].
  change (historical_snapshots (with_historical_snapshots ?t db)) with t.
  unfold writes.
  set (tcs := List.filter (fun tc => tc_ContentDate tc =? snapshotDate)
                          (title_contents db)) in *.
  set (step := findOrCreateStep writeSkipped (writeKey snapshotDate)
                                (writeRow snapshotDate now)).
  set (T0 := historical_snapshots db) in *.
  cbn [fold_left]. rewrite fold_left_app.
  (* the overall row is created *)
  assert (H1 : step T0 (WriteOverall (sumZ (map wordsOf tcs)))
               = T0 ++ [mkSnapshot snapshotDate None None
                                   (Some (sumZ (map wordsOf tcs))) None now]).
  { unfold step, findOrCreateStep. cbn [writeSkipped writeKey writeRow].
    rewrite FirstOrCreate_created; [reflexivity|].
    destruct (find (overallKey snapshotDate) T0) as [r|] eqn:E; [|reflexivity].
    apply find_some in E. destruct E as [Hin Hk]. exfalso.
    unfold overallKey in Hk. rewrite !andb_true_iff, Z.eqb_eq in Hk.
    apply (Hfresh r Hin). apply Hk. }
  rewrite H1.
  (* the rows of the agencies *)
  destruct (loop_rows_from writeSkipped (writeKey snapshotDate)
              (writeRow snapshotDate now)
              (map WriteAgency (agencyWordCounts snapshotDate db))
              (T0 ++ [mkSnapshot snapshotDate None None
                                 (Some (sumZ (map wordsOf tcs))) None now]))
    as [agencyRows [E2 F2]].
  fold step in E2. rewrite E2.
  assert (Hag : forall r, In r agencyRows -> exists a, hs_AgencyID r = Some a).
  { intros r Hr. rewrite Forall_forall in F2.
    destruct (F2 r (proj2 (list_elem_of_In _ _) Hr)) as [x [Hx ->]].
    apply in_map_iff in Hx. destruct Hx as [awc [<- _]]. simpl. eauto. }
  (* the rows of the titles *)
  unfold step. rewrite loop_appends.
  - rewrite !List.filter_app, !map_app. cbn [List.filter].
    assert (Hk0 : overallKey snapshotDate
                    (mkSnapshot snapshotDate None None
                                (Some (sumZ (map wordsOf tcs))) None now) = true).
    { unfold overallKey. simpl. rewrite Z.eqb_refl. reflexivity. }
    rewrite Hk0. split.
    + rewrite (filter_none (overallKey snapshotDate) T0).
      2:{ intros r Hr. unfold overallKey.
          destruct (Z.eqb_spec (hs_SnapshotDate r) snapshotDate) as [E|E];
            [exfalso; exact (Hfresh r Hr E) | reflexivity]. }
      rewrite (filter_none (overallKey snapshotDate) agencyRows).
      2:{ intros r Hr. destruct (Hag r Hr) as [a Ha]. unfold overallKey.
          rewrite Ha. simpl. rewrite andb_false_r. reflexivity. }
      rewrite (filter_none (overallKey snapshotDate)).
      2:{ intros r Hr. apply in_map_iff in Hr. destruct Hr as [w [<- Hw]].
          apply filter_In in Hw. destruct Hw as [Hw _].
          apply in_map_iff in Hw. destruct Hw as [tc [<- _]].
          unfold overallKey. simpl. rewrite andb_false_r. reflexivity. }
      reflexivity.
    + rewrite (filter_none (isTitleSnapshot snapshotDate) T0).
      2:{ intros r Hr. unfold isTitleSnapshot.
          destruct (Z.eqb_spec (hs_SnapshotDate r) snapshotDate) as [E|E];
            [exfalso; exact (Hfresh r Hr E) | reflexivity]. }
      assert (Hk1 : isTitleSnapshot snapshotDate
                      (mkSnapshot snapshotDate None None
                                  (Some (sumZ (map wordsOf tcs))) None now) = false).
      { unfold isTitleSnapshot. simpl. rewrite andb_false_r. reflexivity. }
      rewrite Hk1.
      rewrite (filter_none (isTitleSnapshot snapshotDate) agencyRows).
      2:{ intros r Hr. destruct (Hag r Hr) as [a Ha]. unfold isTitleSnapshot.
          rewrite Ha. simpl. rewrite andb_false_r. reflexivity. }
      rewrite filter_all.
      2:{ intros r Hr. apply in_map_iff in Hr. destruct Hr as [w [<- Hw]].
          apply filter_In in Hw. destruct Hw as [Hw _].
          apply in_map_iff in Hw. destruct Hw as [tc [<- _]].
          unfold isTitleSnapshot. simpl. rewrite Z.eqb_refl. reflexivity. }
      simpl.
      replace (List.filter (fun x => negb (writeSkipped x)) (map WriteTitle tcs))
        with (map WriteTitle (List.filter (fun tc => negb (noWords tc)) tcs)).
      2:{ clear. induction tcs as [|tc tcs IH]; simpl; [reflexivity|].
          destruct (noWords tc); simpl; rewrite IH; reflexivity. }
      rewrite <- (words_of_title_rows snapshotDate now tcs), !map_map.
      reflexivity.
  - intros x r Hx Hr. apply in_map_iff in Hx. destruct Hx as [tc [<- _]].
    simpl. unfold titleKey.
    apply in_app_or in Hr. destruct Hr as [Hr | Hr];
      [apply in_app_or in Hr; destruct Hr as [Hr | [<- | []]]|].
    + destruct (Z.eqb_spec (hs_SnapshotDate r) snapshotDate) as [E|E];
        [exfalso; exact (Hfresh r Hr E) | reflexivity].
    + simpl. rewrite andb_false_r. reflexivity.
    + destruct (Hag r Hr) as [a Ha]. rewrite Ha. simpl.
      rewrite andb_false_r. reflexivity.
  - clear -Hnd. unfold tcs in *. clear tcs.
    set (l := List.filter _ (title_contents db)) in *. clearbody l.
    pose proof (titles_ordered_pairs snapshotDate now l Hnd) as H. clear Hnd.
    induction H as [|x l Hx Hl IH]; simpl; constructor.
    + apply Forall_map. exact Hx.
    + apply IH.
Qed.

Lemma CaptureSnapshot_overall_is_sum_of_titles_witness :
  let db := mkDB [mkAgency 7 "Office of Examples" "office-examples" None]
                 [mkTitle 1 10 "Energy" false; mkTitle 2 12 "Banks" false;
                  mkTitle 3 14 "Aeronautics" false]
                 [mkReference 7 1 None; mkReference 7 2 (Some "I")]
                 [mkTitleContent 1 86400 "<a>one</a>" (Some 1) (Some "c1") 86405;
                  mkTitleContent 2 86400 "<a>one two</a>" (Some 2) (Some "c2") 86405;
                  mkTitleContent 3 86400 "" (Some 0) (Some "c3") 86405;
                  mkTitleContent 1 0 "<a>old old old old</a>" (Some 4) (Some "c0") 5]
                 [mkSnapshot 0 None None (Some 4) None 5]
                 ∅ in
  let table := historical_snapshots (snd (CaptureSnapshot 90000 db)) in
  List.filter (overallKey 86400) table
  = [mkSnapshot 86400 None None (Some 3) None 90000]
  /\ sumZ (map snapshotWords (List.filter (isTitleSnapshot 86400) table)) = 3.
Proof.
  cbv zeta.
  apply (CaptureSnapshot_overall_is_sum_of_titles 90000 86400).
  - reflexivity.
  - simpl. intros r [<- | []]. simpl. lia.
  - apply (bool_decide_unpack _). reflexivity.
Defined.

(** X3.  [CaptureSnapshot] only appends to the snapshot table: the rows
    that were there stay, in place and as they were; the other tables are
    left as they were; and when it returns an error nothing is written. *)
Theorem CaptureSnapshot_only_appends (now : Z) (db : DB) :
  let db' := snd (CaptureSnapshot now db) in
  (exists more,
     historical_snapshots db' = historical_snapshots db ++ more)
  /\ agencies db' = agencies db /\ titles db' = titles db
  /\ agency_cfr_references db' = agency_cfr_references db
  /\ title_contents db' = title_contents db
  /\ agency_checksums db' = agency_checksums db
  /\ (fst (CaptureSnapshot now db) <> None -> db' = db).
Proof.
  cbv zeta. destruct (latestContentDate db) as [d|] eqn:Hd.
  - rewrite (CaptureSnapshot_writes now db d Hd). cbn [fst snd].
    split; [|repeat split; congruence].
    apply loop_extends.
  - unfold CaptureSnapshot. rewrite Hd. cbn [fst snd].
    split; [exists []; rewrite app_nil_r; reflexivity | repeat split].
Qed.

(** X4.  [CaptureSnapshot] keeps the snapshot table free of two rows with
    one date, one agency or NULL, and one title or NULL: when no two rows
    share these three before the call, none do after. *)
Theorem CaptureSnapshot_keeps_keys_unique (now : Z) (db : DB) :
  NoDup (map snapshotKey (historical_snapshots db)) ->
  NoDup (map snapshotKey (historical_snapshots (snd (CaptureSnapshot now db)))).
Proof.
  intros Hnd. destruct (latestContentDate db) as [d|] eqn:Hd.
  - rewrite (CaptureSnapshot_writes now db d Hd). cbn [snd].
    apply loop_keeps_keys. exact Hnd.
  - unfold CaptureSnapshot. rewrite Hd. exact Hnd.
Qed.

Lemma CaptureSnapshot_keeps_keys_unique_witness :
  let db := mkDB [mkAgency 7 "Office of Examples" "office-examples" None]
                 [mkTitle 1 10 "Energy" false; mkTitle 2 12 "Banks" false]
                 [mkReference 7 1 None; mkReference 7 2 (Some "I")]
                 [mkTitleContent 1 86400 "<a>one</a>" (Some 1) (Some "c1") 86405;
                  mkTitleContent 2 86400 "<a>one two</a>" (Some 2) (Some "c2") 86405]
                 [mkSnapshot 86400 None None (Some 9) None 5;
                  mkSnapshot 0 None None (Some 4) None 5]
                 ∅ in
  NoDup (map snapshotKey (historical_snapshots (snd (CaptureSnapshot 90000 db)))).
Proof.
  cbv zeta. apply CaptureSnapshot_keeps_keys_unique.
  apply (bool_decide_unpack _). reflexivity.
Defined.

End SnapshotTableFacts.

(** ** The recalculation of all agency checksums *)

Section RecalculationMore.
Import Store Checksum.

Lemma calculateAndStoreAgencyChecksum_outcome o agencyID now db :
  let result := fst (calculateAndStoreAgencyChecksum o agencyID now db) in
  let db' := snd (calculateAndStoreAgencyChecksum o agencyID now db) in
  (result = "created" \/ result = "updated" \/ result = "skipped")
  /\ (result = "skipped" -> db' = db)
  /\ (forall other, other <> agencyID ->
        agency_checksums db' !! other = agency_checksums db !! other)
  /\ agencies db' = agencies db /\ titles db' = titles db
  /\ agency_cfr_references db' = agency_cfr_references db
  /\ title_contents db' = title_contents db
  /\ historical_snapshots db' = historical_snapshots db.
Proof.
  unfold calculateAndStoreAgencyChecksum.
  destruct (titleChecksums o db agencyID) as [|r rows]; cbn [fst snd].
  - repeat split; auto.
  - destruct (agency_checksums db !! agencyID) as [existing|].
    + destruct (String.eqb _ _); cbn [fst snd].
      * repeat split; auto.
      * repeat split; auto; [discriminate|].
        intros other Hne. simpl. apply lookup_insert_ne. congruence.
    + cbn [fst snd]. repeat split; auto; [discriminate|].
      intros other Hne. simpl. apply lookup_insert_ne. congruence.
Qed.

Lemma processAgencies_accounts orders ids now st db :
  let results := fst (fst (processAgencies orders ids now st db)) in
  let st' := snd (fst (processAgencies orders ids now st db)) in
  let db' := snd (processAgencies orders ids now st db) in
  length results = length ids
  /\ successCount st' + skippedCount st'
     = successCount st + skippedCount st + Z.of_nat (length ids)
  /\ skippedCount st' - skippedCount st
     = Z.of_nat (length (List.filter (String.eqb "skipped") results))
  /\ errorCount st' = errorCount st
  /\ (forall other, ~ In other ids ->
        agency_checksums db' !! other = agency_checksums db !! other)
  /\ titles db' = titles db
  /\ agency_cfr_references db' = agency_cfr_references db
  /\ title_contents db' = title_contents db
  /\ historical_snapshots db' = historical_snapshots db.
Proof.
  revert st db. induction ids as [|a ids IH]; intros st db; cbv zeta.
  - simpl. repeat split; auto; lia.
  - cbn [processAgencies].
    pose proof (calculateAndStoreAgencyChecksum_outcome (orders a) a now db) as H1.
    cbv zeta in H1.
    destruct (calculateAndStoreAgencyChecksum (orders a) a now db) as [result db1].
    cbn [fst snd] in H1.
    destruct H1 as (Hres & _ & Hother & _ & Ht & Hr & Hc & Hs).
    specialize (IH (count result st) db1). cbv zeta in IH.
    destruct (processAgencies orders ids now (count result st) db1)
      as [[results st2] db2].
    cbn [fst snd] in *.
    destruct IH as (Hlen & Hsum & Hskip & Herr & Hoth2 & Ht2 & Hr2 & Hc2 & Hs2).
    assert (Hcount :
      successCount (count result st) + skippedCount (count result st)
      = successCount st + skippedCount st + 1
      /\ skippedCount (count result st) - skippedCount st
         = (if String.eqb "skipped" result then 1 else 0)
      /\ errorCount (count result st) = errorCount st).
    { destruct Hres as [-> | [-> | ->]]; simpl; repeat split; lia. }
    destruct Hcount as (Hc1 & Hc3 & Hc4).
    repeat split; try congruence.
    + simpl. rewrite Hlen. reflexivity.
    + rewrite Hsum, Hc1. cbn [length]. lia.
    + cbn [List.filter]. destruct (String.eqb "skipped" result); cbn [length]; lia.
    + intros other Hnot. rewrite Hoth2.
      * apply Hother. intros ->. apply Hnot. left. reflexivity.
      * intros Hin. apply Hnot. right. exact Hin.
Qed.

(** X6.  A recalculation answers for every agency once: the response
    lists one outcome an agency, the created or updated and the skipped
    agencies add up to the number of agencies, none is an error, and the
    agencies skipped are those counted as skipped.  Afterwards every
    agency either has no title checksum or has a record with the hash of
    its lines, in ascending order of the title numbers and, where a title
    number has several rows, in the order in which the run read them;
    records of other keys and the other tables are as before. *)
Theorem CalculateChecksumsHandler_accounts_for_every_agency
    (orders : N -> ReadOrder) (now : Z) (db : DB) :
  let results := fst (fst (CalculateChecksumsHandler orders now db)) in
  let st := snd (fst (CalculateChecksumsHandler orders now db)) in
  let db' := snd (CalculateChecksumsHandler orders now db) in
  length results = length (agencies db)
  /\ successCount st + skippedCount st = Z.of_nat (length (agencies db))
  /\ skippedCount st
     = Z.of_nat (length (List.filter (String.eqb "skipped") results))
  /\ errorCount st = 0
  /\ Forall (fun a =>
               let rows := titleChecksums (orders (a_ID a)) db (a_ID a) in
               rows ≡ₚ joinedRows db (a_ID a)
               /\ StronglySorted byNumber rows
               /\ (rows = []
                   \/ exists record,
                        agency_checksums db' !! a_ID a = Some record
                        /\ ac_ContentHash record
                           = Sha256.sum256_hex (buildContent rows)))
            (agencies db)
  /\ (forall other, ~ In other (map a_ID (agencies db)) ->
        agency_checksums db' !! other = agency_checksums db !! other)
  /\ agencies db' = agencies db /\ titles db' = titles db
  /\ agency_cfr_references db' = agency_cfr_references db
  /\ title_contents db' = title_contents db
  /\ historical_snapshots db' = historical_snapshots db.
Proof.
  cbv zeta. unfold CalculateChecksumsHandler.
  pose proof (processAgencies_accounts orders (map a_ID (agencies db)) now
                (mkStats 0 0 0) db) as H.
  cbv zeta in H. rewrite length_map in H. cbn [successCount skippedCount errorCount] in H.
  destruct H as (Hlen & Hsum & Hskip & Herr & Hoth & Ht & Hr & Hc & Hs).
  repeat split; try assumption; try lia.
  - pose proof (processAgencies_settles orders (map a_ID (agencies db)) now
                  (mkStats 0 0 0) db) as F.
    rewrite Forall_map in F.
    eapply Forall_impl; [exact F|]. intros a Ha. cbn beta in Ha.
    split; [apply titleChecksums_Permutation|].
    split; [apply titleChecksums_sorted|].
    unfold settled, titleChecksums in Ha |- *.
    rewrite processAgencies_joinedRows in Ha. exact Ha.
  - apply processAgencies_agencies.
Qed.

End RecalculationMore.

(** ** The cached agency checksums *)

Section CacheFacts.
Import Store Checksum Cache.

Lemma rowsOfAgency_not_asked db agencyIDs agencyID :
  ~ In agencyID agencyIDs ->
  rowsOfAgency agencyID (batchJoinedRows db agencyIDs) = [].
Proof.
  intros Hnot. unfold rowsOfAgency, batchJoinedRows.
  rewrite flat_map_flat_map. apply flat_map_nil. intros tc _.
  rewrite flat_map_flat_map. apply flat_map_nil. intros t _.
  rewrite flat_map_flat_map. apply flat_map_nil. intros acr _.
  destruct (existsb (N.eqb (acr_AgencyID acr)) agencyIDs) eqn:Hex.
  - apply existsb_exists in Hex. destruct Hex as [x [Hx Heq]].
    apply N.eqb_eq in Heq. subst x.
    destruct ((tc_TitleID tc =? t_ID t)%N && (acr_TitleID acr =? t_ID t)%N);
      simpl; [|reflexivity].
    destruct (tc_Checksum tc) as [c|]; [|reflexivity].
    destruct (String.eqb c ""); simpl; [reflexivity|].
    destruct (N.eqb_spec (acr_AgencyID acr) agencyID) as [E|E]; [|reflexivity].
    exfalso. apply Hnot. rewrite <- E. exact Hx.
  - rewrite andb_false_r. reflexivity.
Qed.

Lemma batch_not_asked o db agencyIDs agencyID :
  ~ In agencyID agencyIDs ->
  calculateBatchAgencyChecksumsOptimized o db agencyIDs !! agencyID = None.
Proof.
  intros Hnot. unfold calculateBatchAgencyChecksumsOptimized.
  destruct agencyIDs as [|a0 ids]; [apply lookup_empty|].
  rewrite lookup_omap. unfold groupByAgency.
  rewrite groupByAgency_lookup, lookup_empty.
  rewrite rowsOfAgency_orderByAgencyNumber.
  assert (E : rowsOfAgency agencyID (readIn o (batchJoinedRows db (a0 :: ids)))
              = []).
  { apply Permutation_nil_r.
    rewrite <- (rowsOfAgency_not_asked db (a0 :: ids) agencyID Hnot).
    apply rowsOfAgency_Permutation. apply readIn_Permutation. }
  rewrite E. reflexivity.
Qed.

Lemma cached_lookup db agencyIDs agencyID :
  (ac_Checksum <$>
     filter (fun kv => existsb (N.eqb (fst kv)) agencyIDs = true)
            (agency_checksums db)) !! agencyID
  = if existsb (N.eqb agencyID) agencyIDs
    then ac_Checksum <$> agency_checksums db !! agencyID
    else None.
Proof.
  rewrite lookup_fmap.
  destruct (existsb (N.eqb agencyID) agencyIDs) eqn:Hex.
  - destruct (agency_checksums db !! agencyID) as [r|] eqn:Hr.
    + erewrite map_lookup_filter_Some_2; [reflexivity | exact Hr | exact Hex].
    + rewrite map_lookup_filter_None_2; [reflexivity|]. left. exact Hr.
  - rewrite map_lookup_filter_None_2; [reflexivity|].
    right. intros r _. simpl. rewrite Hex. discriminate.
Qed.

Lemma existsb_eqb_In agencyID agencyIDs :
  existsb (N.eqb agencyID) agencyIDs = true <-> In agencyID agencyIDs.
Proof.
  rewrite existsb_exists. split.
  - intros [x [Hx Heq]]. apply N.eqb_eq in Heq. subst. exact Hx.
  - intros H. exists agencyID. split; [exact H | apply N.eqb_refl].
Qed.

(** What the cached checksums hold for an agency: the checksum of its
    record; without a record, the checksum of its lines read in some
    order; nothing for an agency that was not asked for. *)
Lemma getCachedAgencyChecksums_lookup o db agencyIDs agencyID :
  exists o',
    getCachedAgencyChecksums o db agencyIDs !! agencyID
    = if existsb (N.eqb agencyID) agencyIDs
      then match agency_checksums db !! agencyID with
           | Some record => Some (ac_Checksum record)
           | None =>
               match joinedRows db agencyID with
               | [] => None
               | rows => Some (checksumOfRows (readIn o' rows))
               end
           end
      else None.
Proof.
  unfold getCachedAgencyChecksums.
  destruct agencyIDs as [|a0 ids];
    [exists []; apply lookup_empty|].
  set (agencyIDs := a0 :: ids).
  set (result := ac_Checksum <$> filter _ (agency_checksums db)).
  set (missingIDs := List.filter _ agencyIDs).
  assert (Hres : result !! agencyID
                 = if existsb (N.eqb agencyID) agencyIDs
                   then ac_Checksum <$> agency_checksums db !! agencyID
                   else None)
    by apply cached_lookup.
  assert (Hmiss : In agencyID missingIDs
                  <-> In agencyID agencyIDs /\ result !! agencyID = None).
  { unfold missingIDs. rewrite filter_In.
    destruct (result !! agencyID); split; intros [H1 H2]; split;
      try assumption; try reflexivity; discriminate. }
  assert (Hall : exists o',
            (calculateBatchAgencyChecksumsOptimized o db missingIDs ∪ result)
              !! agencyID
            = if existsb (N.eqb agencyID) agencyIDs
              then match agency_checksums db !! agencyID with
                   | Some record => Some (ac_Checksum record)
                   | None =>
                       match joinedRows db agencyID with
                       | [] => None
                       | rows => Some (checksumOfRows (readIn o' rows))
                       end
                   end
              else None).
  { destruct (existsb (N.eqb agencyID) agencyIDs) eqn:Hex.
    - apply existsb_eqb_In in Hex.
      destruct (agency_checksums db !! agencyID) as [r|] eqn:Hr.
      + exists []. rewrite lookup_union, batch_not_asked.
        * rewrite Hres. reflexivity.
        * rewrite Hmiss, Hres. simpl. intros [_ H]. discriminate.
      + destruct (calculateBatchAgencyChecksumsOptimized_lookup o db missingIDs
                    agencyID) as [o' Ho'].
        * rewrite Hmiss, Hres. simpl. auto.
        * exists o'. rewrite lookup_union, Ho', Hres. simpl.
          destruct (joinedRows db agencyID); reflexivity.
    - exists []. rewrite lookup_union, batch_not_asked.
      + rewrite Hres. reflexivity.
      + rewrite Hmiss. intros [H _]. apply existsb_eqb_In in H. congruence. }
  destruct Hall as [o' Hall]. exists o'.
  destruct missingIDs as [|m ms] eqn:Hm; [|exact Hall].
  rewrite <- Hall. rewrite lookup_union.
  unfold calculateBatchAgencyChecksumsOptimized. rewrite lookup_empty.
  destruct (result !! agencyID); reflexivity.
Qed.

(** The checksum that an agency is served when it does not depend on the
    read order. *)
Lemma getCachedAgencyChecksums_determined o db agencyIDs agencyID :
  In agencyID agencyIDs -> oneChecksum db agencyID ->
  getCachedAgencyChecksums o db agencyIDs !! agencyID
  = match agency_checksums db !! agencyID with
    | Some record => Some (ac_Checksum record)
    | None =>
        match joinedRows db agencyID with
        | [] => None
        | rows => Some (checksumOfRows rows)
        end
    end.
Proof.
  intros Hin Hone.
  destruct (getCachedAgencyChecksums_lookup o db agencyIDs agencyID) as [o' ->].
  rewrite (proj2 (existsb_eqb_In _ _) Hin).
  destruct (agency_checksums db !! agencyID) as [record|] eqn:Hrec;
    [reflexivity|].
  destruct Hone as [[r Hr] | Hone]; [congruence|].
  assert (E : checksumOfRows (joinedRows db agencyID)
              = checksumOfRows (readIn o' (joinedRows db agencyID))).
  { apply checksumOfRows_order_irrelevant; [exact Hone|].
    symmetry. apply readIn_Permutation. }
  revert E. destruct (joinedRows db agencyID); intros E; [reflexivity|].
  rewrite E. reflexivity.
Qed.

(** X7.  The cached checksums serve the record first: an asked agency with
    a record gets the checksum of the record, whatever the title contents
    are now.  An asked agency without a record gets none when it has no
    title checksum, and otherwise the checksum of its lines in an order
    that ascends in the title numbers; rows of one title number are hashed
    in the order in which the batch query reads them, and the checksum is
    that of every read order when each title number comes with one
    checksum.  An agency that was not asked for is not in the result. *)
Theorem getCachedAgencyChecksums_serves_record_first (o : ReadOrder) (db : DB)
    (agencyIDs : list N) (agencyID : N) :
  (forall record, In agencyID agencyIDs ->
     agency_checksums db !! agencyID = Some record ->
     getCachedAgencyChecksums o db agencyIDs !! agencyID
     = Some (ac_Checksum record))
  /\ (In agencyID agencyIDs -> agency_checksums db !! agencyID = None ->
      (joinedRows db agencyID = [] ->
       getCachedAgencyChecksums o db agencyIDs !! agencyID = None)
      /\ (joinedRows db agencyID <> [] ->
          exists rows,
            rows ≡ₚ joinedRows db agencyID
            /\ StronglySorted byNumber rows
            /\ getCachedAgencyChecksums o db agencyIDs !! agencyID
               = Some (Sha256.sum256_hex (buildContent rows)))
      /\ (joinedRows db agencyID <> [] ->
          oneChecksumPerTitle (joinedRows db agencyID) ->
          getCachedAgencyChecksums o db agencyIDs !! agencyID
          = Some (checksumOfRows (joinedRows db agencyID))))
  /\ (~ In agencyID agencyIDs ->
      getCachedAgencyChecksums o db agencyIDs !! agencyID = None).
Proof.
  destruct (getCachedAgencyChecksums_lookup o db agencyIDs agencyID) as [o' ->].
  split; [|split].
  - intros record Hin Hrec. apply existsb_eqb_In in Hin. rewrite Hin, Hrec.
    reflexivity.
  - intros Hin Hrec. apply existsb_eqb_In in Hin. rewrite Hin, Hrec.
    split; [|split].
    + intros ->. reflexivity.
    + intros Hne. exists (orderByNumber (readIn o' (joinedRows db agencyID))).
      split; [|split].
      * rewrite orderByNumber_Permutation. apply readIn_Permutation.
      * apply orderByNumber_sorted.
      * destruct (joinedRows db agencyID); [congruence | reflexivity].
    + intros Hne Hone.
      rewrite (checksumOfRows_order_irrelevant (joinedRows db agencyID)
                 (readIn o' (joinedRows db agencyID)) Hone)
        by (symmetry; apply readIn_Permutation).
      destruct (joinedRows db agencyID); [congruence | reflexivity].
  - intros Hnot. destruct (existsb (N.eqb agencyID) agencyIDs) eqn:Hex;
      [|reflexivity].
    apply existsb_eqb_In in Hex. contradiction.
Qed.

(** The records whose two hashes agree. *)
Lemma calculateAndStoreAgencyChecksum_keeps_agreement o other agencyID now db :
  (forall record, agency_checksums db !! agencyID = Some record ->
     ac_Checksum record = ac_ContentHash record) ->
  forall record,
    agency_checksums (snd (calculateAndStoreAgencyChecksum o other now db))
      !! agencyID = Some record ->
    ac_Checksum record = ac_ContentHash record.
Proof.
  intros H record. unfold calculateAndStoreAgencyChecksum.
  destruct (titleChecksums o db other) as [|r rows]; [apply H|].
  assert (Hins : forall stored,
            <[other := mkAgencyChecksum stored stored now]> (agency_checksums db)
              !! agencyID = Some record ->
            ac_Checksum record = ac_ContentHash record).
  { intros stored. destruct (N.eq_dec other agencyID) as [->|Hne].
    - rewrite lookup_insert_eq. intros [= <-]. reflexivity.
    - rewrite lookup_insert_ne by exact Hne. apply H. }
  destruct (agency_checksums db !! other) as [existing|].
  - destruct (String.eqb _ _); [apply H | apply Hins].
  - apply Hins.
Qed.

Lemma processAgencies_keeps_agreement orders ids agencyID now st db :
  (forall record, agency_checksums db !! agencyID = Some record ->
     ac_Checksum record = ac_ContentHash record) ->
  forall record,
    agency_checksums (snd (processAgencies orders ids now st db)) !! agencyID
    = Some record ->
    ac_Checksum record = ac_ContentHash record.
Proof.
  revert st db. induction ids as [|a ids IH]; intros st db H; [exact H|].
  cbn [processAgencies].
  pose proof (calculateAndStoreAgencyChecksum_keeps_agreement (orders a) a
                agencyID now db H) as H1.
  destruct (calculateAndStoreAgencyChecksum (orders a) a now db) as [result db1].
  specialize (IH (count result st) db1 H1).
  destruct (processAgencies orders ids now (count result st) db1)
    as [[results st2] db2].
  exact IH.
Qed.

(** X8.  After a recalculation, the checksum served for an agency with
    title checksums is the one that the recalculation left in the record
    of the agency: the digest of the lines of the agency in ascending
    order of the title numbers, rows of one title number in the order in
    which the recalculation read them.  It is served whatever the order in
    which a later query would read the rows, provided the record the
    agency had before, if any, held the same value in its two hash
    columns (as every record written by the recalculation does). *)
Theorem calculateAgencyChecksum_after_recalculation
    (orders : N -> ReadOrder) (o : ReadOrder) (now : Z) (db : DB)
    (agency : Agency) :
  In agency (agencies db) ->
  (forall record, agency_checksums db !! a_ID agency = Some record ->
     ac_Checksum record = ac_ContentHash record) ->
  joinedRows db (a_ID agency) <> [] ->
  let rows := titleChecksums (orders (a_ID agency)) db (a_ID agency) in
  rows ≡ₚ joinedRows db (a_ID agency)
  /\ StronglySorted byNumber rows
  /\ calculateAgencyChecksum o (snd (CalculateChecksumsHandler orders now db))
       (a_ID agency)
     = Sha256.sum256_hex (buildContent rows).
Proof.
  intros Hin Hagree Hrows. cbv zeta.
  split; [apply titleChecksums_Permutation|].
  split; [apply titleChecksums_sorted|].
  unfold calculateAgencyChecksum.
  destruct (getCachedAgencyChecksums_lookup o
              (snd (CalculateChecksumsHandler orders now db))
              [a_ID agency] (a_ID agency)) as [o' ->].
  cbn [existsb]. rewrite N.eqb_refl. cbn [orb].
  unfold CalculateChecksumsHandler.
  set (ids := map a_ID (agencies db)).
  pose proof (processAgencies_settles orders ids now (mkStats 0 0 0) db) as F.
  rewrite Forall_forall in F.
  assert (Hid : a_ID agency ∈ ids).
  { apply list_elem_of_In. apply in_map. exact Hin. }
  specialize (F _ Hid).
  pose proof (processAgencies_keeps_agreement orders ids (a_ID agency) now
                (mkStats 0 0 0) db Hagree) as Hagree'.
  pose proof (processAgencies_joinedRows orders ids now (mkStats 0 0 0) db
                (a_ID agency)) as Hj.
  destruct F as [Hnil | [record [Hrec Hhash]]].
  - apply titleChecksums_nil in Hnil. rewrite Hj in Hnil. contradiction.
  - rewrite Hrec. rewrite (Hagree' record Hrec), Hhash.
    unfold titleChecksums. rewrite Hj. reflexivity.
Qed.

Lemma calculateAgencyChecksum_after_recalculation_witness :
  let agency := mkAgency 7 "Office of Examples" "office-examples" None in
  let db := mkDB [agency]
                 [mkTitle 1 10 "Energy" false; mkTitle 2 12 "Banks" false]
                 [mkReference 7 1 None; mkReference 7 2 (Some "I")]
                 [mkTitleContent 1 86400 "<a>one</a>" (Some 1) (Some "c1") 86405;
                  mkTitleContent 2 86400 "<a>one two</a>" (Some 2) (Some "c2") 86405;
                  mkTitleContent 2 0 "<a>one</a>" (Some 1) (Some "c0") 5]
                 []
                 (<[7%N := mkAgencyChecksum "stale" "stale" 5]> ∅) in
  calculateAgencyChecksum [] (snd (CalculateChecksumsHandler (fun _ => [2%nat]) 90000 db)) 7
  = Sha256.sum256_hex (buildContent [(10, "c1"); (12, "c0"); (12, "c2")]).
Proof.
  cbv zeta.
  apply (calculateAgencyChecksum_after_recalculation (fun _ => [2%nat]) [] 90000
           (mkDB [mkAgency 7 "Office of Examples" "office-examples" None]
                 [mkTitle 1 10 "Energy" false; mkTitle 2 12 "Banks" false]
                 [mkReference 7 1 None; mkReference 7 2 (Some "I")]
                 [mkTitleContent 1 86400 "<a>one</a>" (Some 1) (Some "c1") 86405;
                  mkTitleContent 2 86400 "<a>one two</a>" (Some 2) (Some "c2") 86405;
                  mkTitleContent 2 0 "<a>one</a>" (Some 1) (Some "c0") 5]
                 []
                 (<[7%N := mkAgencyChecksum "stale" "stale" 5]> ∅))
           (mkAgency 7 "Office of Examples" "office-examples" None)).
  - left. reflexivity.
  - cbn [a_ID agency_checksums]. rewrite lookup_insert_eq. intros record [= <-].
    reflexivity.
  - discriminate.
Defined.

End CacheFacts.

(** ** The import of historical snapshots *)

Section HistoricalImportFacts.
Import Store Historical SnapshotKeys HistoricalImport.

Lemma wrap64_add_l a b : GoNum.wrap64 (GoNum.wrap64 a + b) = GoNum.wrap64 (a + b).
Proof.
  unfold GoNum.wrap64. f_equal.
  replace ((a + 9223372036854775808) mod 18446744073709551616
           - 9223372036854775808 + b + 9223372036854775808)
    with ((a + 9223372036854775808) mod 18446744073709551616 + b) by lia.
  rewrite Zplus_mod_idemp_l. f_equal. lia.
Qed.

(** A sum that an [int64] holds is not changed by the wrap-around. *)
Lemma wrap64_small x :
  - 9223372036854775808 <= x < 9223372036854775808 -> GoNum.wrap64 x = x.
Proof.
  intros H. unfold GoNum.wrap64.
  rewrite Z.mod_small by lia. lia.
Qed.

Lemma titleStep_as_findOrCreate client snapshotDate now acc t :
  titleStep client snapshotDate now acc t
  = ((if skipsTitle client snapshotDate t then fst acc
      else GoNum.add64 (fst acc) (estimate client snapshotDate t)),
     findOrCreateStep (skipsTitle client snapshotDate)
       (fun t => titleKey snapshotDate (t_ID t))
       (titleRow client snapshotDate now) (snd acc) t).
Proof.
  unfold titleStep, findOrCreateStep, skipsTitle, titleRow, estimate.
  destruct acc as [total table].
  destruct (client (t_Number t) snapshotDate) as [charCount|]; cbn [fst snd].
  - destruct (charCount =? 0); reflexivity.
  - reflexivity.
Qed.

Lemma titleLoop_from client snapshotDate now titles total table :
  fold_left (titleStep client snapshotDate now) titles
            (GoNum.wrap64 total, table)
  = (GoNum.wrap64
       (total + sumZ (map (estimate client snapshotDate)
                          (List.filter (fun t => negb (skipsTitle client snapshotDate t))
                                       titles))),
     fold_left (findOrCreateStep (skipsTitle client snapshotDate)
                  (fun t => titleKey snapshotDate (t_ID t))
                  (titleRow client snapshotDate now))
               titles table).
Proof.
  revert total table. induction titles as [|t titles IH]; intros total table.
  - simpl. rewrite Z.add_0_r. reflexivity.
  - cbn [fold_left List.filter]. rewrite titleStep_as_findOrCreate.
    cbn [fst snd].
    destruct (skipsTitle client snapshotDate t); cbn [negb map].
    + apply IH.
    + unfold GoNum.add64. rewrite wrap64_add_l, IH. unfold sumZ.
      cbn [fold_right]. do 2 f_equal. lia.
Qed.

(** The running total of the loop is the sum of the estimates, wrapped
    around as an [int64]. *)
Lemma titleLoop_as_findOrCreate client snapshotDate now titles table :
  fold_left (titleStep client snapshotDate now) titles (0, table)
  = (GoNum.wrap64
       (sumZ (map (estimate client snapshotDate)
                  (List.filter (fun t => negb (skipsTitle client snapshotDate t))
                               titles))),
     fold_left (findOrCreateStep (skipsTitle client snapshotDate)
                  (fun t => titleKey snapshotDate (t_ID t))
                  (titleRow client snapshotDate now))
               titles table).
Proof.
  change 0 with (GoNum.wrap64 0) at 1. rewrite titleLoop_from.
  rewrite Z.add_0_l. reflexivity.
Qed.

Lemma FirstOrCreate_dated {d : Z} cond (row : HistoricalSnapshot) table :
  dated d row ->
  exists more, snd (FirstOrCreate cond row table) = table ++ more
               /\ Forall (dated d) more.
Proof.
  intros Hd. unfold FirstOrCreate. destruct (find cond table); cbn [snd].
  - exists []. rewrite app_nil_r. split; [reflexivity | constructor].
  - exists [row]. split; [reflexivity | repeat constructor; exact Hd].
Qed.

Lemma loop_dated {X : Type} d (skip : X -> bool) key
    (row : X -> HistoricalSnapshot) xs table :
  (forall x, dated d (row x)) ->
  exists more,
    fold_left (findOrCreateStep skip key row) xs table = table ++ more
    /\ Forall (dated d) more.
Proof.
  intros Hd. destruct (loop_rows_from skip key row xs table) as [more [E F]].
  exists more. split; [exact E|].
  eapply Forall_impl; [exact F|]. intros r [x [_ ->]]. apply Hd.
Qed.

Lemma with_historical_snapshots_same db :
  with_historical_snapshots (historical_snapshots db) db = db.
Proof. destruct db. reflexivity. Qed.

Lemma no_row_no_agency_words snapshotDate db :
  (forall r, In r (historical_snapshots db) -> hs_SnapshotDate r <> snapshotDate) ->
  agencyWordCountsOfSnapshots snapshotDate db = [].
Proof.
  intros Hfresh. unfold agencyWordCountsOfSnapshots.
  apply filter_none. intros awc Hin. apply in_map_iff in Hin.
  destruct Hin as [a [<- _]]. cbn [snd].
  rewrite flat_map_nil; [reflexivity|].
  intros acr _. destruct (acr_AgencyID acr =? a_ID a)%N; [|reflexivity].
  rewrite filter_none; [reflexivity|].
  intros r Hr. destruct (Z.eqb_spec (hs_SnapshotDate r) snapshotDate) as [E|E].
  - exfalso. exact (Hfresh r Hr E).
  - rewrite andb_false_r. reflexivity.
Qed.

(** What one call of [importSnapshotsForDate] does to the store. *)
Lemma importSnapshotsForDate_shape client titles snapshotDate now db :
  let db' := importSnapshotsForDate client titles snapshotDate now db in
  (exists more,
     historical_snapshots db' = historical_snapshots db ++ more
     /\ Forall (dated snapshotDate) more)
  /\ agencies db' = agencies db /\ Store.titles db' = Store.titles db
  /\ agency_cfr_references db' = agency_cfr_references db
  /\ title_contents db' = title_contents db
  /\ agency_checksums db' = agency_checksums db
  /\ (forallb (skipsTitle client snapshotDate) titles = true ->
      (forall r, In r (historical_snapshots db) ->
                 hs_SnapshotDate r <> snapshotDate) ->
      db' = db)
  /\ (forallb (skipsTitle client snapshotDate) titles = false ->
      exists r, In r (historical_snapshots db') /\ dated snapshotDate r).
Proof.
  cbv zeta. unfold importSnapshotsForDate.
  rewrite titleLoop_as_findOrCreate. cbn [fst snd].
  set (total := GoNum.wrap64 (sumZ _)).
  set (loop := fold_left _ titles (historical_snapshots db)).
  set (table := if total >? 0 then _ else loop).
  unfold createAgencySnapshotsFromTitles.
  change (historical_snapshots (with_historical_snapshots ?t db)) with t.
  cbn [agencies Store.titles agency_cfr_references title_contents
       agency_checksums with_historical_snapshots].
  set (counts := agencyWordCountsOfSnapshots snapshotDate _).
  change (fold_left _ counts table)
    with (fold_left (findOrCreateStep (fun _ : N * Z => false)
                       (fun awc => agencyKey snapshotDate (fst awc))
                       (fun awc => mkSnapshot snapshotDate (Some (fst awc)) None
                                              (Some (snd awc)) None now))
                    counts table).
  destruct (loop_dated snapshotDate (skipsTitle client snapshotDate)
              (fun t => titleKey snapshotDate (t_ID t))
              (titleRow client snapshotDate now) titles (historical_snapshots db))
    as [m1 [E1 F1]]; [intros x; reflexivity|].
  fold loop in E1.
  assert (H2 : exists m2, table = loop ++ m2 /\ Forall (dated snapshotDate) m2).
  { unfold table. destruct (total >? 0).
    - apply FirstOrCreate_dated. reflexivity.
    - exists []. rewrite app_nil_r. split; [reflexivity | constructor]. }
  destruct H2 as [m2 [E2 F2]].
  destruct (loop_dated snapshotDate (fun _ : N * Z => false)
              (fun awc => agencyKey snapshotDate (fst awc))
              (fun awc => mkSnapshot snapshotDate (Some (fst awc)) None
                                     (Some (snd awc)) None now)
              counts table)
    as [m3 [E3 F3]]; [intros x; reflexivity|].
  repeat split.
  - exists (m1 ++ m2 ++ m3). rewrite E3, E2, E1, <- !app_assoc.
    split; [reflexivity|]. rewrite !Forall_app. auto.
  - intros Hall Hfresh.
    assert (Hloop : loop = historical_snapshots db).
    { unfold loop. apply loop_stable. apply Forall_forall. intros t Ht.
      left. rewrite forallb_forall in Hall. apply Hall.
      apply list_elem_of_In. exact Ht. }
    assert (Htotal : total = 0).
    { unfold total. rewrite filter_none; [reflexivity|].
      intros t Ht. rewrite forallb_forall in Hall. rewrite (Hall t Ht).
      reflexivity. }
    assert (Htable : table = historical_snapshots db).
    { unfold table. rewrite Htotal. simpl. exact Hloop. }
    unfold counts. rewrite Htable, with_historical_snapshots_same.
    rewrite (no_row_no_agency_words snapshotDate db Hfresh). simpl.
    apply with_historical_snapshots_same.
  - intros Hsome.
    assert (Hex : exists t, In t titles /\ skipsTitle client snapshotDate t = false).
    { clear -Hsome. induction titles as [|t titles IH]; [discriminate|].
      simpl in Hsome. destruct (skipsTitle client snapshotDate t) eqn:Hs.
      - destruct (IH Hsome) as [t' [Hin Hs']]. exists t'. split; [right|]; auto.
      - exists t. split; [left; reflexivity | exact Hs]. }
    destruct Hex as [t [Hin Hs]].
    pose proof (loop_written (skipsTitle client snapshotDate)
                  (fun t => titleKey snapshotDate (t_ID t))
                  (titleRow client snapshotDate now) titles
                  (historical_snapshots db)) as W.
    rewrite Forall_forall in W.
    destruct (W ltac:(intros x; unfold titleKey, titleRow; simpl;
                      rewrite Z.eqb_refl, N.eqb_refl; reflexivity)
                t (proj2 (list_elem_of_In _ _) Hin)) as [Hskip | [r Hr]].
    + congruence.
    + apply find_some in Hr. destruct Hr as [Hr Hk]. exists r. split.
      * rewrite E3, E2. fold loop in Hr. apply in_or_app. left.
        apply in_or_app. left. exact Hr.
      * unfold titleKey in Hk. rewrite !andb_true_iff, Z.eqb_eq in Hk.
        apply Hk.
Qed.

Lemma monthStep_shape client titles now db snapshotDate :
  let db' := monthStep client titles now db snapshotDate in
  (exists more,
     historical_snapshots db' = historical_snapshots db ++ more
     /\ Forall (fun r => dated snapshotDate r
                         /\ forall r0, In r0 (historical_snapshots db) ->
                                       hs_SnapshotDate r0 <> hs_SnapshotDate r)
               more)
  /\ agencies db' = agencies db /\ Store.titles db' = Store.titles db
  /\ agency_cfr_references db' = agency_cfr_references db
  /\ title_contents db' = title_contents db
  /\ agency_checksums db' = agency_checksums db.
Proof.
  cbv zeta. unfold monthStep.
  destruct (List.filter (fun hs => hs_SnapshotDate hs =? snapshotDate)
                        (historical_snapshots db)) as [|r0 rows] eqn:Hf.
  - cbn [length Z.of_nat]. change (0 >? 0) with false. cbv iota.
    pose proof (importSnapshotsForDate_shape client titles snapshotDate now db)
      as H.
    cbv zeta in H. destruct H as ([more [E F]] & Ha & Ht & Hr & Hc & Hk & _).
    repeat split; try assumption.
    exists more. split; [exact E|].
    eapply Forall_impl; [exact F|]. intros r Hd. split; [exact Hd|].
    intros r1 Hin Heq. rewrite Hd in Heq.
    assert (Hin' : In r1 (List.filter (fun hs => hs_SnapshotDate hs =? snapshotDate)
                                      (historical_snapshots db))).
    { apply filter_In. split; [exact Hin | apply Z.eqb_eq; exact Heq]. }
    rewrite Hf in Hin'. destruct Hin'.
  - replace (Z.of_nat (length (r0 :: rows)) >? 0) with true
      by (symmetry; apply Z.gtb_lt; cbn [length]; lia).
    repeat split; try reflexivity.
    exists []. rewrite app_nil_r. split; [reflexivity | constructor].
Qed.

Lemma monthLoop_shape client titles now months db :
  let db' := fold_left (monthStep client titles now) months db in
  (exists more,
     historical_snapshots db' = historical_snapshots db ++ more
     /\ Forall (fun r => In (hs_SnapshotDate r) months
                         /\ forall r0, In r0 (historical_snapshots db) ->
                                       hs_SnapshotDate r0 <> hs_SnapshotDate r)
               more)
  /\ agencies db' = agencies db /\ Store.titles db' = Store.titles db
  /\ agency_cfr_references db' = agency_cfr_references db
  /\ title_contents db' = title_contents db
  /\ agency_checksums db' = agency_checksums db.
Proof.
  cbv zeta. revert db. induction months as [|m months IH]; intros db.
  - simpl. repeat split; try reflexivity.
    exists []. rewrite app_nil_r. split; [reflexivity | constructor].
  - cbn [fold_left].
    pose proof (monthStep_shape client titles now db m) as H1. cbv zeta in H1.
    destruct H1 as ([m1 [E1 F1]] & Ha1 & Ht1 & Hr1 & Hc1 & Hk1).
    destruct (IH (monthStep client titles now db m))
      as ([m2 [E2 F2]] & Ha2 & Ht2 & Hr2 & Hc2 & Hk2).
    repeat split; try congruence.
    exists (m1 ++ m2). rewrite E2, E1, <- app_assoc. split; [reflexivity|].
    apply Forall_app. split.
    + eapply Forall_impl; [exact F1|]. intros r [Hd Hnew]. split.
      * left. symmetry. exact Hd.
      * exact Hnew.
    + eapply Forall_impl; [exact F2|]. intros r [Hd Hnew]. split.
      * right. exact Hd.
      * intros r0 Hin. apply Hnew. rewrite E1. apply in_or_app. left. exact Hin.
Qed.

(** X9.  [ImportHistoricalData] only appends snapshot rows, and only for
    months of its loop that had no snapshot row before: the rows that were
    there stay as they are, every appended row is dated in a month of the
    loop for which the store held no row, and the other tables are
    unchanged. *)
Theorem ImportHistoricalData_fills_empty_months_only
    (client : StructureClient) (months : list Z) (now : Z) (db : DB) :
  let db' := ImportHistoricalData client months now db in
  (exists more,
     historical_snapshots db' = historical_snapshots db ++ more
     /\ Forall (fun r => In (hs_SnapshotDate r) months
                         /\ forall r0, In r0 (historical_snapshots db) ->
                                       hs_SnapshotDate r0 <> hs_SnapshotDate r)
               more)
  /\ agencies db' = agencies db /\ Store.titles db' = Store.titles db
  /\ agency_cfr_references db' = agency_cfr_references db
  /\ title_contents db' = title_contents db
  /\ agency_checksums db' = agency_checksums db.
Proof. apply monthLoop_shape. Qed.

Lemma monthLoop_keeps_rows client titles now months db r :
  In r (historical_snapshots db) ->
  In r (historical_snapshots (fold_left (monthStep client titles now) months db)).
Proof.
  intros Hin.
  destruct (monthLoop_shape client titles now months db) as ([more [E _]] & _).
  rewrite E. apply in_or_app. left. exact Hin.
Qed.

(** A month of the loop ends with a row, or none of its titles has a
    structure. *)
Lemma monthLoop_row_or_skipped client titles now months db m :
  In m months ->
  let db' := fold_left (monthStep client titles now) months db in
  (exists r, In r (historical_snapshots db') /\ dated m r)
  \/ forallb (skipsTitle client m) titles = true.
Proof.
  cbv zeta. revert db. induction months as [|m0 months IH]; intros db Hin;
    [destruct Hin|].
  cbn [fold_left]. destruct Hin as [-> | Hin]; [|apply IH; exact Hin].
  destruct (forallb (skipsTitle client m) titles) eqn:Hall; [right; reflexivity|].
  left.
  assert (H1 : exists r, In r (historical_snapshots (monthStep client titles now db m))
                         /\ dated m r).
  { unfold monthStep.
    destruct (List.filter (fun hs => hs_SnapshotDate hs =? m)
                          (historical_snapshots db)) as [|r0 rows] eqn:Hf.
    - cbn [length Z.of_nat]. change (0 >? 0) with false. cbv iota.
      pose proof (importSnapshotsForDate_shape client titles m now db) as H.
      cbv zeta in H. apply H. exact Hall.
    - replace (Z.of_nat (length (r0 :: rows)) >? 0) with true
        by (symmetry; apply Z.gtb_lt; cbn [length]; lia).
      exists r0.
      assert (Hin0 : In r0 (List.filter (fun hs => hs_SnapshotDate hs =? m)
                                        (historical_snapshots db)))
        by (rewrite Hf; left; reflexivity).
      apply filter_In in Hin0. destruct Hin0 as [Hin0 Hd].
      split; [exact Hin0 | apply Z.eqb_eq; exact Hd]. }
  destruct H1 as [r [Hr Hd]]. exists r. split; [|exact Hd].
  apply monthLoop_keeps_rows. exact Hr.
Qed.

(** X10.  A second [ImportHistoricalData] over the same months, with the
    same answers of the eCFR API, changes nothing. *)
Theorem ImportHistoricalData_rerun_is_noop
    (client : StructureClient) (months : list Z) (now now' : Z) (db : DB) :
  ImportHistoricalData client months now'
    (ImportHistoricalData client months now db)
  = ImportHistoricalData client months now db.
Proof.
  unfold ImportHistoricalData.
  set (titles := List.filter (fun t => negb (t_Reserved t)) (Store.titles db)).
  set (db1 := fold_left (monthStep client titles now) months db).
  assert (Ht : Store.titles db1 = Store.titles db).
  { unfold db1. apply (monthLoop_shape client titles now months db). }
  rewrite Ht. fold titles.
  assert (Hstep : forall m, In m months -> monthStep client titles now' db1 m = db1).
  { intros m Hm. unfold monthStep.
    destruct (List.filter (fun hs => hs_SnapshotDate hs =? m)
                          (historical_snapshots db1)) as [|r0 rows] eqn:Hf.
    - cbn [length Z.of_nat]. change (0 >? 0) with false. cbv iota.
      assert (Hfresh : forall r, In r (historical_snapshots db1) ->
                                 hs_SnapshotDate r <> m).
      { intros r Hr Hd.
        assert (Hin : In r (List.filter (fun hs => hs_SnapshotDate hs =? m)
                                        (historical_snapshots db1))).
        { apply filter_In. split; [exact Hr | apply Z.eqb_eq; exact Hd]. }
        rewrite Hf in Hin. destruct Hin. }
      destruct (monthLoop_row_or_skipped client titles now months db m Hm)
        as [[r [Hr Hd]] | Hall].
      + exfalso. exact (Hfresh r Hr Hd).
      + pose proof (importSnapshotsForDate_shape client titles m now' db1) as H.
        cbv zeta in H. apply H; assumption.
    - replace (Z.of_nat (length (r0 :: rows)) >? 0) with true
        by (symmetry; apply Z.gtb_lt; cbn [length]; lia).
      reflexivity. }
  clearbody db1. clear -Hstep. induction months as [|m months IH]; [reflexivity|].
  cbn [fold_left]. rewrite Hstep by (left; reflexivity).
  apply IH. intros m' Hm'. apply Hstep. right. exact Hm'.
Qed.

Lemma titleKeys_ordered_pairs client snapshotDate now titles :
  NoDup (map t_ID titles) ->
  ForallOrdPairs
    (fun x y => titleKey snapshotDate (t_ID y)
                  (titleRow client snapshotDate now x) = false)
    titles.
Proof.
  induction titles as [|t titles IH]; intros Hnd; simpl; constructor.
  - simpl in Hnd. apply NoDup_cons in Hnd. destruct Hnd as [Hnotin _].
    apply Forall_forall. intros y Hy. unfold titleKey, titleRow. simpl.
    destruct (N.eqb_spec (t_ID t) (t_ID y)) as [E|E].
    + exfalso. apply Hnotin. rewrite E. apply (list_elem_of_fmap_2 t_ID).
      exact Hy.
    + rewrite andb_false_r. reflexivity.
  - apply IH. simpl in Hnd. apply NoDup_cons in Hnd. apply Hnd.
Qed.

(** The table of a month without rows after the loop over the titles and
    the overall snapshot. *)
Lemma titles_and_overall_fresh client titles snapshotDate now table :
  (forall r, In r table -> hs_SnapshotDate r <> snapshotDate) ->
  NoDup (map t_ID titles) ->
  let kept := List.filter (fun t => negb (skipsTitle client snapshotDate t))
                          titles in
  let total := GoNum.wrap64 (sumZ (map (estimate client snapshotDate) kept)) in
  let loop := fold_left (titleStep client snapshotDate now) titles (0, table) in
  fst loop = total
  /\ (if total >? 0
      then snd (FirstOrCreate (overallKey snapshotDate)
                  (mkSnapshot snapshotDate None None (Some total) None now)
                  (snd loop))
      else snd loop)
     = table ++ map (titleRow client snapshotDate now) kept
       ++ (if total >? 0
           then [mkSnapshot snapshotDate None None (Some total) None now]
           else []).
Proof.
  intros Hfresh Hnd. cbv zeta. rewrite titleLoop_as_findOrCreate. cbn [fst snd].
  split; [reflexivity|].
  set (kept := List.filter _ titles).
  set (total := GoNum.wrap64 _).
  rewrite loop_appends.
  - fold kept. destruct (total >? 0).
    + rewrite FirstOrCreate_created; [cbn [snd]; rewrite <- app_assoc; reflexivity|].
      destruct (find _ _) as [r|] eqn:E; [|reflexivity]. exfalso.
      apply find_some in E. destruct E as [Hin Hk].
      unfold overallKey in Hk. rewrite !andb_true_iff, Z.eqb_eq in Hk.
      destruct Hk as [[Hd _] Hnull].
      apply in_app_or in Hin. destruct Hin as [Hin | Hin].
      * exact (Hfresh r Hin Hd).
      * apply in_map_iff in Hin. destruct Hin as [t [<- _]]. discriminate.
    + rewrite app_nil_r. reflexivity.
  - intros t r _ Hr. unfold titleKey.
    destruct (Z.eqb_spec (hs_SnapshotDate r) snapshotDate) as [E|E];
      [exfalso; exact (Hfresh r Hr E) | reflexivity].
  - apply titleKeys_ordered_pairs. exact Hnd.
Qed.

(** X11.  For a month without snapshot rows and a list of titles with
    distinct ids, [importSnapshotsForDate] gives every title whose
    structure was fetched with a size other than 0 one snapshot, with the
    size divided by 5 (rounded toward zero) as its word count, in the
    order of the titles, and no other title a snapshot.  The overall
    snapshot holds the total of the loop, which is the sum of these
    estimates wrapped around as an [int64], and exists only when that
    total is positive; a sum that an [int64] holds is the total. *)
Theorem importSnapshotsForDate_estimates (client : StructureClient)
    (titles : list Title) (snapshotDate now : Z) (db : DB) :
  (forall r, In r (historical_snapshots db) -> hs_SnapshotDate r <> snapshotDate) ->
  NoDup (map t_ID titles) ->
  let table :=
    historical_snapshots (importSnapshotsForDate client titles snapshotDate now db) in
  let kept := List.filter (fun t => negb (skipsTitle client snapshotDate t))
                          titles in
  let estimates := sumZ (map (estimate client snapshotDate) kept) in
  let total := GoNum.wrap64 estimates in
  List.filter (isTitleSnapshot snapshotDate) table
  = map (titleRow client snapshotDate now) kept
  /\ List.filter (overallKey snapshotDate) table
     = (if total >? 0
        then [mkSnapshot snapshotDate None None (Some total) None now]
        else [])
  /\ sumZ (map snapshotWords (List.filter (isTitleSnapshot snapshotDate) table))
     = estimates
  /\ (- 9223372036854775808 <= estimates < 9223372036854775808 ->
      total = estimates).
Proof.
  intros Hfresh Hnd. cbv zeta.
  set (kept := List.filter _ titles).
  set (total := GoNum.wrap64 _).
  assert (Htitles :
    List.filter (isTitleSnapshot snapshotDate)
      (historical_snapshots (importSnapshotsForDate client titles snapshotDate now db))
    = map (titleRow client snapshotDate now) kept
    /\ List.filter (overallKey snapshotDate)
         (historical_snapshots
            (importSnapshotsForDate client titles snapshotDate now db))
       = (if total >? 0
          then [mkSnapshot snapshotDate None None (Some total) None now]
          else [])).
  { unfold importSnapshotsForDate.
    pose proof (titles_and_overall_fresh client titles snapshotDate now
                  (historical_snapshots db) Hfresh Hnd) as H.
    cbv zeta in H. fold kept in H. fold total in H.
    destruct (fold_left (titleStep client snapshotDate now) titles
                        (0, historical_snapshots db)) as [totalWords loop].
    cbn [fst snd] in H. destruct H as [-> H]. rewrite H. clear H.
    unfold createAgencySnapshotsFromTitles.
    set (counts := agencyWordCountsOfSnapshots snapshotDate _).
    repeat change (historical_snapshots (with_historical_snapshots ?t ?d)) with t.
    destruct (loop_rows_from (fun _ : N * Z => false)
                (fun awc => agencyKey snapshotDate (fst awc))
                (fun awc => mkSnapshot snapshotDate (Some (fst awc)) None
                                       (Some (snd awc)) None now)
                counts
                (historical_snapshots db
                 ++ map (titleRow client snapshotDate now) kept
                 ++ (if total >? 0
                     then [mkSnapshot snapshotDate None None (Some total) None now]
                     else [])))
      as [agencyRows [E F]].
    unfold findOrCreateStep in E. cbv iota in E. rewrite E. clear E.
    assert (Hag : forall r, In r agencyRows -> exists a, hs_AgencyID r = Some a).
    { intros r Hr. rewrite Forall_forall in F.
      destruct (F r (proj2 (list_elem_of_In _ _) Hr)) as [x [_ ->]].
      simpl. eauto. }
    rewrite !List.filter_app.
    rewrite (filter_none (isTitleSnapshot snapshotDate) (historical_snapshots db)).
    2:{ intros r Hr. unfold isTitleSnapshot.
        destruct (Z.eqb_spec (hs_SnapshotDate r) snapshotDate) as [E|E];
          [exfalso; exact (Hfresh r Hr E) | reflexivity]. }
    rewrite (filter_none (overallKey snapshotDate) (historical_snapshots db)).
    2:{ intros r Hr. unfold overallKey.
        destruct (Z.eqb_spec (hs_SnapshotDate r) snapshotDate) as [E|E];
          [exfalso; exact (Hfresh r Hr E) | reflexivity]. }
    rewrite (filter_none (isTitleSnapshot snapshotDate) agencyRows).
    2:{ intros r Hr. destruct (Hag r Hr) as [a Ha]. unfold isTitleSnapshot.
        rewrite Ha. simpl. rewrite andb_false_r. reflexivity. }
    rewrite (filter_none (overallKey snapshotDate) agencyRows).
    2:{ intros r Hr. destruct (Hag r Hr) as [a Ha]. unfold overallKey.
        rewrite Ha. simpl. rewrite andb_false_r. reflexivity. }
    rewrite (filter_all (isTitleSnapshot snapshotDate)
               (map (titleRow client snapshotDate now) kept)).
    2:{ intros r Hr. apply in_map_iff in Hr. destruct Hr as [t [<- _]].
        unfold isTitleSnapshot, titleRow. simpl. rewrite Z.eqb_refl. reflexivity. }
    rewrite (filter_none (overallKey snapshotDate)
               (map (titleRow client snapshotDate now) kept)).
    2:{ intros r Hr. apply in_map_iff in Hr. destruct Hr as [t [<- _]].
        unfold overallKey, titleRow. simpl. rewrite andb_false_r. reflexivity. }
    rewrite !app_nil_r. cbn [app].
    destruct (total >? 0); cbn [List.filter].
    - unfold overallKey, isTitleSnapshot. simpl. rewrite Z.eqb_refl. simpl.
      rewrite app_nil_r. split; reflexivity.
    - rewrite app_nil_r. split; reflexivity. }
  destruct Htitles as [H1 H2].
  split; [exact H1 | split; [exact H2 | split]].
  - rewrite H1, map_map. reflexivity.
  - apply wrap64_small.
Qed.

Lemma importSnapshotsForDate_estimates_witness :
  let client : StructureClient :=
    fun number _ => if number =? 10 then Some 1234
                    else if number =? 12 then Some 0
                    else if number =? 14 then Some 4 else None in
  let titles := [mkTitle 1 10 "Energy" false; mkTitle 2 12 "Banks" false;
                 mkTitle 3 14 "Aeronautics" false; mkTitle 4 16 "Trade" false] in
  let db := mkDB [mkAgency 7 "Office of Examples" "office-examples" None]
                 titles [mkReference 7 1 None] []
                 [mkSnapshot 0 None None (Some 4) None 5] ∅ in
  let table :=
    historical_snapshots (importSnapshotsForDate client titles 86400 90000 db) in
  List.filter (isTitleSnapshot 86400) table
  = [mkSnapshot 86400 None (Some 1%N) (Some 246) None 90000;
     mkSnapshot 86400 None (Some 3%N) (Some 0) None 90000]
  /\ List.filter (overallKey 86400) table
     = [mkSnapshot 86400 None None (Some 246) None 90000]
  /\ sumZ (map snapshotWords (List.filter (isTitleSnapshot 86400) table)) = 246
  /\ (- 9223372036854775808 <= 246 < 9223372036854775808 ->
      GoNum.wrap64 246 = 246).
Proof.
  cbv zeta.
  apply (importSnapshotsForDate_estimates
           (fun number _ => if number =? 10 then Some 1234
                            else if number =? 12 then Some 0
                            else if number =? 14 then Some 4 else None)
           [mkTitle 1 10 "Energy" false; mkTitle 2 12 "Banks" false;
            mkTitle 3 14 "Aeronautics" false; mkTitle 4 16 "Trade" false]
           86400 90000).
  - simpl. intros r [<- | []]. simpl. lia.
  - apply (bool_decide_unpack _). reflexivity.
Defined.



(** Six titles with a structure of 2^63 - 1 characters each: the estimates
    add up to more than an [int64] holds, the total wraps around to a
    negative number, and the month gets its six title snapshots and no
    overall snapshot. *)
Example total_wraps_around :
  let client : StructureClient := fun _ _ => Some 9223372036854775807 in
  let titles :=
    map (fun n => mkTitle (Z.to_N n) n "Title" false) [1; 2; 3; 4; 5; 6] in
  let table :=
    historical_snapshots
      (importSnapshotsForDate client titles 86400 90000
         (mkDB [] titles [] [] [] ∅)) in
  map snapshotWords (List.filter (isTitleSnapshot 86400) table)
  = repeat 1844674407370955161 6
  /\ List.filter (overallKey 86400) table = []
  /\ GoNum.wrap64 (6 * 1844674407370955161) = -7378697629483820650.
Proof. vm_compute. repeat split. Qed.



End HistoricalImportFacts.

(** ** The handler of the titles *)

Section TitlesHandlerFacts.
Import Store Handlers.

Lemma insertTitleByNumber_Permutation t rows :
  insertTitleByNumber t rows ≡ₚ t :: rows.
Proof.
  induction rows as [|x rows IH]; simpl; [reflexivity|].
  destruct (t_Number t <=? t_Number x); [reflexivity|].
  rewrite IH. apply Permutation_swap.
Qed.

Lemma orderTitlesByNumber_Permutation rows : orderTitlesByNumber rows ≡ₚ rows.
Proof.
  induction rows as [|t rows IH]; simpl; [reflexivity|].
  rewrite insertTitleByNumber_Permutation, IH. reflexivity.
Qed.

Lemma insertTitleByNumber_sorted t rows :
  StronglySorted (fun x y => t_Number x <= t_Number y) rows ->
  StronglySorted (fun x y => t_Number x <= t_Number y)
                 (insertTitleByNumber t rows).
Proof.
  induction 1 as [|x rows Hs IH Hx]; simpl.
  - repeat constructor.
  - destruct (Z.leb_spec (t_Number t) (t_Number x)) as [Hle|Hgt].
    + constructor; [constructor; assumption|].
      constructor; [exact Hle|].
      eapply Forall_impl; [exact Hx|]. intros y Hy. simpl in *. lia.
    + constructor; [exact IH|].
      rewrite (insertTitleByNumber_Permutation t rows).
      constructor; [lia | exact Hx].
Qed.

Lemma orderTitlesByNumber_sorted rows :
  StronglySorted (fun x y => t_Number x <= t_Number y) (orderTitlesByNumber rows).
Proof.
  induction rows as [|t rows IH]; simpl; [constructor|].
  apply insertTitleByNumber_sorted. exact IH.
Qed.

Lemma insertByTitleDate_Permutation r rows :
  insertByTitleDate r rows ≡ₚ r :: rows.
Proof.
  induction rows as [|x rows IH]; simpl; [reflexivity|].
  destruct (titleDateLe r x); [reflexivity|].
  rewrite IH. apply Permutation_swap.
Qed.

Lemma orderByTitleDate_Permutation rows : orderByTitleDate rows ≡ₚ rows.
Proof.
  induction rows as [|r rows IH]; simpl; [reflexivity|].
  rewrite insertByTitleDate_Permutation, IH. reflexivity.
Qed.

Lemma titleDateLe_total x y : titleDateLe x y = false -> titleDateLe y x = true.
Proof.
  unfold titleDateLe. intros H.
  apply orb_false_iff in H. destruct H as [H1 H2].
  apply N.ltb_ge in H1.
  destruct (N.eqb_spec (tc_TitleID x) (tc_TitleID y)) as [E|E].
  - simpl in H2. apply Z.leb_gt in H2.
    rewrite E, N.eqb_refl, N.ltb_irrefl. simpl. apply Z.leb_le. lia.
  - assert (Hlt : (tc_TitleID y < tc_TitleID x)%N) by lia.
    rewrite (proj2 (N.ltb_lt _ _) Hlt). reflexivity.
Qed.

Lemma titleDateLe_trans x y z :
  titleDateLe x y = true -> titleDateLe y z = true -> titleDateLe x z = true.
Proof.
  unfold titleDateLe. rewrite !orb_true_iff, !andb_true_iff, !N.ltb_lt,
    !N.eqb_eq, !Z.leb_le.
  intros [H1 | [H1 H1']] [H2 | [H2 H2']].
  - left. lia.
  - left. lia.
  - left. lia.
  - right. split; [congruence | lia].
Qed.

Lemma insertByTitleDate_sorted r rows :
  StronglySorted (fun x y => titleDateLe x y = true) rows ->
  StronglySorted (fun x y => titleDateLe x y = true) (insertByTitleDate r rows).
Proof.
  induction 1 as [|x rows Hs IH Hx]; simpl.
  - repeat constructor.
  - destruct (titleDateLe r x) eqn:Hle.
    + constructor; [constructor; assumption|].
      constructor; [exact Hle|].
      eapply Forall_impl; [exact Hx|]. intros y Hy. simpl in *.
      eapply titleDateLe_trans; eassumption.
    + constructor; [exact IH|].
      rewrite (insertByTitleDate_Permutation r rows).
      constructor; [apply titleDateLe_total; exact Hle | exact Hx].
Qed.

Lemma orderByTitleDate_sorted rows :
  StronglySorted (fun x y => titleDateLe x y = true) (orderByTitleDate rows).
Proof.
  induction rows as [|r rows IH]; simpl; [constructor|].
  apply insertByTitleDate_sorted. exact IH.
Qed.

(** Every row that [DISTINCT ON] keeps is the latest of its title. *)
Lemma distinctOnTitle_latest rows previous r :
  StronglySorted (fun x y => titleDateLe x y = true) rows ->
  (forall p x, previous = Some p -> In x rows -> (p <= tc_TitleID x)%N) ->
  In r (distinctOnTitle previous rows) ->
  In r rows
  /\ (forall y, In y rows -> tc_TitleID y = tc_TitleID r ->
                tc_ContentDate y <= tc_ContentDate r)
  /\ (forall p, previous = Some p -> (p < tc_TitleID r)%N).
Proof.
  intros Hs. revert previous. induction Hs as [|r0 rest Hs IH Hr0];
    intros previous Hprev Hin; [destruct Hin|].
  rewrite Forall_forall in Hr0.
  assert (Hge : forall x, In x rest -> (tc_TitleID r0 <= tc_TitleID x)%N).
  { intros x Hx. specialize (Hr0 x (proj2 (list_elem_of_In _ _) Hx)).
    unfold titleDateLe in Hr0.
    rewrite orb_true_iff, andb_true_iff, N.ltb_lt, N.eqb_eq in Hr0. lia. }
  cbn [distinctOnTitle] in Hin.
  destruct (eqb_opt previous (tc_TitleID r0)) eqn:Hp.
  - apply eqb_opt_true in Hp.
    destruct (IH previous) with (1 := fun p x E Hx => Hprev p x E (or_intror Hx))
                                (2 := Hin) as (H1 & H2 & H3).
    split; [right; exact H1|]. split; [|exact H3].
    intros y [<- | Hy] Hsame; [|apply H2; assumption].
    specialize (H3 _ Hp). lia.
  - destruct Hin as [<- | Hin].
    + split; [left; reflexivity|]. split.
      * intros y [<- | Hy] Hsame; [lia|].
        specialize (Hr0 y (proj2 (list_elem_of_In _ _) Hy)).
        unfold titleDateLe in Hr0.
        rewrite orb_true_iff, andb_true_iff, N.ltb_lt, N.eqb_eq, Z.leb_le in Hr0.
        destruct Hr0 as [Hlt | [_ Hle]]; [lia | exact Hle].
      * intros p E. specialize (Hprev p r0 E (or_introl eq_refl)).
        assert (p <> tc_TitleID r0).
        { intros ->. subst previous. simpl in Hp. rewrite N.eqb_refl in Hp.
          discriminate. }
        lia.
    + destruct (IH (Some (tc_TitleID r0)))
        with (1 := fun p x (E : Some (tc_TitleID r0) = Some p) Hx =>
                     eq_ind _ (fun q => (q <= tc_TitleID x)%N) (Hge x Hx) _
                            (f_equal (fun o => match o with Some q => q
                                                       | None => tc_TitleID r0 end) E))
             (2 := Hin) as (H1 & H2 & H3).
      split; [right; exact H1|]. split.
      * intros y [<- | Hy] Hsame; [|apply H2; assumption].
        specialize (H3 _ eq_refl). lia.
      * intros p E. specialize (Hprev p r0 E (or_introl eq_refl)).
        specialize (H3 _ eq_refl). lia.
Qed.

(** Every title with a row has a row that [DISTINCT ON] keeps. *)
Lemma distinctOnTitle_covers rows previous x :
  In x rows ->
  In (tc_TitleID x) (map tc_TitleID (distinctOnTitle previous rows))
  \/ previous = Some (tc_TitleID x).
Proof.
  revert previous. induction rows as [|r0 rest IH]; intros previous Hin;
    [destruct Hin|].
  cbn [distinctOnTitle].
  destruct (eqb_opt previous (tc_TitleID r0)) eqn:Hp.
  - apply eqb_opt_true in Hp. destruct Hin as [<- | Hin]; [right; exact Hp|].
    apply IH. exact Hin.
  - destruct Hin as [<- | Hin]; [left; left; reflexivity|].
    destruct (IH (Some (tc_TitleID r0)) Hin) as [H | H].
    + left. right. exact H.
    + left. left. congruence.
Qed.

Lemma fold_insert_lookup (rows : list TitleContent) (m : gmap N TitleContent) id :
  (fold_left (fun m metric => <[tc_TitleID metric := metric]> m) rows m !! id
   = m !! id /\ ~ In id (map tc_TitleID rows))
  \/ exists r, In r rows /\ tc_TitleID r = id
               /\ fold_left (fun m metric => <[tc_TitleID metric := metric]> m)
                            rows m !! id = Some r.
Proof.
  revert m. induction rows as [|r0 rest IH]; intros m.
  - left. split; [reflexivity | intros []].
  - cbn [fold_left]. destruct (IH (<[tc_TitleID r0 := r0]> m)) as [[E Hnot] | H].
    + destruct (N.eq_dec (tc_TitleID r0) id) as [Heq | Hne].
      * right. exists r0. split; [left; reflexivity|]. split; [exact Heq|].
        rewrite E, <- Heq. apply lookup_insert_eq.
      * left. split.
        -- rewrite E. apply lookup_insert_ne. exact Hne.
        -- intros [H | H]; [exact (Hne H) | exact (Hnot H)].
    + destruct H as [r [Hin [Hid E]]]. right. exists r.
      split; [right; exact Hin|]. split; assumption.
Qed.

Lemma metricsMap_lookup db id :
  match metricsMap db !! id with
  | Some m => tc_TitleID m = id /\ latestOfTitle db m
  | None => forall tc, In tc (title_contents db) -> tc_TitleID tc <> id
  end.
Proof.
  unfold metricsMap, titleMetrics.
  set (sorted := orderByTitleDate (title_contents db)).
  assert (Hperm : forall x, In x sorted <-> In x (title_contents db)).
  { intros x. unfold sorted. rewrite <- !list_elem_of_In.
    rewrite (orderByTitleDate_Permutation (title_contents db)). reflexivity. }
  destruct (fold_insert_lookup (distinctOnTitle None sorted) ∅ id)
    as [[E Hnot] | [r [Hin [Hid E]]]].
  - rewrite E, lookup_empty. intros tc Htc Heq. apply Hnot.
    destruct (distinctOnTitle_covers sorted None tc (proj2 (Hperm tc) Htc))
      as [H | H]; [|discriminate].
    rewrite <- Heq. exact H.
  - rewrite E. split; [exact Hid|].
    destruct (distinctOnTitle_latest sorted None r
                (orderByTitleDate_sorted _)
                ltac:(intros p x Hp; discriminate) Hin) as (H1 & H2 & _).
    split; [apply Hperm; exact H1|].
    intros other Ho. apply H2. apply Hperm. exact Ho.
Qed.

(** X13.  [TitlesHandler] lists every title once, in ascending title
    number; a title without a content row is listed with 0 words and no
    checksum, and any other title with the word count (0 for NULL) and
    the checksum of one of its content rows of the latest content date. *)
Theorem TitlesHandler_lists_latest_content (db : DB) :
  map twm_ID (TitlesHandler db) ≡ₚ map t_ID (titles db)
  /\ StronglySorted Z.le (map twm_Number (TitlesHandler db))
  /\ Forall (fun entry =>
       ((forall tc, In tc (title_contents db) -> tc_TitleID tc <> twm_ID entry)
        /\ twm_WordCount entry = 0 /\ twm_Checksum entry = None)
       \/ exists tc,
            latestOfTitle db tc /\ tc_TitleID tc = twm_ID entry
            /\ twm_WordCount entry
               = match tc_WordCount tc with Some n => n | None => 0 end
            /\ twm_Checksum entry = tc_Checksum tc)
       (TitlesHandler db).
Proof.
  unfold TitlesHandler. repeat split.
  - rewrite map_map.
    rewrite (map_ext _ t_ID).
    + rewrite (orderTitlesByNumber_Permutation (titles db)). reflexivity.
    + intros t. unfold titleWithMetrics. destruct (metricsMap db !! t_ID t);
        reflexivity.
  - rewrite map_map. rewrite (map_ext _ t_Number).
    + pose proof (orderTitlesByNumber_sorted (titles db)) as Hs.
      induction Hs as [|x rows Hs IH Hx]; simpl; constructor; [exact IH|].
      apply Forall_map. exact Hx.
    + intros t. unfold titleWithMetrics. destruct (metricsMap db !! t_ID t);
        reflexivity.
  - apply Forall_map. apply Forall_forall. intros t _.
    unfold titleWithMetrics. pose proof (metricsMap_lookup db (t_ID t)) as H.
    destruct (metricsMap db !! t_ID t) as [m|].
    + right. exists m. destruct H as [Hid Hlatest]. simpl. auto.
    + left. simpl. auto.
Qed.

End TitlesHandlerFacts.

(** ** The handlers of the agency metrics *)

Section MetricsFacts.
Import Store Historical Cache Metrics.

Lemma insertByWordCount_Permutation r rows :
  insertByWordCount r rows ≡ₚ r :: rows.
Proof.
  induction rows as [|x rows IH]; simpl; [reflexivity|].
  destruct (am_WordCount x <=? am_WordCount r); [reflexivity|].
  rewrite IH. apply Permutation_swap.
Qed.

Lemma orderByWordCount_Permutation rows : orderByWordCount rows ≡ₚ rows.
Proof.
  induction rows as [|r rows IH]; simpl; [reflexivity|].
  rewrite insertByWordCount_Permutation, IH. reflexivity.
Qed.

Lemma insertByWordCount_sorted r rows :
  StronglySorted (fun x y => am_WordCount y <= am_WordCount x) rows ->
  StronglySorted (fun x y => am_WordCount y <= am_WordCount x)
                 (insertByWordCount r rows).
Proof.
  induction 1 as [|x rows Hs IH Hx]; simpl.
  - repeat constructor.
  - destruct (Z.leb_spec (am_WordCount x) (am_WordCount r)) as [Hle|Hgt].
    + constructor; [constructor; assumption|].
      constructor; [exact Hle|].
      eapply Forall_impl; [exact Hx|]. intros y Hy. simpl in *. lia.
    + constructor; [exact IH|].
      rewrite (insertByWordCount_Permutation r rows).
      constructor; [lia | exact Hx].
Qed.

Lemma orderByWordCount_sorted rows :
  StronglySorted (fun x y => am_WordCount y <= am_WordCount x)
                 (orderByWordCount rows).
Proof.
  induction rows as [|r rows IH]; simpl; [constructor|].
  apply insertByWordCount_sorted. exact IH.
Qed.

Lemma insertByWordCount_front r rows :
  (forall y, In y rows -> am_WordCount y <= am_WordCount r) ->
  insertByWordCount r rows = r :: rows.
Proof.
  destruct rows as [|y rows]; intros H; [reflexivity|].
  cbn [insertByWordCount].
  rewrite (proj2 (Z.leb_le _ _) (H y (or_introl eq_refl))). reflexivity.
Qed.

(** Leaving out the groups without words and ordering the rest is
    ordering all and leaving those out. *)
Lemma filter_insertByWordCount r rows :
  StronglySorted (fun x y => am_WordCount y <= am_WordCount x) rows ->
  List.filter (fun m => am_WordCount m >? 0) (insertByWordCount r rows)
  = if am_WordCount r >? 0
    then insertByWordCount r (List.filter (fun m => am_WordCount m >? 0) rows)
    else List.filter (fun m => am_WordCount m >? 0) rows.
Proof.
  induction 1 as [|x rows Hs IH Hx].
  - simpl. destruct (am_WordCount r >? 0); reflexivity.
  - cbn [insertByWordCount].
    destruct (Z.leb_spec (am_WordCount x) (am_WordCount r)) as [Hle|Hgt].
    + change (List.filter ?f (r :: ?l))
        with (if f r then r :: List.filter f l else List.filter f l).
      cbv beta. destruct (am_WordCount r >? 0); [|reflexivity].
      rewrite insertByWordCount_front; [reflexivity|].
      intros y Hy. apply filter_In in Hy. destruct Hy as [[<- | Hy] _]; [exact Hle|].
      rewrite Forall_forall in Hx.
      specialize (Hx y (proj2 (list_elem_of_In _ _) Hy)). simpl in Hx. lia.
    + cbn [List.filter]. rewrite IH.
      destruct (Z.gtb_spec (am_WordCount r) 0) as [Hr|Hr].
      * destruct (Z.gtb_spec (am_WordCount x) 0) as [_|Hx0]; [|lia].
        cbn [insertByWordCount].
        rewrite (proj2 (Z.leb_gt _ _) Hgt). reflexivity.
      * reflexivity.
Qed.

Lemma filter_orderByWordCount rows :
  List.filter (fun m => am_WordCount m >? 0) (orderByWordCount rows)
  = orderByWordCount (List.filter (fun m => am_WordCount m >? 0) rows).
Proof.
  induction rows as [|r rows IH]; [reflexivity|].
  cbn [orderByWordCount fold_right].
  rewrite filter_insertByWordCount by apply orderByWordCount_sorted.
  fold (orderByWordCount rows). rewrite IH. cbn [List.filter].
  destruct (am_WordCount r >? 0); reflexivity.
Qed.

Lemma List_filter_Permutation {A : Type} (p : A -> bool) (l l' : list A) :
  l ≡ₚ l' -> List.filter p l ≡ₚ List.filter p l'.
Proof.
  induction 1 as [|x l l' Hp IH|x y l|l l' l'' _ IH1 _ IH2]; cbn [List.filter].
  - reflexivity.
  - destruct (p x); [constructor|]; exact IH.
  - destruct (p x), (p y); try reflexivity. apply perm_swap.
  - etransitivity; eassumption.
Qed.

Lemma agencyMetrics_Permutation o db :
  agencyMetrics o db ≡ₚ map (groupOfAgency db) (agencies db).
Proof.
  unfold agencyMetrics. rewrite orderByWordCount_Permutation.
  apply readIn_Permutation.
Qed.

Lemma map_sorted_by_words {A : Type} (words : A -> Z) (f : AgencyMetrics -> A)
    rows :
  (forall m, words (f m) = am_WordCount m) ->
  StronglySorted (fun x y => y <= x)
                 (map words (map f (orderByWordCount rows))).
Proof.
  intros Hw. rewrite map_map.
  pose proof (orderByWordCount_sorted rows) as Hs.
  induction Hs as [|x sorted Hs IH Hx]; simpl; constructor; [exact IH|].
  apply Forall_map. eapply Forall_impl; [exact Hx|].
  intros y Hy. rewrite !Hw. exact Hy.
Qed.

(** The checksum of an entry does not depend on the read order, nor on
    which other agencies are asked for in the same batch, when the agency
    is served one checksum. *)
Lemma checksumPointer_any_batch o o' db agencyIDs agencyIDs' agencyID :
  In agencyID agencyIDs -> In agencyID agencyIDs' ->
  oneChecksum db agencyID ->
  checksumPointer (getCachedAgencyChecksums o db agencyIDs) agencyID
  = checksumPointer (getCachedAgencyChecksums o' db agencyIDs') agencyID.
Proof.
  intros H H' Hone. unfold checksumPointer.
  rewrite !getCachedAgencyChecksums_determined by assumption.
  reflexivity.
Qed.

(** X14.  [AgenciesHandler] lists every agency once, by descending word
    count.  [AgencyChecksumsHandler] lists, by descending word count, the
    agencies with a positive word count: its entries are, up to their
    order, the entries of that kind of [AgenciesHandler], with the same
    name, slug, word count and title count, and with the same checksum as
    well when every agency is served one checksum, that is, has a record
    or has one checksum a title number.  Each handler leaves the order of
    agencies with equal word counts to the store. *)
Theorem AgencyChecksumsHandler_lists_agencies_with_words
    (om oc om' oc' : ReadOrder) (db : DB) :
  let all := AgenciesHandler om oc db in
  let listed := AgencyChecksumsHandler om' oc' db in
  map awm_ID all ≡ₚ map a_ID (agencies db)
  /\ StronglySorted (fun x y => y <= x) (map awm_WordCount all)
  /\ StronglySorted (fun x y => y <= x) (map aci_WordCount listed)
  /\ map countsOf listed
     ≡ₚ map countsOf
          (map infoOf (List.filter (fun e => awm_WordCount e >? 0) all))
  /\ ((forall a, In a (agencies db) -> oneChecksum db (a_ID a)) ->
      listed
      ≡ₚ map infoOf (List.filter (fun e => awm_WordCount e >? 0) all)).
Proof.
  cbv zeta.
  unfold AgenciesHandler, agenciesWithMetrics, AgencyChecksumsHandler. cbv zeta.
  set (groups := map (groupOfAgency db) (agencies db)).
  set (positive := fun m => am_WordCount m >? 0).
  set (all := getCachedAgencyChecksums oc db _).
  set (some := getCachedAgencyChecksums oc' db _).
  set (entry := fun m =>
         mkAgencyWithMetrics (am_ID m) (am_Name m) (am_Slug m) (am_WordCount m)
           (percentOfTotal (am_WordCount m) (totalWords db)) (am_TitleCount m)
           (checksumPointer all (am_ID m)) (am_ParentID m)).
  set (info := fun m =>
         mkAgencyChecksumInfo (am_ID m) (am_Name m) (am_Slug m)
           (checksumPointer some (am_ID m)) (am_WordCount m) (am_TitleCount m)).
  assert (Hfilter : forall l,
            List.filter (fun e => awm_WordCount e >? 0) (map entry l)
            = map entry (List.filter positive l)).
  { intros l. induction l as [|m ms IH]; [reflexivity|].
    cbn [map List.filter]. unfold positive at 1. cbn [awm_WordCount entry].
    rewrite IH. destruct (am_WordCount m >? 0); reflexivity. }
  assert (Hperm : orderByWordCount (readIn om' (List.filter positive groups))
                  ≡ₚ List.filter positive (agencyMetrics om db)).
  { rewrite orderByWordCount_Permutation, readIn_Permutation.
    apply List_filter_Permutation. symmetry. apply agencyMetrics_Permutation. }
  split; [|split; [|split; [|split]]].
  - rewrite map_map. cbn [awm_ID entry].
    change (map (fun x => am_ID x) (agencyMetrics om db))
      with (am_ID <$> agencyMetrics om db).
    rewrite (agencyMetrics_Permutation om db).
    unfold groups. change (am_ID <$> map ?f ?l) with (map am_ID (map f l)).
    rewrite map_map. reflexivity.
  - apply (map_sorted_by_words awm_WordCount entry). reflexivity.
  - apply (map_sorted_by_words aci_WordCount info). reflexivity.
  - rewrite Hfilter, !map_map.
    change (map (fun x => countsOf (info x)) ?l)
      with ((fun x => countsOf (info x)) <$> l).
    rewrite Hperm. reflexivity.
  - intros Hone. rewrite Hfilter, map_map.
    change (map info ?l) with (info <$> l). rewrite Hperm.
    change (info <$> ?l) with (map info l).
    match goal with
    | |- map info ?X ≡ₚ _ =>
        enough (E : map info X = map (fun m => infoOf (entry m)) X)
          by (rewrite E; reflexivity)
    end.
    apply map_ext_in. intros m Hm.
    apply filter_In in Hm. destruct Hm as [Hm Hpos].
    assert (Hg : In m (map (groupOfAgency db) (agencies db))).
    { apply list_elem_of_In. rewrite <- (agencyMetrics_Permutation om db).
      apply list_elem_of_In. exact Hm. }
    apply in_map_iff in Hg. destruct Hg as [a [<- Ha]].
    unfold info, entry, infoOf. cbn. f_equal.
    apply checksumPointer_any_batch.
    + apply in_map_iff. exists (groupOfAgency db a). split; [reflexivity|].
      apply list_elem_of_In. rewrite orderByWordCount_Permutation, readIn_Permutation.
      apply list_elem_of_In. apply filter_In. split; [|exact Hpos].
      apply in_map. exact Ha.
    + apply in_map_iff. exists (groupOfAgency db a). split; [reflexivity|].
      exact Hm.
    + apply Hone. exact Ha.
Qed.

Lemma sumZ_app a b : sumZ (a ++ b) = sumZ a + sumZ b.
Proof.
  unfold sumZ. induction a as [|x a IH]; simpl; [reflexivity|]. rewrite IH. lia.
Qed.

Lemma sumZ_cons x a : sumZ (x :: a) = x + sumZ a.
Proof. reflexivity. Qed.

Lemma sumZ_map_flat_map {A B : Type} (g : B -> Z) (f : A -> list B) l :
  sumZ (map g (flat_map f l)) = sumZ (map (fun x => sumZ (map g (f x))) l).
Proof.
  induction l as [|x l IH]; [reflexivity|].
  cbn [flat_map map]. rewrite map_app, sumZ_app, sumZ_cons, IH. reflexivity.
Qed.

Lemma sumZ_map_filter {A : Type} (g : A -> Z) (p : A -> bool) l :
  sumZ (map g (List.filter p l))
  = sumZ (map (fun x => if p x then g x else 0) l).
Proof.
  induction l as [|x l IH]; [reflexivity|].
  cbn [List.filter map]. destruct (p x); cbn [map]; rewrite !sumZ_cons, ?IH;
    reflexivity.
Qed.

Lemma sumZ_map_ext {A : Type} (f g : A -> Z) l :
  (forall x, In x l -> f x = g x) -> sumZ (map f l) = sumZ (map g l).
Proof.
  intros H. f_equal. apply map_ext_in. exact H.
Qed.

Lemma sumZ_map_le {A : Type} (f g : A -> Z) l :
  (forall x, In x l -> f x <= g x) -> sumZ (map f l) <= sumZ (map g l).
Proof.
  induction l as [|x l IH]; intros H; [reflexivity|].
  cbn [map]. rewrite !sumZ_cons.
  specialize (H x (or_introl eq_refl)) as Hx.
  assert (sumZ (map f l) <= sumZ (map g l)).
  { apply IH. intros y Hy. apply H. right. exact Hy. }
  lia.
Qed.

Lemma sumZ_map_zero {A : Type} (l : list A) : sumZ (map (fun _ => 0) l) = 0.
Proof. induction l as [|x l IH]; [reflexivity|]. cbn [map]. rewrite sumZ_cons, IH. lia. Qed.

Lemma sumZ_map_add {A : Type} (f g : A -> Z) l :
  sumZ (map (fun x => f x + g x) l) = sumZ (map f l) + sumZ (map g l).
Proof.
  induction l as [|x l IH]; [reflexivity|].
  cbn [map]. rewrite !sumZ_cons, IH. lia.
Qed.

(** The two orders of a double sum. *)
Lemma sumZ_swap {A B : Type} (w : A -> B -> Z) (R : list A) (L : list B) :
  sumZ (map (fun a => sumZ (map (w a) L)) R)
  = sumZ (map (fun b => sumZ (map (fun a => w a b) R)) L).
Proof.
  induction R as [|a R IH].
  - cbn [map]. rewrite sumZ_map_zero. reflexivity.
  - cbn [map]. rewrite sumZ_cons, IH.
    rewrite <- sumZ_map_add. apply sumZ_map_ext. intros b _.
    rewrite sumZ_cons. reflexivity.
Qed.

Lemma sumWordCount_rowsOfReference db acr :
  sumWordCount (rowsOfReference db acr)
  = sumZ (map wordsOf (contentOfReference db acr)).
Proof.
  unfold rowsOfReference, sumWordCount.
  destruct (contentOfReference db acr) as [|tc rows]; [reflexivity|].
  rewrite map_map. reflexivity.
Qed.

Lemma flat_map_filter {A B : Type} (p : A -> bool) (f : A -> list B) l :
  flat_map (fun x => if p x then f x else []) l = flat_map f (List.filter p l).
Proof.
  induction l as [|x l IH]; [reflexivity|].
  cbn [flat_map List.filter]. destruct (p x); cbn [flat_map]; rewrite IH;
    reflexivity.
Qed.

(** The query from the agencies and the query from the references give an
    agency the same sum and the same titles. *)
Lemma joinedRows_same_figures db agencyID :
  sumWordCount (joinedRowsOfAgency db agencyID)
  = sumWordCount (joinedRowsOfReferences db agencyID)
  /\ countDistinctTitle (joinedRowsOfAgency db agencyID)
     = countDistinctTitle (joinedRowsOfReferences db agencyID).
Proof.
  unfold joinedRowsOfAgency, joinedRowsOfReferences.
  rewrite flat_map_filter.
  destruct (List.filter _ (agency_cfr_references db)) as [|acr references];
    split; reflexivity.
Qed.

Lemma sumWordCount_joinedRowsOfReferences db agencyID :
  sumWordCount (joinedRowsOfReferences db agencyID)
  = sumZ (map (fun acr => sumZ (map wordsOf (contentOfReference db acr)))
              (List.filter (fun acr => (acr_AgencyID acr =? agencyID)%N)
                           (agency_cfr_references db))).
Proof.
  unfold joinedRowsOfReferences. rewrite flat_map_filter.
  unfold sumWordCount at 1. rewrite sumZ_map_flat_map.
  apply sumZ_map_ext. intros acr _. apply sumWordCount_rowsOfReference.
Qed.

(** With one reference a title, a content row is counted at most once. *)
Lemma one_reference_counts_once (references : list AgencyCFRReference)
    (titleID : N) (w : Z) :
  NoDup (map acr_TitleID references) -> 0 <= w ->
  0 <= sumZ (map (fun acr => if (titleID =? acr_TitleID acr)%N then w else 0)
                 references) <= w.
Proof.
  intros Hnd Hw. induction references as [|acr references IH].
  - simpl. unfold sumZ. simpl. lia.
  - cbn [map] in *. apply NoDup_cons in Hnd. destruct Hnd as [Hnotin Hnd].
    rewrite sumZ_cons. specialize (IH Hnd).
    destruct (N.eqb_spec titleID (acr_TitleID acr)) as [E|E]; [|lia].
    assert (Hrest : sumZ (map (fun acr => if (titleID =? acr_TitleID acr)%N
                                          then w else 0) references) = 0).
    { transitivity (sumZ (map (fun _ : AgencyCFRReference => 0) references));
        [|apply sumZ_map_zero].
      apply sumZ_map_ext. intros x Hx. destruct (N.eqb_spec titleID (acr_TitleID x)) as [E'|E'];
        [|reflexivity].
      exfalso. apply Hnotin. rewrite <- E, E'.
      apply (list_elem_of_fmap_2 acr_TitleID). apply list_elem_of_In. exact Hx. }
    lia.
Qed.

(** X15.  In the word count metrics an agency whose references name
    distinct titles has, when no word count is negative, a word count
    between 0 and the total of the CFR; the share that is shown for it is
    its word count divided by that total and multiplied by 100, computed
    in doubles, and 0 when the total is not positive.  (An agency that
    references one title under two chapters counts the title twice.) *)
Theorem WordCountMetricsHandler_share_of_total (om oc : ReadOrder) (db : DB)
    (entry : AgencyWithMetrics) :
  In entry (snd (WordCountMetricsHandler om oc db)) ->
  (forall tc n, In tc (title_contents db) -> tc_WordCount tc = Some n -> 0 <= n) ->
  NoDup (map acr_TitleID
             (List.filter (fun acr => (acr_AgencyID acr =? awm_ID entry)%N)
                          (agency_cfr_references db))) ->
  let total := fst (WordCountMetricsHandler om oc db) in
  0 <= awm_WordCount entry <= total
  /\ awm_PercentOfTotal entry
     = (if total >? 0
        then (GoNum.float64_of_int (awm_WordCount entry)
              / GoNum.float64_of_int total * 100)%float
        else 0%float).
Proof.
  intros Hin Hpos Hnd. cbn [fst snd WordCountMetricsHandler] in *. cbv zeta.
  unfold agenciesWithMetrics in Hin. cbv zeta in Hin.
  apply in_map_iff in Hin. destruct Hin as [m [<- Hm]].
  cbn [awm_WordCount awm_ID awm_PercentOfTotal] in *.
  split; [|reflexivity].
  apply list_elem_of_In in Hm.
  rewrite (agencyMetrics_Permutation om db) in Hm. apply list_elem_of_In in Hm.
  apply in_map_iff in Hm. destruct Hm as [a [<- _]].
  cbn [am_WordCount am_ID groupOfAgency] in *.
  rewrite (proj1 (joinedRows_same_figures db (a_ID a))).
  rewrite sumWordCount_joinedRowsOfReferences.
  set (references := List.filter _ (agency_cfr_references db)) in *.
  unfold totalWords, contentOfReference.
  rewrite (sumZ_map_ext _
             (fun acr => sumZ (map (fun tc =>
                 if (tc_TitleID tc =? acr_TitleID acr)%N
                 then (if negb (isNull (tc_WordCount tc)) then wordsOf tc else 0)
                 else 0) (title_contents db)))).
  2:{ intros acr _. rewrite sumZ_map_filter. apply sumZ_map_ext. intros tc _.
      destruct (tc_TitleID tc =? acr_TitleID acr)%N; reflexivity. }
  rewrite (sumZ_swap (fun acr tc =>
             if (tc_TitleID tc =? acr_TitleID acr)%N
             then (if negb (isNull (tc_WordCount tc)) then wordsOf tc else 0)
             else 0)).
  rewrite (sumZ_map_filter wordsOf).
  assert (Hw : forall tc, In tc (title_contents db) ->
                 0 <= (if negb (isNull (tc_WordCount tc)) then wordsOf tc else 0)).
  { intros tc Htc. unfold wordsOf.
    destruct (tc_WordCount tc) as [n|] eqn:E; simpl; [|lia].
    exact (Hpos tc n Htc E). }
  split.
  - apply Z.le_trans with (sumZ (map (fun _ => 0) (title_contents db)));
      [rewrite sumZ_map_zero; reflexivity|].
    apply sumZ_map_le. intros tc Htc.
    apply (one_reference_counts_once references (tc_TitleID tc) _ Hnd (Hw tc Htc)).
  - apply sumZ_map_le. intros tc Htc.
    apply (one_reference_counts_once references (tc_TitleID tc) _ Hnd (Hw tc Htc)).
Qed.

Lemma WordCountMetricsHandler_share_of_total_witness :
  let db := mkDB [mkAgency 7 "Office of Examples" "office-examples" None]
                 [mkTitle 1 10 "Energy" false; mkTitle 2 12 "Banks" false]
                 [mkReference 7 1 (Some "I")]
                 [mkTitleContent 1 86400 "<a>one</a>" (Some 1) (Some "c1") 86405;
                  mkTitleContent 2 86400 "<a>one two</a>" (Some 2) (Some "c2") 86405]
                 [] ∅ in
  let entry :=
    mkAgencyWithMetrics 7 "Office of Examples" "office-examples" 1
      0x1.0aaaaaaaaaaaap+5%float 1
      (Some "9f53c343df3218172c05a135f93a3b357828b600184512ffecedb2c024584c13")
      None in
  0 <= awm_WordCount entry <= fst (WordCountMetricsHandler [] [] db)
  /\ awm_PercentOfTotal entry
     = (if fst (WordCountMetricsHandler [] [] db) >? 0
        then (GoNum.float64_of_int (awm_WordCount entry)
              / GoNum.float64_of_int (fst (WordCountMetricsHandler [] [] db))
              * 100)%float
        else 0%float).
Proof.
  cbv zeta. apply WordCountMetricsHandler_share_of_total.
  - left. vm_compute. reflexivity.
  - intros tc n [<- | [<- | []]] [= <-]; lia.
  - apply (bool_decide_unpack _). reflexivity.
Defined.

(** The shares of one part, of two parts and of the whole of three words,
    and the share of a total of no words. *)
Example percentOfTotal_of_three :
  percentOfTotal 1 3 = 0x1.0aaaaaaaaaaaap+5%float
  /\ percentOfTotal 2 3 = 0x1.0aaaaaaaaaaaap+6%float
  /\ percentOfTotal 3 3 = 100%float
  /\ percentOfTotal 5 0 = 0%float.
Proof. vm_compute. repeat split. Qed.

(** The checksum that [calculateAgencyChecksum] gives an agency is the one
    of a batch, when the agency is served one checksum. *)
Lemma calculateAgencyChecksum_pointer o o' db agencyIDs agencyID :
  In agencyID agencyIDs -> oneChecksum db agencyID ->
  (if String.eqb (calculateAgencyChecksum o db agencyID) ""
   then None else Some (calculateAgencyChecksum o db agencyID))
  = checksumPointer (getCachedAgencyChecksums o' db agencyIDs) agencyID.
Proof.
  intros Hin Hone. unfold calculateAgencyChecksum.
  rewrite <- (checksumPointer_any_batch o o' db [agencyID] agencyIDs agencyID)
    by (try (left; reflexivity); assumption).
  unfold checksumPointer.
  destruct (getCachedAgencyChecksums o db [agencyID] !! agencyID) as [c|];
    reflexivity.
Qed.

Lemma In_agenciesWithMetrics om oc db a :
  In a (agencies db) ->
  In (mkAgencyWithMetrics (a_ID a) (a_Name a) (a_Slug a)
        (sumWordCount (joinedRowsOfAgency db (a_ID a)))
        (percentOfTotal (sumWordCount (joinedRowsOfAgency db (a_ID a)))
                        (totalWords db))
        (countDistinctTitle (joinedRowsOfAgency db (a_ID a)))
        (checksumPointer
           (getCachedAgencyChecksums oc db (map am_ID (agencyMetrics om db)))
           (a_ID a))
        (a_ParentID a))
     (AgenciesHandler om oc db).
Proof.
  intros Hin. unfold AgenciesHandler, agenciesWithMetrics. cbv zeta.
  apply in_map_iff. exists (groupOfAgency db a). split; [reflexivity|].
  apply list_elem_of_In.
  rewrite (agencyMetrics_Permutation om db). apply list_elem_of_In.
  apply in_map. exact Hin.
Qed.

Lemma In_agencyMetrics_ids o db a :
  In a (agencies db) -> In (a_ID a) (map am_ID (agencyMetrics o db)).
Proof.
  intros Hin. apply in_map_iff. exists (groupOfAgency db a).
  split; [reflexivity|]. apply list_elem_of_In.
  rewrite (agencyMetrics_Permutation o db). apply list_elem_of_In.
  apply in_map. exact Hin.
Qed.

(** X16.  [AgencyDetailHandler] answers 404 only when no agency has the
    slug; otherwise the agency it shows has the slug, and the figures it
    gives for the agency and for each of its sub-agencies (name, slug,
    word count, title count, parent) are those of an entry of
    [AgenciesHandler], although the handler asks other queries; the
    checksum is that of the entry as well when the agency is served one
    checksum, that is, has a record or has one checksum a title number.
    Every sub-agency shown has the agency as its parent. *)
Theorem AgencyDetailHandler_agrees_with_list (os oc om oc' : ReadOrder)
    (db : DB) (slug : string) :
  match AgencyDetailHandler os oc db slug with
  | None => forall a, In a (agencies db) -> a_Slug a <> slug
  | Some detail =>
      let agrees shown :=
        exists e, In e (AgenciesHandler om oc' db)
                  /\ figures e = figures shown
                  /\ (oneChecksum db (awm_ID shown) ->
                      awm_Checksum e = awm_Checksum shown) in
      awm_Slug (ad_Agency detail) = slug
      /\ agrees (ad_Agency detail)
      /\ forall sub, In sub (ad_SubAgencies detail) ->
           awm_ParentID sub = Some (awm_ID (ad_Agency detail))
           /\ agrees sub
  end.
Proof.
  unfold AgencyDetailHandler.
  destruct (find (fun a => String.eqb (a_Slug a) slug) (agencies db))
    as [agency|] eqn:Hfind.
  - apply find_some in Hfind. destruct Hfind as [Hin Hslug].
    apply String.eqb_eq in Hslug. cbv zeta. cbn [ad_Agency ad_SubAgencies].
    split; [exact Hslug|]. split.
    + eexists. split; [apply (In_agenciesWithMetrics om oc' db agency Hin)|].
      unfold figures. cbn. split.
      * destruct (joinedRows_same_figures db (a_ID agency)) as [-> ->].
        reflexivity.
      * intros Hone. symmetry.
        apply (calculateAgencyChecksum_pointer oc oc' db
                 (map am_ID (agencyMetrics om db)) (a_ID agency)
                 (In_agencyMetrics_ids om db agency Hin) Hone).
    + intros sub Hsub. apply in_map_iff in Hsub. destruct Hsub as [m [<- Hm]].
      apply in_map_iff in Hm. destruct Hm as [a [<- Ha]].
      apply filter_In in Ha. destruct Ha as [Ha Hparent].
      apply eqb_opt_true in Hparent. cbn. split; [exact Hparent|].
      eexists. split; [apply (In_agenciesWithMetrics om oc' db a Ha)|].
      unfold figures. cbn. split; [reflexivity|].
      intros Hone.
      apply (checksumPointer_any_batch oc' os db
               (map am_ID (agencyMetrics om db))
               (map am_ID
                  (map (groupOfAgency db)
                     (List.filter (fun a0 => eqb_opt (a_ParentID a0) (a_ID agency))
                                  (agencies db))))
               (a_ID a)).
      * apply In_agencyMetrics_ids. exact Ha.
      * rewrite map_map. apply in_map_iff. exists a. split; [reflexivity|].
        apply filter_In. split; [exact Ha|]. apply eqb_opt_true. exact Hparent.
      * exact Hone.
  - intros a Ha Hslug.
    apply (find_none _ _ Hfind) in Ha. rewrite Hslug, String.eqb_refl in Ha.
    discriminate.
Qed.

Lemma addToGroup_sum r groups :
  sumZ (map tb_WordCount (addToGroup r groups))
  = sumZ (map tb_WordCount groups) + tb_WordCount r.
Proof.
  induction groups as [|g groups IH]; cbn [addToGroup map].
  - rewrite !sumZ_cons. unfold sumZ. simpl. lia.
  - destruct ((tb_TitleNumber g =? tb_TitleNumber r)
              && String.eqb (tb_TitleName g) (tb_TitleName r)); cbn [map].
    + rewrite !sumZ_cons. cbn [tb_WordCount]. lia.
    + rewrite !sumZ_cons, IH. lia.
Qed.

Lemma groups_sum rows groups :
  sumZ (map tb_WordCount
            (fold_left (fun groups r => addToGroup r groups) rows groups))
  = sumZ (map tb_WordCount groups) + sumZ (map tb_WordCount rows).
Proof.
  revert groups. induction rows as [|r rows IH]; intros groups; cbn [fold_left map].
  - unfold sumZ at 3. simpl. lia.
  - rewrite IH, addToGroup_sum, sumZ_cons. lia.
Qed.

Lemma sumZ_the_title (titles : list Title) (titleID : N) (c : Z) :
  NoDup (map t_ID titles) -> In titleID (map t_ID titles) ->
  sumZ (map (fun t => if (t_ID t =? titleID)%N then c else 0) titles) = c.
Proof.
  induction titles as [|t titles IH]; intros Hnd Hin; [destruct Hin|].
  cbn [map] in *. apply NoDup_cons in Hnd. destruct Hnd as [Hnotin Hnd].
  rewrite sumZ_cons.
  destruct (N.eqb_spec (t_ID t) titleID) as [E|E].
  - assert (Hrest : sumZ (map (fun t => if (t_ID t =? titleID)%N then c else 0)
                              titles) = 0).
    { transitivity (sumZ (map (fun _ : Title => 0) titles));
        [|apply sumZ_map_zero].
      apply sumZ_map_ext. intros x Hx.
      destruct (N.eqb_spec (t_ID x) titleID) as [E'|E']; [|reflexivity].
      exfalso. apply Hnotin. rewrite E, <- E'.
      apply (list_elem_of_fmap_2 t_ID). apply list_elem_of_In. exact Hx. }
    lia.
  - destruct Hin as [Hin | Hin]; [contradiction|].
    rewrite (IH Hnd Hin). lia.
Qed.

(** X17.  When every content row belongs to one title of the titles table
    (title ids are distinct and every content row names one), the word
    counts of the title breakdown that [AgencyDetailHandler] shows add up
    to the word count it shows for the agency. *)
Theorem AgencyDetailHandler_breakdown_adds_up (os oc : ReadOrder) (db : DB)
    (slug : string) (detail : AgencyDetail) :
  AgencyDetailHandler os oc db slug = Some detail ->
  NoDup (map t_ID (titles db)) ->
  (forall tc, In tc (title_contents db) ->
              In (tc_TitleID tc) (map t_ID (titles db))) ->
  sumZ (map tb_WordCount (ad_TitleBreakdown detail))
  = awm_WordCount (ad_Agency detail).
Proof.
  unfold AgencyDetailHandler.
  destruct (find (fun a => String.eqb (a_Slug a) slug) (agencies db))
    as [agency|]; [|discriminate].
  cbv zeta. intros [= <-] Hnd Hfk. cbn [ad_TitleBreakdown ad_Agency awm_WordCount].
  unfold titleBreakdown. rewrite groups_sum. cbn [map].
  change (sumZ []) with 0. rewrite Z.add_0_l.
  rewrite sumWordCount_joinedRowsOfReferences.
  set (agencyID := a_ID agency).
  set (w := fun (acr : AgencyCFRReference) (tc : TitleContent) =>
              if (acr_TitleID acr =? tc_TitleID tc)%N
                 && (acr_AgencyID acr =? agencyID)%N
              then wordsOf tc else 0).
  transitivity (sumZ (map (fun tc => sumZ (map (fun acr => w acr tc)
                                               (agency_cfr_references db)))
                          (title_contents db))).
  - unfold breakdownRows. rewrite sumZ_map_flat_map.
    apply sumZ_map_ext. intros tc Htc.
    rewrite sumZ_map_flat_map.
    rewrite (sumZ_map_ext _
               (fun t => if (t_ID t =? tc_TitleID tc)%N
                         then sumZ (map (fun acr => w acr tc)
                                        (agency_cfr_references db))
                         else 0)).
    + apply sumZ_the_title; [exact Hnd | apply Hfk; exact Htc].
    + intros t _. rewrite sumZ_map_flat_map.
      destruct (N.eqb_spec (t_ID t) (tc_TitleID tc)) as [E|E].
      * apply sumZ_map_ext. intros acr _. unfold w.
        rewrite E. cbn [andb].
        destruct ((acr_TitleID acr =? tc_TitleID tc)%N
                  && (acr_AgencyID acr =? agencyID)%N); [|reflexivity].
        unfold wordsOf. destruct (tc_WordCount tc); [|reflexivity].
        cbn [map tb_WordCount]. rewrite sumZ_cons. change (sumZ []) with 0. lia.
      * transitivity (sumZ (map (fun _ : AgencyCFRReference => 0)
                                (agency_cfr_references db)));
          [|apply sumZ_map_zero].
        apply sumZ_map_ext. intros acr _. reflexivity.
  - rewrite <- (sumZ_swap w).
    rewrite (sumZ_map_filter
               (fun acr => sumZ (map wordsOf (contentOfReference db acr)))).
    apply sumZ_map_ext. intros acr _.
    destruct (N.eqb_spec (acr_AgencyID acr) agencyID) as [E|E].
    + unfold contentOfReference. rewrite sumZ_map_filter.
      apply sumZ_map_ext. intros tc _. unfold w.
      rewrite (proj2 (N.eqb_eq _ _) E), andb_true_r, (N.eqb_sym (acr_TitleID acr)).
      destruct (tc_TitleID tc =? acr_TitleID acr)%N; [|reflexivity].
      unfold wordsOf. destruct (tc_WordCount tc); reflexivity.
    + transitivity (sumZ (map (fun _ : TitleContent => 0) (title_contents db)));
        [|apply sumZ_map_zero].
      apply sumZ_map_ext. intros tc _. unfold w.
      rewrite (proj2 (N.eqb_neq _ _) E), andb_false_r. reflexivity.
Qed.

Lemma AgencyDetailHandler_breakdown_adds_up_witness :
  let db := mkDB [mkAgency 7 "Office of Examples" "office-examples" None]
                 [mkTitle 1 10 "Energy" false; mkTitle 2 12 "Banks" false]
                 [mkReference 7 1 (Some "I"); mkReference 7 1 (Some "II");
                  mkReference 7 2 None]
                 [mkTitleContent 1 86400 "<a>one</a>" (Some 1) (Some "c1") 86405;
                  mkTitleContent 2 86400 "<a>one two</a>" (Some 2) (Some "c2") 86405;
                  mkTitleContent 2 0 "<a>old old old</a>" (Some 3) (Some "c0") 5]
                 [] ∅ in
  let detail :=
    mkAgencyDetail
      (mkAgencyWithMetrics 7 "Office of Examples" "office-examples" 7 0%float 2
         (Some "6b9bc25665956d73867687b408dcb376718d3f9d028dfaf543634bb1991293ba")
         None)
      []
      [mkTitleBreakdown 10 "Energy" 2; mkTitleBreakdown 12 "Banks" 5] in
  sumZ (map tb_WordCount (ad_TitleBreakdown detail))
  = awm_WordCount (ad_Agency detail).
Proof.
  cbv zeta.
  apply (AgencyDetailHandler_breakdown_adds_up [] []
           (mkDB [mkAgency 7 "Office of Examples" "office-examples" None]
                 [mkTitle 1 10 "Energy" false; mkTitle 2 12 "Banks" false]
                 [mkReference 7 1 (Some "I"); mkReference 7 1 (Some "II");
                  mkReference 7 2 None]
                 [mkTitleContent 1 86400 "<a>one</a>" (Some 1) (Some "c1") 86405;
                  mkTitleContent 2 86400 "<a>one two</a>" (Some 2) (Some "c2") 86405;
                  mkTitleContent 2 0 "<a>old old old</a>" (Some 3) (Some "c0") 5]
                 [] ∅)
           "office-examples").
  - vm_compute. reflexivity.
  - apply (bool_decide_unpack _). reflexivity.
  - intros tc [<- | [<- | [<- | []]]]; simpl; auto.
Defined.

End MetricsFacts.

(** ** The history and the snapshots it reads *)

Section HistoryMore.
Import Store Historical SnapshotKeys Trend.

Lemma sorted_NoDup_strict (l : list Z) :
  StronglySorted Z.le l -> NoDup l -> StronglySorted Z.lt l.
Proof.
  induction 1 as [|x l Hs IH Hx]; intros Hnd; constructor.
  - apply IH. apply NoDup_cons in Hnd. apply Hnd.
  - apply NoDup_cons in Hnd. destruct Hnd as [Hnotin _].
    rewrite Forall_forall in *. intros y Hy. specialize (Hx y Hy).
    assert (x <> y) by (intros ->; exact (Hnotin Hy)). lia.
Qed.

Lemma NoDup_map_inj {A B : Type} (f : A -> B) l x y :
  NoDup (map f l) -> In x l -> In y l -> f x = f y -> x = y.
Proof.
  induction l as [|a l IH]; intros Hnd Hx Hy Hf; [destruct Hx|].
  cbn [map] in Hnd. apply NoDup_cons in Hnd. destruct Hnd as [Hnotin Hnd].
  destruct Hx as [-> | Hx], Hy as [-> | Hy].
  - reflexivity.
  - exfalso. apply Hnotin. rewrite Hf. apply (list_elem_of_fmap_2 f).
    apply list_elem_of_In. exact Hy.
  - exfalso. apply Hnotin. rewrite <- Hf. apply (list_elem_of_fmap_2 f).
    apply list_elem_of_In. exact Hx.
  - apply IH; assumption.
Qed.

(** Rows with distinct keys that agree on the agency and the title have
    distinct dates. *)
Lemma dates_of_one_series (rows selected : list HistoricalSnapshot)
    (agencyID titleID : option N) :
  NoDup (map snapshotKey rows) ->
  sublist selected rows ->
  Forall (fun r => hs_AgencyID r = agencyID /\ hs_TitleID r = titleID) selected ->
  NoDup (map hs_SnapshotDate selected).
Proof.
  intros Hnd Hsub Hsel.
  assert (Hnd' : NoDup (map snapshotKey selected)).
  { eapply sublist_NoDup; [exact Hnd|].
    apply (fmap_sublist snapshotKey). exact Hsub. }
  clear Hnd Hsub. induction selected as [|r selected IH]; [constructor|].
  cbn [map] in *. apply NoDup_cons in Hnd'. destruct Hnd' as [Hnotin Hnd'].
  apply Forall_cons in Hsel. destruct Hsel as [[Ha Ht] Hsel].
  apply NoDup_cons. split; [|apply IH; assumption].
  intros Hin. apply Hnotin. apply list_elem_of_In in Hin.
  apply in_map_iff in Hin. destruct Hin as [r' [Hd Hr']].
  apply list_elem_of_In. apply in_map_iff. exists r'. split; [|exact Hr'].
  rewrite Forall_forall in Hsel.
  destruct (Hsel r' (proj2 (list_elem_of_In _ _) Hr')) as [Ha' Ht'].
  unfold snapshotKey. rewrite Hd, Ha, Ht, Ha', Ht'. reflexivity.
Qed.

Lemma filter_sublist {A : Type} (p : A -> bool) (l : list A) :
  sublist (List.filter p l) l.
Proof.
  induction l as [|x l IH]; simpl; [constructor|].
  destruct (p x); [apply sublist_skip | apply sublist_cons]; exact IH.
Qed.

(** The join of [getAgencyHistory] keeps, of the snapshot rows, those of
    the agency with the slug, each once. *)
Lemma agencySnapshots_rows agencySlug startDate endDate db :
  NoDup (map a_ID (agencies db)) ->
  NoDup (map a_Slug (agencies db)) ->
  exists selected agencyID,
    sublist selected (historical_snapshots db)
    /\ Forall (fun r => hs_AgencyID r = agencyID /\ hs_TitleID r = None) selected
    /\ flat_map (fun row =>
         flat_map (fun a =>
           if eqb_opt (hs_AgencyID row) (a_ID a)
              && String.eqb (a_Slug a) agencySlug
              && inRange startDate endDate row
              && isNull (hs_TitleID row)
           then [scanRow row] else [])
           (agencies db))
         (historical_snapshots db)
       = map scanRow selected.
Proof.
  intros Hids Hslugs.
  set (agencyID := match find (fun a => String.eqb (a_Slug a) agencySlug)
                              (agencies db) with
                   | Some a => Some (a_ID a)
                   | None => None
                   end).
  assert (Hinner : forall row,
    flat_map (fun a =>
      if eqb_opt (hs_AgencyID row) (a_ID a)
         && String.eqb (a_Slug a) agencySlug
         && inRange startDate endDate row
         && isNull (hs_TitleID row)
      then [scanRow row] else [])
      (agencies db)
    = if match agencyID with
         | Some id => eqb_opt (hs_AgencyID row) id
         | None => false
         end
         && inRange startDate endDate row && isNull (hs_TitleID row)
      then [scanRow row] else []).
  { intros row. unfold agencyID. clear agencyID.
    induction (agencies db) as [|a ags IH]; [reflexivity|].
    cbn [map] in Hids, Hslugs.
    apply NoDup_cons in Hids. destruct Hids as [Hid Hids].
    apply NoDup_cons in Hslugs. destruct Hslugs as [Hslug Hslugs].
    cbn [flat_map find].
    destruct (String.eqb_spec (a_Slug a) agencySlug) as [E|E].
    - rewrite flat_map_nil.
      + rewrite app_nil_r, andb_true_r. reflexivity.
      + intros a' Ha'.
        destruct (String.eqb_spec (a_Slug a') agencySlug) as [E'|E'].
        * exfalso. apply Hslug. rewrite E, <- E'.
          apply (list_elem_of_fmap_2 a_Slug). apply list_elem_of_In. exact Ha'.
        * rewrite andb_false_r. reflexivity.
    - rewrite andb_false_r. cbn [andb app]. apply IH; assumption. }
  exists (List.filter (fun row =>
            match agencyID with
            | Some id => eqb_opt (hs_AgencyID row) id
            | None => false
            end
            && inRange startDate endDate row && isNull (hs_TitleID row))
            (historical_snapshots db)), agencyID.
  split; [apply filter_sublist|]. split.
  - apply Forall_forall. intros r Hr. apply list_elem_of_In in Hr.
    apply filter_In in Hr. destruct Hr as [_ Hr].
    rewrite !andb_true_iff in Hr. destruct Hr as [[Ha _] Ht].
    split; [|apply isNull_true; exact Ht].
    destruct agencyID as [id|]; [|discriminate].
    apply eqb_opt_true in Ha. exact Ha.
  - induction (historical_snapshots db) as [|row rows IH]; [reflexivity|].
    cbn [flat_map List.filter]. rewrite Hinner, IH.
    destruct (_ && _ && _); reflexivity.
Qed.

Lemma sublist_Forall {A : Type} (P : A -> Prop) (l l' : list A) :
  sublist l l' -> Forall P l' -> Forall P l.
Proof.
  induction 1 as [|x l l' Hs IH|x l l' Hs IH]; intros F.
  - constructor.
  - apply Forall_cons in F. destruct F as [Hx F].
    constructor; [exact Hx | apply IH; exact F].
  - apply Forall_cons in F. apply IH. apply F.
Qed.

Lemma history_dates_strict rows selected agencyID titleID :
  NoDup (map snapshotKey rows) ->
  Forall atMidnight rows ->
  sublist selected rows ->
  Forall (fun r => hs_AgencyID r = agencyID /\ hs_TitleID r = titleID) selected ->
  StronglySorted Z.lt
    (map hp_Date (historyFrom None (orderByDate (map scanRow selected)))).
Proof.
  intros Hnd Hmid Hsub Hsel. apply sorted_NoDup_strict.
  - apply historyFrom_sorted.
  - rewrite historyFrom_dates.
    change (map ?f (orderByDate (map scanRow selected)))
      with (f <$> orderByDate (map scanRow selected)).
    rewrite (orderByDate_Permutation (map scanRow selected)).
    change (?f <$> map scanRow selected) with (map f (map scanRow selected)).
    rewrite map_map. cbn [scanRow fst].
    rewrite (map_ext_in _ hs_SnapshotDate).
    + apply (dates_of_one_series rows selected agencyID titleID); assumption.
    + intros r Hr. apply truncateDay_midnight.
      pose proof (sublist_Forall atMidnight selected rows Hsub Hmid) as F.
      rewrite Forall_forall in F. apply F. apply list_elem_of_In. exact Hr.
Qed.

Lemma latestContentDate_In db d :
  latestContentDate db = Some d ->
  exists tc, In tc (title_contents db) /\ tc_ContentDate tc = d.
Proof.
  unfold latestContentDate.
  assert (H : forall l acc,
            fold_left (fun acc tc =>
                         match acc with
                         | None => Some (tc_ContentDate tc)
                         | Some d => Some (Z.max d (tc_ContentDate tc))
                         end) l acc = Some d ->
            acc = Some d \/ exists tc, In tc l /\ tc_ContentDate tc = d).
  { induction l as [|tc l IH]; intros acc E; [left; exact E|].
    cbn [fold_left] in E. destruct (IH _ E) as [Hacc | [tc' [Hin Hd]]].
    - destruct acc as [d0|].
      + injection Hacc as Hmax.
        destruct (Z.max_spec d0 (tc_ContentDate tc)) as [[_ Hm] | [_ Hm]].
        * right. exists tc. split; [left; reflexivity | congruence].
        * left. congruence.
      + right. exists tc. split; [left; reflexivity | congruence].
    - right. exists tc'. split; [right; exact Hin | exact Hd]. }
  intros E. destruct (H _ _ E) as [Hnone | Hex]; [discriminate | exact Hex].
Qed.

(** The capture keeps the snapshots at midnight when the content rows are
    dated at midnight, as the rows are that the import writes. *)
Lemma CaptureSnapshot_keeps_midnight now db :
  Forall atMidnight (historical_snapshots db) ->
  (forall tc, In tc (title_contents db) -> tc_ContentDate tc mod day = 0) ->
  Forall atMidnight (historical_snapshots (snd (CaptureSnapshot now db))).
Proof.
  intros Hmid Hcontent. destruct (latestContentDate db) as [d|] eqn:Hd.
  - rewrite (CaptureSnapshot_writes now db d Hd). cbn [snd].
    change (historical_snapshots (with_historical_snapshots ?t db)) with t.
    destruct (loop_dated d writeSkipped (writeKey d) (writeRow d now)
                (writes d db) (historical_snapshots db))
      as [more [-> F]]; [intros [x|x|x]; reflexivity|].
    apply Forall_app. split; [exact Hmid|].
    eapply Forall_impl; [exact F|]. intros r Hr. unfold atMidnight.
    unfold HistoricalImport.dated in Hr. rewrite Hr.
    destruct (latestContentDate_In db d Hd) as [tc [Hin <-]].
    apply Hcontent. exact Hin.
  - unfold CaptureSnapshot. rewrite Hd. exact Hmid.
Qed.

(** X18.  When no two snapshot rows share the triple of date, agency and
    title (the invariant that [CaptureSnapshot] keeps) and every snapshot
    row is dated at midnight, the overall history has at most one point a
    day: the days of its points are strictly ascending.  The same holds for
    the history of an agency when agency ids and slugs are distinct. *)
Theorem history_has_one_point_a_day (agencySlug : string)
    (startDate endDate : Z) (db : DB) :
  NoDup (map snapshotKey (historical_snapshots db)) ->
  Forall atMidnight (historical_snapshots db) ->
  NoDup (map a_ID (agencies db)) ->
  NoDup (map a_Slug (agencies db)) ->
  StronglySorted Z.lt (map hp_Date (getOverallHistory startDate endDate db))
  /\ StronglySorted Z.lt
       (map hp_Date (getAgencyHistory agencySlug startDate endDate db)).
Proof.
  intros Hkeys Hmid Hids Hslugs. split.
  - unfold getOverallHistory, overallSnapshots.
    apply (history_dates_strict (historical_snapshots db) _ None None Hkeys Hmid).
    + apply filter_sublist.
    + apply Forall_forall. intros r Hr. apply list_elem_of_In in Hr.
      apply filter_In in Hr. destruct Hr as [_ Hr].
      rewrite !andb_true_iff in Hr. destruct Hr as [[_ Ha] Ht].
      split; apply isNull_true; assumption.
  - unfold getAgencyHistory, agencySnapshots.
    destruct (agencySnapshots_rows agencySlug startDate endDate db Hids Hslugs)
      as (selected & agencyID & Hsub & Hsel & ->).
    apply (history_dates_strict (historical_snapshots db) _ agencyID None Hkeys
             Hmid Hsub Hsel).
Qed.

Lemma history_has_one_point_a_day_witness :
  StronglySorted Z.lt (map hp_Date (getOverallHistory 0 (2 * day) threeDays))
  /\ StronglySorted Z.lt
       (map hp_Date (getAgencyHistory "office-examples" 0 (2 * day) threeDays)).
Proof.
  apply history_has_one_point_a_day.
  - apply (bool_decide_unpack _). reflexivity.
  - repeat constructor.
  - apply (bool_decide_unpack _). reflexivity.
  - apply (bool_decide_unpack _). reflexivity.
Defined.

Lemma historyFrom_In prev rows x :
  In x rows ->
  exists p, In p (historyFrom prev rows)
            /\ hp_Date p = truncateDay (fst x) /\ hp_WordCount p = snd x.
Proof.
  revert prev. induction rows as [|r rows IH]; intros prev Hin; [destruct Hin|].
  cbn [historyFrom]. destruct Hin as [-> | Hin].
  - eexists. split; [left; reflexivity|]. split; reflexivity.
  - destruct (IH (Some r) Hin) as [p [Hp Hpx]]. exists p.
    split; [right; exact Hp | exact Hpx].
Qed.

(** X19.  After the first capture for the latest content date, the overall
    history of a range that holds the date has a point for its day, with
    the sum of the word counts of the content rows of the date. *)
Theorem getOverallHistory_shows_capture (now snapshotDate startDate endDate : Z)
    (db : DB) :
  latestContentDate db = Some snapshotDate ->
  (forall r, In r (historical_snapshots db) -> hs_SnapshotDate r <> snapshotDate) ->
  truncateDay startDate <= snapshotDate <= truncateDay endDate ->
  exists p,
    In p (getOverallHistory startDate endDate (snd (CaptureSnapshot now db)))
    /\ hp_Date p = truncateDay snapshotDate
    /\ hp_WordCount p
       = sumZ (map wordsOf
                   (List.filter (fun tc => tc_ContentDate tc =? snapshotDate)
                                (title_contents db))).
Proof.
  intros Hd Hfresh Hrange.
  set (total := sumZ _).
  set (row := mkSnapshot snapshotDate None None (Some total) None now).
  assert (Hrow : In row (historical_snapshots (snd (CaptureSnapshot now db)))).
  { rewrite (CaptureSnapshot_writes now db snapshotDate Hd). cbn [snd].
    change (historical_snapshots (with_historical_snapshots ?t db)) with t.
    unfold writes. cbn [fold_left]. fold total.
    destruct (loop_extends writeSkipped (writeKey snapshotDate)
                (writeRow snapshotDate now)
                (map WriteAgency (agencyWordCounts snapshotDate db)
                 ++ map WriteTitle
                      (List.filter (fun tc => tc_ContentDate tc =? snapshotDate)
                                   (title_contents db)))
                (findOrCreateStep writeSkipped (writeKey snapshotDate)
                   (writeRow snapshotDate now) (historical_snapshots db)
                   (WriteOverall total)))
      as [more ->].
    apply in_or_app. left.
    unfold findOrCreateStep. cbn [writeSkipped writeKey writeRow].
    rewrite FirstOrCreate_created.
    - cbn [snd]. apply in_or_app. right. left. reflexivity.
    - destruct (find (overallKey snapshotDate) (historical_snapshots db))
        as [r|] eqn:E; [|reflexivity].
      apply find_some in E. destruct E as [Hin Hk]. exfalso.
      unfold overallKey in Hk. rewrite !andb_true_iff, Z.eqb_eq in Hk.
      apply (Hfresh r Hin). apply Hk. }
  unfold getOverallHistory, overallSnapshots.
  destruct (historyFrom_In None
              (orderByDate
                 (map scanRow
                    (List.filter
                       (fun row0 => inRange startDate endDate row0
                                    && isNull (hs_AgencyID row0)
                                    && isNull (hs_TitleID row0))
                       (historical_snapshots (snd (CaptureSnapshot now db))))))
              (scanRow row)) as [p [Hp [Hdate Hwords]]].
  - apply list_elem_of_In. rewrite (orderByDate_Permutation _).
    apply list_elem_of_In. apply in_map. apply filter_In. split; [exact Hrow|].
    unfold inRange, row. simpl.
    rewrite (proj2 (Z.leb_le _ _) (proj1 Hrange)),
            (proj2 (Z.leb_le _ _) (proj2 Hrange)).
    reflexivity.
  - exists p. split; [exact Hp|]. split; assumption.
Qed.

Lemma getOverallHistory_shows_capture_witness :
  let db := mkDB [mkAgency 7 "Office of Examples" "office-examples" None]
                 [mkTitle 1 10 "Energy" false; mkTitle 2 12 "Banks" false]
                 [mkReference 7 1 None]
                 [mkTitleContent 1 86400 "<a>one</a>" (Some 1) (Some "c1") 86405;
                  mkTitleContent 2 86400 "<a>one two</a>" (Some 2) (Some "c2") 86405]
                 [mkSnapshot 0 None None (Some 4) None 5] ∅ in
  exists p,
    In p (getOverallHistory 0 90000 (snd (CaptureSnapshot 90000 db)))
    /\ hp_Date p = 86400 /\ hp_WordCount p = 3.
Proof.
  cbv zeta.
  apply (getOverallHistory_shows_capture 90000 86400 0 90000).
  - reflexivity.
  - simpl. intros r [<- | []]. simpl. lia.
  - vm_compute. split; discriminate.
Defined.

End HistoryMore.

(** ** The form of the checksums *)

Section DigestFacts.
Import Store ContentImport Checksum Digest.

Lemma hexdigit_isHexDigit d : 0 <= d < 16 -> isHexDigit (Sha256.hexdigit d) = true.
Proof.
  intros H.
  assert (Hd : d = 0 \/ d = 1 \/ d = 2 \/ d = 3 \/ d = 4 \/ d = 5 \/ d = 6
               \/ d = 7 \/ d = 8 \/ d = 9 \/ d = 10 \/ d = 11 \/ d = 12
               \/ d = 13 \/ d = 14 \/ d = 15) by lia.
  repeat (destruct Hd as [-> | Hd]; [reflexivity|]). subst. reflexivity.
Qed.

Lemma hex_form bs :
  Forall (fun b => 0 <= b < 256) bs ->
  String.length (Sha256.hex bs) = (2 * length bs)%nat
  /\ allChars isHexDigit (Sha256.hex bs) = true.
Proof.
  induction 1 as [|b bs Hb F IH]; [split; reflexivity|].
  destruct IH as [IH1 IH2]. cbn [Sha256.hex String.length allChars length].
  split; [rewrite IH1; lia|].
  rewrite IH2, !hexdigit_isHexDigit; [reflexivity | |].
  - apply Z.mod_pos_bound. lia.
  - split; [apply Z.div_pos; lia | apply Z.div_lt_upper_bound; lia].
Qed.

Lemma be_bytes_form n x :
  length (Sha256.be_bytes n x) = n
  /\ Forall (fun b => 0 <= b < 256) (Sha256.be_bytes n x).
Proof.
  unfold Sha256.be_bytes. split.
  - rewrite length_map, length_rev, length_seq. reflexivity.
  - apply Forall_map. apply Forall_forall. intros i _. cbv beta.
    change 255 with (Z.ones 8). rewrite Z.land_ones by lia.
    apply Z.mod_pos_bound. reflexivity.
Qed.

Lemma Sum256_form msg :
  length (Sha256.Sum256 msg) = 32%nat
  /\ Forall (fun b => 0 <= b < 256) (Sha256.Sum256 msg).
Proof.
  unfold Sha256.Sum256. cbv zeta.
  set (s := fold_left Sha256.compress _ Sha256.initial).
  cbn [flat_map]. rewrite !length_app, !Forall_app.
  split.
  - rewrite !(proj1 (be_bytes_form 4 _)). reflexivity.
  - repeat split; try apply be_bytes_form. constructor.
Qed.

Lemma allChars_occurs (p : ascii -> bool) ch s :
  allChars p s = true -> p ch = false -> occurs ch s = false.
Proof.
  intros Hall Hch. induction s as [|c s IH]; [reflexivity|].
  cbn [allChars occurs] in *. apply andb_true_iff in Hall.
  destruct Hall as [Hc Hs]. rewrite (IH Hs), orb_false_r.
  destruct (Ascii.eqb_spec c ch) as [->|]; [congruence | reflexivity].
Qed.

Lemma sum256_hex_form s :
  String.length (Sha256.sum256_hex s) = 64%nat
  /\ allChars isHexDigit (Sha256.sum256_hex s) = true.
Proof.
  unfold Sha256.sum256_hex.
  destruct (Sum256_form (Sha256.bytes_of_string s)) as [Hlen Hbytes].
  destruct (hex_form _ Hbytes) as [Hl Hc]. rewrite Hlen in Hl.
  split; [exact Hl | exact Hc].
Qed.

Lemma calculateChecksum_no_newline content :
  occurs (ascii_of_nat 10) (calculateChecksum content) = false.
Proof.
  apply (allChars_occurs isHexDigit); [apply sum256_hex_form | reflexivity].
Qed.

(** X20.  A checksum that the import calculates is 64 lowercase
    hexadecimal digits, whatever the content: it fills the column of 64
    characters, is not the empty string that the agency queries leave out,
    and holds no newline and no colon. *)
Theorem calculateChecksum_is_64_hex_digits (content : string) :
  String.length (calculateChecksum content) = 64%nat
  /\ allChars isHexDigit (calculateChecksum content) = true
  /\ calculateChecksum content <> ""
  /\ occurs (ascii_of_nat 10) (calculateChecksum content) = false
  /\ occurs ":" (calculateChecksum content) = false.
Proof.
  unfold calculateChecksum.
  destruct (sum256_hex_form content) as [Hl Hc].
  split; [exact Hl|]. split; [exact Hc|]. split; [|split].
  - intros E. rewrite E in Hl. discriminate.
  - apply (allChars_occurs isHexDigit); [exact Hc | reflexivity].
  - apply (allChars_occurs isHexDigit); [exact Hc | reflexivity].
Qed.

Lemma joinedRows_checksums db agencyID r :
  In r (joinedRows db agencyID) ->
  exists tc, In tc (title_contents db) /\ tc_Checksum tc = Some (snd r).
Proof.
  unfold joinedRows. intros Hin.
  apply in_flat_map in Hin. destruct Hin as [tc [Htc Hin]].
  apply in_flat_map in Hin. destruct Hin as [t [_ Hin]].
  apply in_flat_map in Hin. destruct Hin as [acr [_ Hin]].
  destruct (_ && _ && _); [|destruct Hin].
  destruct (tc_Checksum tc) as [c|] eqn:Hc; [|destruct Hin].
  destruct (String.eqb c ""); [destruct Hin|].
  destruct Hin as [<- | []]. exists tc. split; [exact Htc | exact Hc].
Qed.

(** X21.  The import keeps the checksums of the content rows free of
    newlines: if no stored checksum holds one before
    [downloadAndProcessTitle], none does after it, so the lines that the
    agency checksum is built from stay one line a row. *)
Theorem downloadAndProcessTitle_keeps_lines_apart
    (cd : Downloader.ContentDownloader) (title : Title) (now : Z) (db : DB)
    (agencyID : N) :
  (forall tc c, In tc (title_contents db) -> tc_Checksum tc = Some c ->
                occurs (ascii_of_nat 10) c = false) ->
  let db' := downloadAndProcessTitle cd title now db in
  (forall tc c, In tc (title_contents db') -> tc_Checksum tc = Some c ->
                occurs (ascii_of_nat 10) c = false)
  /\ noNewline (joinedRows db' agencyID).
Proof.
  intros Hold. cbv zeta.
  assert (Hnew : forall tc c,
            In tc (title_contents (downloadAndProcessTitle cd title now db)) ->
            tc_Checksum tc = Some c -> occurs (ascii_of_nat 10) c = false).
  { unfold downloadAndProcessTitle.
    destruct (fst (Downloader.downloadTitleContent cd (t_Number title)))
      as [content [err|]]; [exact Hold|].
    cbn [title_contents with_title_contents]. unfold FirstOrCreate.
    destruct (find _ (title_contents db)); cbn [snd]; [exact Hold|].
    intros tc c Hin Hc. apply in_app_or in Hin. destruct Hin as [Hin | [<- | []]].
    - exact (Hold tc c Hin Hc).
    - cbn [tc_Checksum] in Hc. injection Hc as <-.
      apply calculateChecksum_no_newline. }
  split; [exact Hnew|].
  apply Forall_forall. intros r Hr. apply list_elem_of_In in Hr.
  destruct (joinedRows_checksums _ _ _ Hr) as [tc [Htc Hc]].
  exact (Hnew tc (snd r) Htc Hc).
Qed.

Lemma downloadAndProcessTitle_keeps_lines_apart_witness :
  let title := mkTitle 1 10 "Energy" false in
  let db := mkDB [mkAgency 7 "Office of Examples" "office-examples" None]
                 [title] [mkReference 7 1 None]
                 [mkTitleContent 1 0 "<a>old</a>" (Some 1) (Some "c0") 5] [] ∅ in
  let cd := Downloader.NewContentDownloader
              (fun _ => ("<a>one</a>", None)) (fun _ _ => ("", Some "not called")) in
  let db' := downloadAndProcessTitle cd title 90000 db in
  (forall tc c, In tc (title_contents db') -> tc_Checksum tc = Some c ->
                occurs (ascii_of_nat 10) c = false)
  /\ noNewline (joinedRows db' 7).
Proof.
  cbv zeta. apply downloadAndProcessTitle_keeps_lines_apart.
  intros tc c [<- | []] [= <-]. reflexivity.
Defined.

End DigestFacts.

(** ** The import of the agencies and of their references *)

Section AgencyImportFacts.
Import Store AgencyImport.

(** Induction on an agency of the document through its children. *)
Lemma AgencyData_children_ind (P : AgencyData -> Prop) :
  (forall name slug children references,
      Forall P children -> P (mkAgencyData name slug children references)) ->
  forall agencyData, P agencyData.
Proof.
  intros H. fix IH 1. intros [name slug children references]. apply H.
  induction children as [|child children IHc]; constructor.
  - apply IH.
  - exact IHc.
Qed.

Lemma growsByTitles_refl titles references :
  growsByTitles titles references references.
Proof. exists []. rewrite app_nil_r. split; [reflexivity | constructor]. Qed.

Lemma growsByTitles_trans titles a b c :
  growsByTitles titles a b -> growsByTitles titles b c -> growsByTitles titles a c.
Proof.
  intros [m1 [-> F1]] [m2 [-> F2]]. exists (m1 ++ m2).
  rewrite app_assoc. split; [reflexivity|]. apply Forall_app. split; assumption.
Qed.

Lemma growsByTitles_fold {X : Type} titles
    (step : list AgencyCFRReference -> X -> list AgencyCFRReference) xs :
  Forall (fun x => forall references,
            growsByTitles titles references (step references x)) xs ->
  forall references, growsByTitles titles references (fold_left step xs references).
Proof.
  induction 1 as [|x xs Hx F IH]; intros references; cbn [fold_left].
  - apply growsByTitles_refl.
  - eapply growsByTitles_trans; [apply Hx | apply IH].
Qed.

Lemma createReference_grows titles agency references ref :
  growsByTitles titles references (createReference titles agency references ref).
Proof.
  unfold createReference.
  destruct (find (fun t => t_Number t =? fst ref) titles) as [title|] eqn:Hf;
    [|apply growsByTitles_refl].
  apply find_some in Hf. destruct Hf as [Hin _].
  unfold FirstOrCreate. destruct (find _ references); cbn [snd];
    [apply growsByTitles_refl|].
  eexists. split; [reflexivity|]. constructor; [|constructor].
  exists title. split; [exact Hin | reflexivity].
Qed.

Lemma processAgencyCFRRefs_grows agencyMap titles agencyData :
  forall references,
    growsByTitles titles references
      (processAgencyCFRRefs agencyMap titles agencyData references).
Proof.
  induction agencyData as [name slug children refs IH]
    using AgencyData_children_ind.
  intros references. cbn [processAgencyCFRRefs agd_Slug agd_Children
                          agd_CFRReferences].
  destruct (agencyMap !! slug) as [agency|]; [|apply growsByTitles_refl].
  eapply growsByTitles_trans.
  - apply (growsByTitles_fold titles (createReference titles agency)).
    apply Forall_forall. intros ref _ rs. apply createReference_grows.
  - apply (growsByTitles_fold titles
             (fun references childData =>
                processAgencyCFRRefs agencyMap titles childData references)).
    exact IH.
Qed.

Lemma ImportAgencies_grows FetchAgencies newID db :
  growsByTitles (titles db) (agency_cfr_references db)
    (agency_cfr_references (snd (ImportAgencies FetchAgencies newID db))).
Proof.
  unfold ImportAgencies. destruct FetchAgencies as [agencies|];
    [|apply growsByTitles_refl].
  cbv zeta. cbn [snd agency_cfr_references].
  apply (growsByTitles_fold (titles db)
           (fun references agencyData =>
              processAgencyCFRRefs _ (titles db) agencyData references)).
  apply Forall_forall. intros agencyData _ references.
  apply processAgencyCFRRefs_grows.
Qed.

Lemma growsByTitles_none before after :
  growsByTitles [] before after -> after = before.
Proof.
  intros [more [-> F]]. destruct more as [|acr more]; [apply app_nil_r|].
  apply Forall_cons in F. destruct F as [[t [[] _]] _].
Qed.

(** X22.  [ImportAgencies] creates a reference only for a title that is
    in the titles table when it runs: the references grow by rows that
    name such a title, and on a store without titles (the first import,
    which imports the agencies before the titles) no reference is created
    at all.  Titles, contents, snapshots and checksums are left as they
    are, and nothing is written when the agencies cannot be fetched. *)
Theorem ImportAgencies_references_need_titles
    (FetchAgencies : list AgencyData + Downloader.error)
    (newID : list Agency -> N)
    (db : DB) :
  let db' := snd (ImportAgencies FetchAgencies newID db) in
  growsByTitles (titles db) (agency_cfr_references db) (agency_cfr_references db')
  /\ (titles db = [] -> agency_cfr_references db' = agency_cfr_references db)
  /\ titles db' = titles db /\ title_contents db' = title_contents db
  /\ historical_snapshots db' = historical_snapshots db
  /\ agency_checksums db' = agency_checksums db
  /\ (forall err, FetchAgencies = inr err -> db' = db).
Proof.
  cbv zeta.
  pose proof (ImportAgencies_grows FetchAgencies newID db) as Hgrows.
  split; [exact Hgrows|]. split.
  - intros Hnone. rewrite Hnone in Hgrows. apply growsByTitles_none. exact Hgrows.
  - unfold ImportAgencies. destruct FetchAgencies as [agencies|err];
      repeat split; intros err' [=].
Qed.

Lemma FirstOrCreate_agency newID name slug parent table :
  NoDup (map a_ID table) -> freshIDs newID ->
  let found := FirstOrCreate (slugIs slug)
                 (mkAgency (newID table) name slug parent) table in
  In (fst found) (snd found)
  /\ (exists more, map identity (snd found) = map identity table ++ more)
  /\ NoDup (map a_ID (snd found))
  /\ (NoDup (map a_Slug table) -> NoDup (map a_Slug (snd found))).
Proof.
  intros Hids Hfresh. cbv zeta. unfold FirstOrCreate.
  destruct (find (slugIs slug) table) as [found|] eqn:Hf; cbn [fst snd].
  - apply find_some in Hf. split; [apply Hf|]. split; [|split; auto].
    exists []. rewrite app_nil_r. reflexivity.
  - split; [apply in_or_app; right; left; reflexivity|]. split; [|split].
    + eexists. rewrite map_app. reflexivity.
    + rewrite map_app. cbn [map a_ID]. apply NoDup_app. split; [exact Hids|].
      split; [|apply NoDup_singleton].
      intros x Hx Hx'. apply list_elem_of_In in Hx, Hx'.
      destruct Hx' as [<- | []]. exact (Hfresh table Hx).
    + intros Hslugs. rewrite map_app. cbn [map a_Slug].
      apply NoDup_app. split; [exact Hslugs|]. split; [|apply NoDup_singleton].
      intros x Hx Hx'. apply list_elem_of_In in Hx, Hx'.
      destruct Hx' as [<- | []]. apply in_map_iff in Hx.
      destruct Hx as [a [Hslug Ha]].
      pose proof (find_none _ _ Hf a Ha) as Hno. unfold slugIs in Hno.
      rewrite Hslug, String.eqb_refl in Hno. discriminate.
Qed.

Lemma Save_keeps table child moved :
  NoDup (map a_ID table) -> In child table ->
  a_ID moved = a_ID child -> a_Name moved = a_Name child ->
  a_Slug moved = a_Slug child ->
  map identity (Save moved table) = map identity table
  /\ map a_ID (Save moved table) = map a_ID table
  /\ map a_Slug (Save moved table) = map a_Slug table.
Proof.
  intros Hids Hin Hid Hname Hslug. unfold Save. rewrite !map_map.
  assert (Hrow : forall a, In a table ->
            identity (if (a_ID a =? a_ID moved)%N then moved else a) = identity a).
  { intros a Ha. destruct (N.eqb_spec (a_ID a) (a_ID moved)) as [E|E];
      [|reflexivity].
    assert (a = child).
    { apply (NoDup_map_inj a_ID table); try assumption. congruence. }
    subst a. unfold identity. rewrite Hid, Hname, Hslug. reflexivity. }
  repeat split; apply map_ext_in; intros a Ha; specialize (Hrow a Ha);
    [exact Hrow | |]; unfold identity in Hrow; injection Hrow as H1 H2 H3;
    assumption.
Qed.

Lemma keepsAgencies_trans a b c :
  keepsAgencies a b -> keepsAgencies b c -> keepsAgencies a c.
Proof.
  intros ([m1 E1] & _ & S1) ([m2 E2] & I2 & S2). split; [|split].
  - exists (m1 ++ m2). rewrite E2, E1, app_assoc. reflexivity.
  - exact I2.
  - intros H. apply S2, S1, H.
Qed.

Lemma keepsAgencies_fold {X M : Type} (step : M * list Agency -> X -> M * list Agency)
    xs :
  (forall acc x, NoDup (map a_ID (snd acc)) ->
                 keepsAgencies (snd acc) (snd (step acc x))) ->
  forall acc, NoDup (map a_ID (snd acc)) ->
              keepsAgencies (snd acc) (snd (fold_left step xs acc)).
Proof.
  intros Hstep. induction xs as [|x xs IH]; intros acc Hids; cbn [fold_left].
  - split; [|split; auto]. exists []. rewrite app_nil_r. reflexivity.
  - pose proof (Hstep acc x Hids) as H1.
    eapply keepsAgencies_trans; [exact H1|]. apply IH. apply H1.
Qed.

Lemma createAgency_keeps newID acc agencyData :
  freshIDs newID -> NoDup (map a_ID (snd acc)) ->
  keepsAgencies (snd acc) (snd (createAgency newID acc agencyData)).
Proof.
  intros Hfresh Hids. unfold createAgency. cbn [snd].
  pose proof (FirstOrCreate_agency newID (agd_Name agencyData)
                (agd_Slug agencyData) None (snd acc) Hids Hfresh) as H.
  cbv zeta in H. destruct H as (_ & H1 & H2 & H3). split; [|split]; assumption.
Qed.

Lemma createChild_keeps newID parent acc childData :
  freshIDs newID -> NoDup (map a_ID (snd acc)) ->
  keepsAgencies (snd acc) (snd (createChild newID parent acc childData)).
Proof.
  intros Hfresh Hids. unfold createChild. cbv zeta.
  pose proof (FirstOrCreate_agency newID (agd_Name childData)
                (agd_Slug childData) (Some (a_ID parent)) (snd acc) Hids Hfresh)
    as H.
  cbv zeta in H. destruct H as (Hin & H1 & H2 & H3).
  set (found := FirstOrCreate _ _ (snd acc)) in *.
  destruct (eqb_opt (a_ParentID (readOver parent (fst found))) (a_ID parent));
    cbn [snd].
  - split; [|split]; assumption.
  - destruct (Save_keeps (snd found) (fst found)
                (mkAgency (a_ID (readOver parent (fst found)))
                          (a_Name (readOver parent (fst found)))
                          (a_Slug (readOver parent (fst found)))
                          (Some (a_ID parent)))
                H2 Hin eq_refl eq_refl eq_refl) as (E1 & E2 & E3).
    split; [|split].
    + rewrite E1. exact H1.
    + rewrite E2. exact H2.
    + rewrite E3. exact H3.
Qed.

(** The three cases of the second pass, for children of the department:
    an office that is in the table under no parent is left under none; a
    bureau that is under the office is moved under the department; a desk
    that is not in the table is created under the department. *)
Example createChild_cases :
  let department := mkAgency 1 "Department" "department" None in
  let office := mkAgency 2 "Office" "office" None in
  let table := [department; office; mkAgency 3 "Bureau" "bureau" (Some 2%N)] in
  let second childData :=
    snd (createChild nextID department (∅, table) childData) in
  second (mkAgencyData "Office" "office" [] []) = table
  /\ second (mkAgencyData "Bureau" "bureau" [] [])
     = [department; office; mkAgency 3 "Bureau" "bureau" (Some 1%N)]
  /\ second (mkAgencyData "Desk" "desk" [] [])
     = table ++ [mkAgency 4 "Desk" "desk" (Some 1%N)].
Proof. vm_compute. repeat split. Qed.

Lemma createChildren_keeps newID acc agencyData :
  freshIDs newID -> NoDup (map a_ID (snd acc)) ->
  keepsAgencies (snd acc) (snd (createChildren newID acc agencyData)).
Proof.
  intros Hfresh Hids. unfold createChildren.
  destruct (fst acc !! agd_Slug agencyData) as [parent|].
  - apply keepsAgencies_fold; [|exact Hids].
    intros acc' x Hids'. apply createChild_keeps; assumption.
  - split; [|split; auto]. exists []. rewrite app_nil_r. reflexivity.
Qed.

(** X23.  [ImportAgencies] never renames or renumbers an agency: with
    distinct agency ids in the store and fresh ids for new rows, the
    agencies that were there stay in place with their id, name and slug
    (only the parent of an agency may change), new agencies are appended,
    ids stay distinct, and slugs stay distinct if they were. *)
Theorem ImportAgencies_keeps_identities
    (FetchAgencies : list AgencyData + Downloader.error)
    (newID : list Agency -> N)
    (db : DB) :
  NoDup (map a_ID (agencies db)) -> freshIDs newID ->
  let db' := snd (ImportAgencies FetchAgencies newID db) in
  (exists more,
     map identity (agencies db') = map identity (agencies db) ++ more)
  /\ NoDup (map a_ID (agencies db'))
  /\ (NoDup (map a_Slug (agencies db)) -> NoDup (map a_Slug (agencies db'))).
Proof.
  intros Hids Hfresh. cbv zeta. unfold ImportAgencies.
  destruct FetchAgencies as [agencies|]; cbn [snd].
  - cbv zeta. cbn [Store.agencies].
    pose proof (keepsAgencies_fold (createAgency newID) agencies
                  (fun acc x => createAgency_keeps newID acc x Hfresh)
                  (∅, Store.agencies db) Hids) as H1.
    pose proof (keepsAgencies_fold (createChildren newID) agencies
                  (fun acc x => createChildren_keeps newID acc x Hfresh)
                  (fold_left (createAgency newID) agencies (∅, Store.agencies db))
                  (proj1 (proj2 H1))) as H2.
    exact (keepsAgencies_trans _ _ _ H1 H2).
  - split; [|split; auto]. exists []. rewrite app_nil_r. reflexivity.
Qed.

Lemma nextID_fresh : freshIDs nextID.
Proof.
  intros table Hin. unfold nextID in Hin.
  assert (Hle : forall (l : list N) id, In id l -> (id <= fold_right N.max 0 l)%N).
  { induction l as [|x l IH]; intros id Hid; [destruct Hid|].
    cbn [fold_right]. destruct Hid as [-> | Hid]; [lia|].
    specialize (IH id Hid). lia. }
  specialize (Hle _ _ Hin). lia.
Qed.

Lemma ImportAgencies_keeps_identities_witness :
  let document :=
    [mkAgencyData "Office of Examples (renamed)" "office-examples"
       [mkAgencyData "Bureau of Samples" "bureau-samples" [] [(10, "I")]]
       [(10, "II")];
     mkAgencyData "Board of Trials" "board-trials" [] []] in
  let db := mkDB [mkAgency 7 "Office of Examples" "office-examples" None;
                  mkAgency 3 "Bureau of Samples" "bureau-samples" None]
                 [mkTitle 1 10 "Energy" false] [] [] [] ∅ in
  let db' := snd (ImportAgencies (inl document) nextID db) in
  (exists more,
     map identity (agencies db') = map identity (agencies db) ++ more)
  /\ NoDup (map a_ID (agencies db'))
  /\ (NoDup (map a_Slug (agencies db)) -> NoDup (map a_Slug (agencies db'))).
Proof.
  cbv zeta. apply ImportAgencies_keeps_identities.
  - apply (bool_decide_unpack _). reflexivity.
  - exact nextID_fresh.
Defined.

End AgencyImportFacts.

(** ** The import of the titles and of their content *)

Section TitleImportFacts.
Import Store ContentImport TitleImport.

Lemma downloadAndProcessTitle_as_step cd title now db :
  downloadAndProcessTitle cd title now db
  = with_title_contents
      (findOrCreateStep (downloadFails cd)
         (fun t => sameTitleAndDate (t_ID t) (truncateDay now))
         (contentRow cd now) (title_contents db) title)
      db.
Proof.
  unfold downloadAndProcessTitle, findOrCreateStep, downloadFails, contentRow.
  destruct (fst (Downloader.downloadTitleContent cd (t_Number title)))
    as [content [err|]]; cbn [fst snd isNull negb].
  - destruct db. reflexivity.
  - reflexivity.
Qed.

Lemma importContent_as_loop cd now order db :
  importContent cd now order db
  = with_title_contents
      (fold_left (findOrCreateStep (downloadFails cd)
                    (fun t => sameTitleAndDate (t_ID t) (truncateDay now))
                    (contentRow cd now))
                 order (title_contents db))
      db.
Proof.
  unfold importContent. revert db. induction order as [|t order IH]; intros db.
  - destruct db. reflexivity.
  - cbn [fold_left]. rewrite IH, downloadAndProcessTitle_as_step.
    reflexivity.
Qed.

(** A loop over items whose rows do not meet the conditions of one
    another appends the rows of the items that are not passed over and
    find no row in the table as it was. *)
Lemma loop_appends_new {A X : Type} (skip : X -> bool) (key : X -> A -> bool)
    (row : X -> A) xs table :
  ForallOrdPairs (fun x y => key y (row x) = false) xs ->
  fold_left (findOrCreateStep skip key row) xs table
  = table ++ map row (List.filter
                        (fun x => negb (skip x) && negb (existsb (key x) table))
                        xs).
Proof.
  intros Hpair. revert table. induction Hpair as [|x xs Hx Hrest IH];
    intros table; cbn [fold_left List.filter].
  - rewrite app_nil_r. reflexivity.
  - unfold findOrCreateStep at 2. destruct (skip x) eqn:Hs; cbn [negb andb].
    + apply IH.
    + unfold FirstOrCreate.
      destruct (find (key x) table) as [r|] eqn:Hf; cbn [snd].
      * assert (Hex : existsb (key x) table = true).
        { apply existsb_exists. exists r. apply find_some in Hf. exact Hf. }
        rewrite Hex. cbn [negb]. apply IH.
      * assert (Hex : existsb (key x) table = false).
        { destruct (existsb (key x) table) eqn:E; [|reflexivity].
          apply existsb_exists in E. destruct E as [r [Hr Hk]].
          rewrite (find_none _ _ Hf r Hr) in Hk. discriminate. }
        rewrite Hex. cbn [negb map]. rewrite IH, <- app_assoc. cbn [app].
        f_equal. f_equal. f_equal.
        rewrite Forall_forall in Hx.
        clear -Hx. induction xs as [|y xs IHx]; [reflexivity|].
        cbn [List.filter]. rewrite existsb_app. cbn [existsb].
        rewrite (Hx y) by (left). rewrite !orb_false_r.
        rewrite IHx; [reflexivity|].
        intros z Hz. apply Hx. right. exact Hz.
Qed.

Lemma Permutation_List_filter {A : Type} (p : A -> bool) (l l' : list A) :
  l ≡ₚ l' -> List.filter p l ≡ₚ List.filter p l'.
Proof.
  induction 1 as [|x l l' _ IH|x y l|l l' l'' _ IH1 _ IH2]; cbn [List.filter].
  - reflexivity.
  - destruct (p x); [constructor|]; exact IH.
  - destruct (p x), (p y); try reflexivity. apply Permutation_swap.
  - etransitivity; eassumption.
Qed.

Lemma contentRows_ordered_pairs cd now titles :
  NoDup (map t_ID titles) ->
  ForallOrdPairs
    (fun x y => sameTitleAndDate (t_ID y) (truncateDay now) (contentRow cd now x)
                = false)
    titles.
Proof.
  induction titles as [|t titles IH]; intros Hnd; constructor.
  - cbn [map] in Hnd. apply NoDup_cons in Hnd. destruct Hnd as [Hnotin _].
    apply Forall_forall. intros y Hy. unfold sameTitleAndDate, contentRow.
    cbn [tc_TitleID]. destruct (N.eqb_spec (t_ID t) (t_ID y)) as [E|E];
      [|reflexivity].
    exfalso. apply Hnotin. rewrite E. apply (list_elem_of_fmap_2 t_ID). exact Hy.
  - apply IH. cbn [map] in Hnd. apply NoDup_cons in Hnd. apply Hnd.
Qed.

(** X24.  The content import does not depend on the order in which the
    workers come to the titles: for titles with distinct ids, two orders
    of the same titles leave the same content rows up to the order of the
    new rows, after the rows that were there, and the same other tables;
    and in any order every title whose download succeeds has a content
    row of the day afterwards. *)
Theorem importContent_any_order (cd : Downloader.ContentDownloader) (now : Z)
    (titles order order' : list Title) (db : DB) :
  NoDup (map t_ID titles) -> order ≡ₚ titles -> order' ≡ₚ titles ->
  let db1 := importContent cd now order db in
  let db2 := importContent cd now order' db in
  (exists more more',
     title_contents db1 = title_contents db ++ more
     /\ title_contents db2 = title_contents db ++ more'
     /\ more ≡ₚ more')
  /\ agencies db1 = agencies db2 /\ Store.titles db1 = Store.titles db2
  /\ agency_cfr_references db1 = agency_cfr_references db2
  /\ historical_snapshots db1 = historical_snapshots db2
  /\ agency_checksums db1 = agency_checksums db2
  /\ forall title, In title titles -> downloadFails cd title = false ->
       exists row, In row (title_contents db1)
                   /\ sameTitleAndDate (t_ID title) (truncateDay now) row = true.
Proof.
  intros Hnd Hp Hp'. cbv zeta. rewrite !importContent_as_loop.
  cbn [title_contents agencies Store.titles agency_cfr_references
       historical_snapshots agency_checksums with_title_contents].
  assert (Hids : forall l, l ≡ₚ titles -> NoDup (map t_ID l)).
  { intros l Hl. change (map t_ID l) with (t_ID <$> l). rewrite Hl. exact Hnd. }
  rewrite !loop_appends_new
    by (apply contentRows_ordered_pairs; apply Hids; assumption).
  split; [|repeat split].
  - eexists. eexists. split; [reflexivity|]. split; [reflexivity|].
    apply Permutation_map. apply Permutation_List_filter.
    rewrite Hp, Hp'. reflexivity.
  - intros title Hin Hok.
    destruct (existsb (sameTitleAndDate (t_ID title) (truncateDay now))
                      (title_contents db)) eqn:Hex.
    + apply existsb_exists in Hex. destruct Hex as [row [Hrow Hk]].
      exists row. split; [apply in_or_app; left; exact Hrow | exact Hk].
    + exists (contentRow cd now title). split.
      * apply in_or_app. right. apply in_map. apply filter_In. split.
        -- apply list_elem_of_In. rewrite Hp. apply list_elem_of_In. exact Hin.
        -- rewrite Hok, Hex. reflexivity.
      * unfold sameTitleAndDate, contentRow. cbn [tc_TitleID tc_ContentDate].
        rewrite N.eqb_refl, Z.eqb_refl. reflexivity.
Qed.

Lemma importContent_any_order_witness :
  let cd := Downloader.NewContentDownloader
              (fun number => if number =? 12 then ("", Some "no bulk file")
                             else ("<a>one</a>", None))
              (fun _ _ => ("", Some "offline")) in
  let energy := mkTitle 1 10 "Energy" false in
  let banks := mkTitle 2 12 "Banks" false in
  let trade := mkTitle 3 14 "Trade" false in
  let db := mkDB [] [energy; banks; trade] []
                 [mkTitleContent 1 0 "<a>old</a>" (Some 1) (Some "c0") 5] [] ∅ in
  let db1 := importContent cd 90000 [trade; energy; banks] db in
  let db2 := importContent cd 90000 [banks; trade; energy] db in
  (exists more more',
     title_contents db1 = title_contents db ++ more
     /\ title_contents db2 = title_contents db ++ more'
     /\ more ≡ₚ more')
  /\ agencies db1 = agencies db2 /\ Store.titles db1 = Store.titles db2
  /\ agency_cfr_references db1 = agency_cfr_references db2
  /\ historical_snapshots db1 = historical_snapshots db2
  /\ agency_checksums db1 = agency_checksums db2
  /\ forall title, In title [energy; banks; trade] ->
       downloadFails cd title = false ->
       exists row, In row (title_contents db1)
                   /\ sameTitleAndDate (t_ID title) (truncateDay 90000) row = true.
Proof.
  cbv zeta.
  apply (importContent_any_order _ 90000
           [mkTitle 1 10 "Energy" false; mkTitle 2 12 "Banks" false;
            mkTitle 3 14 "Trade" false]).
  - apply (bool_decide_unpack _). reflexivity.
  - apply (Permutation_cons_append
             [mkTitle 1 10 "Energy" false; mkTitle 2 12 "Banks" false]
             (mkTitle 3 14 "Trade" false)).
  - symmetry.
    apply (Permutation_cons_append
             [mkTitle 2 12 "Banks" false; mkTitle 3 14 "Trade" false]
             (mkTitle 1 10 "Energy" false)).
Defined.

Lemma CaptureSnapshot_frame now db :
  let db' := snd (Historical.CaptureSnapshot now db) in
  (exists more, historical_snapshots db' = historical_snapshots db ++ more)
  /\ agencies db' = agencies db /\ Store.titles db' = Store.titles db
  /\ agency_cfr_references db' = agency_cfr_references db
  /\ title_contents db' = title_contents db
  /\ agency_checksums db' = agency_checksums db.
Proof.
  cbv zeta.
  destruct (Historical.latestContentDate db) as [snapshotDate|] eqn:Hd.
  - rewrite (CaptureSnapshot_writes now db snapshotDate Hd). cbn [snd].
    split; [|repeat split].
    change (historical_snapshots (with_historical_snapshots ?t db)) with t.
    apply loop_extends.
  - unfold Historical.CaptureSnapshot. rewrite Hd. cbn [snd].
    repeat split. exists []. rewrite app_nil_r. reflexivity.
Qed.

Lemma HistoricalImport_frame client months now db :
  let db' := HistoricalImport.ImportHistoricalData client months now db in
  (exists more, historical_snapshots db' = historical_snapshots db ++ more)
  /\ agencies db' = agencies db /\ Store.titles db' = Store.titles db
  /\ agency_cfr_references db' = agency_cfr_references db
  /\ title_contents db' = title_contents db
  /\ agency_checksums db' = agency_checksums db.
Proof.
  cbv zeta. unfold HistoricalImport.ImportHistoricalData.
  destruct (monthLoop_shape client
              (List.filter (fun t => negb (t_Reserved t)) (Store.titles db))
              now months db) as ([more [E _]] & H).
  split; [exists more; exact E | exact H].
Qed.

Lemma createTitles_append newID titleData table :
  (exists more, fold_left (createTitle newID) titleData table = table ++ more)
  /\ (NoDup (map t_Number table) ->
      NoDup (map t_Number (fold_left (createTitle newID) titleData table))).
Proof.
  revert table. induction titleData as [|td tds IH]; intros table; cbn [fold_left].
  - split; [|auto]. exists []. rewrite app_nil_r. reflexivity.
  - destruct (IH (createTitle newID table td)) as [[m2 E2] Hnd2].
    unfold createTitle in *. unfold FirstOrCreate in *.
    destruct (find (fun t => t_Number t =? td_Number td) table) as [found|] eqn:Hf;
      cbn [snd] in *.
    + split; [exists m2; exact E2 | exact Hnd2].
    + split.
      * eexists. rewrite E2, <- app_assoc. reflexivity.
      * intros Hnd. apply Hnd2. rewrite map_app. cbn [map t_Number].
        apply NoDup_app. split; [exact Hnd|]. split; [|apply NoDup_singleton].
        intros x Hx Hx'. apply list_elem_of_In in Hx, Hx'.
        destruct Hx' as [<- | []]. apply in_map_iff in Hx.
        destruct Hx as [t [Ht Hin]].
        pose proof (find_none _ _ Hf t Hin) as Hno. cbv beta in Hno.
        rewrite Ht, Z.eqb_refl in Hno. discriminate.
Qed.

(** X25.  [ImportTitles] only appends: the titles, content rows and
    snapshots that were there stay in place as they are (a title that is
    renamed or newly reserved in the document keeps its stored name and
    flag), new rows come after them, title numbers stay distinct if they
    were, and agencies, references and agency checksums are not touched;
    nothing is written when the titles cannot be fetched. *)
Theorem ImportTitles_only_appends
    (FetchTitles : list TitleData + Downloader.error)
    (newID : list Title -> N) (cd : Downloader.ContentDownloader)
    (schedule : list Title -> list Title)
    (client : HistoricalImport.StructureClient) (months : list Z) (now : Z)
    (db : DB) :
  let db' := snd (ImportTitles FetchTitles newID cd schedule client months now db) in
  (exists more, Store.titles db' = Store.titles db ++ more)
  /\ (NoDup (map t_Number (Store.titles db)) ->
      NoDup (map t_Number (Store.titles db')))
  /\ (exists more, title_contents db' = title_contents db ++ more)
  /\ (exists more, historical_snapshots db' = historical_snapshots db ++ more)
  /\ agencies db' = agencies db
  /\ agency_cfr_references db' = agency_cfr_references db
  /\ agency_checksums db' = agency_checksums db
  /\ (forall err, FetchTitles = inr err -> db' = db).
Proof.
  cbv zeta. unfold ImportTitles. destruct FetchTitles as [titleData|err].
  2:{ cbn [snd]. repeat split; auto; try (exists []; rewrite app_nil_r; reflexivity). }
  cbv zeta. cbn [snd].
  set (db1 := mkDB (agencies db) (fold_left (createTitle newID) titleData (Store.titles db))
                   (agency_cfr_references db) (title_contents db)
                   (historical_snapshots db) (agency_checksums db)).
  set (db2 := importContent cd now (schedule (activeTitles db1)) db1).
  set (db3 := snd (Historical.CaptureSnapshot now db2)).
  pose proof (HistoricalImport_frame client months now db3) as H4.
  pose proof (CaptureSnapshot_frame now db2) as H3. fold db3 in H3.
  assert (H2 : (exists more, title_contents db2 = title_contents db1 ++ more)
               /\ agencies db2 = agencies db1
               /\ Store.titles db2 = Store.titles db1
               /\ agency_cfr_references db2 = agency_cfr_references db1
               /\ historical_snapshots db2 = historical_snapshots db1
               /\ agency_checksums db2 = agency_checksums db1).
  { unfold db2. rewrite importContent_as_loop.
    cbn [title_contents agencies Store.titles agency_cfr_references
         historical_snapshots agency_checksums with_title_contents].
    split; [apply loop_extends | repeat split]. }
  destruct (createTitles_append newID titleData (Store.titles db)) as [Hm Hnd].
  destruct H2 as (H2c & H2a & H2t & H2r & H2s & H2k).
  destruct H3 as (H3s & H3a & H3t & H3r & H3c & H3k).
  destruct H4 as (H4s & H4a & H4t & H4r & H4c & H4k).
  split; [|split; [|split; [|split; [|repeat split]]]].
  - rewrite H4t, H3t, H2t. exact Hm.
  - rewrite H4t, H3t, H2t. exact Hnd.
  - rewrite H4c, H3c. exact H2c.
  - destruct H4s as [m4 ->]. destruct H3s as [m3 ->]. rewrite H2s.
    exists (m3 ++ m4). cbn [historical_snapshots db1]. rewrite app_assoc.
    reflexivity.
  - rewrite H4a, H3a, H2a. reflexivity.
  - rewrite H4r, H3r, H2r. reflexivity.
  - rewrite H4k, H3k, H2k. reflexivity.
  - intros err [=].
Qed.

Lemma ImportTitles_references FetchTitles newID cd schedule client months now db :
  agency_cfr_references
    (snd (ImportTitles FetchTitles newID cd schedule client months now db))
  = agency_cfr_references db.
Proof.
  unfold ImportTitles. destruct FetchTitles as [titleData|]; [|reflexivity].
  cbv zeta. cbn [snd].
  rewrite (proj1 (proj2 (proj2 (proj2 (HistoricalImport_frame client months now _))))).
  rewrite (proj1 (proj2 (proj2 (proj2 (CaptureSnapshot_frame now _))))).
  rewrite importContent_as_loop. reflexivity.
Qed.

(** X26.  [LoadAllData] imports the agencies with their references before
    the titles, so a load creates references only for titles that were in
    the store before it started: on a store without titles the load ends
    with titles but without a single agency reference (they come with the
    next load).  When the agencies cannot be fetched the load stops and
    the store is as before. *)
Theorem LoadAllData_references_need_earlier_titles
    (FetchAgencies : list AgencyImport.AgencyData + Downloader.error)
    (newAgencyID : list Agency -> N)
    (FetchTitles : list TitleData + Downloader.error)
    (newTitleID : list Title -> N)
    (cd : Downloader.ContentDownloader) (schedule : list Title -> list Title)
    (client : HistoricalImport.StructureClient) (months : list Z) (now : Z)
    (db : DB) :
  let db' := snd (LoadAllData FetchAgencies newAgencyID FetchTitles newTitleID
                              cd schedule client months now db) in
  AgencyImport.growsByTitles (Store.titles db) (agency_cfr_references db)
                             (agency_cfr_references db')
  /\ (Store.titles db = [] ->
      agency_cfr_references db' = agency_cfr_references db)
  /\ (forall err, FetchAgencies = inr err -> db' = db).
Proof.
  cbv zeta.
  assert (Hgrows : AgencyImport.growsByTitles (Store.titles db)
            (agency_cfr_references db)
            (agency_cfr_references
               (snd (LoadAllData FetchAgencies newAgencyID FetchTitles newTitleID
                                 cd schedule client months now db)))).
  { unfold LoadAllData.
    pose proof (ImportAgencies_grows FetchAgencies newAgencyID db) as H.
    destruct (AgencyImport.ImportAgencies FetchAgencies newAgencyID db)
      as [[err|] db1]; cbn [snd] in *; [exact H|].
    rewrite ImportTitles_references. exact H. }
  split; [exact Hgrows|]. split.
  - intros Hnone. rewrite Hnone in Hgrows. apply growsByTitles_none. exact Hgrows.
  - intros err ->. reflexivity.
Qed.

End TitleImportFacts.

(** ** The months of the historical import *)

Section SnapshotMonthsFacts.
Import SnapshotMonths.

Lemma daysIn_at_least_28 year month : 28 <= daysIn year month.
Proof.
  unfold daysIn. destruct (month =? 2); [destruct (isLeap year); lia|].
  destruct ((month =? 4) || (month =? 6) || (month =? 9) || (month =? 11)); lia.
Qed.

Lemma normMonth_inj year month month' :
  normMonth year month = normMonth year month' -> month = month'.
Proof.
  unfold normMonth. intros [= Hq Hr].
  pose proof (Z.div_mod (month - 1) 12 ltac:(lia)).
  pose proof (Z.div_mod (month' - 1) 12 ltac:(lia)).
  lia.
Qed.

Lemma normMonth_in_range year month : 1 <= month <= 12 -> normMonth year month = (year, month).
Proof.
  intros H. unfold normMonth.
  rewrite Z.div_small, Z.mod_small by lia. f_equal; lia.
Qed.

(** X27.  When [ImportHistoricalData] runs on a day of the month up to
    the 28th, the 24 snapshot months of its loop are the 24 months before
    the current one, each once, the latest first.  On a later day the
    month of [AddDate] can slip: on 31 March 2025 one month back gives
    March 2025 itself, and February 2025 is not among the months. *)
Theorem snapshotMonths_are_the_24_months_before (year month day : Z) :
  (1 <= month <= 12 -> 1 <= day <= 28 ->
   snapshotMonths year month day
   = map (fun monthsBack => normMonth year (month - monthsBack))
         (map Z.of_nat (seq 1 24))
   /\ NoDup (snapshotMonths year month day)
   /\ ~ In (year, month) (snapshotMonths year month day))
  /\ hd_error (snapshotMonths 2025 3 31) = Some (2025, 3)
  /\ ~ In (2025, 2) (snapshotMonths 2025 3 31).
Proof.
  split; [|split; [reflexivity|]].
  - intros Hmonth Hday.
    assert (Heq : snapshotMonths year month day
                  = map (fun monthsBack => normMonth year (month - monthsBack))
                        (map Z.of_nat (seq 1 24))).
    { unfold snapshotMonths. apply map_ext. intros k. unfold monthOfAddDate.
      cbv zeta.
      pose proof (daysIn_at_least_28 (fst (normMonth year (month - k)))
                                     (snd (normMonth year (month - k)))) as H28.
      rewrite (proj2 (Z.leb_le _ _)) by lia. reflexivity. }
    split; [exact Heq|]. rewrite Heq. split.
    + apply NoDup_fmap_2_strong.
      * intros k k' _ _ E. apply normMonth_inj in E. lia.
      * apply (bool_decide_unpack _). reflexivity.
    + intros Hin. apply in_map_iff in Hin. destruct Hin as [k [E Hk]].
      rewrite <- (normMonth_in_range year month Hmonth) in E.
      apply normMonth_inj in E.
      apply in_map_iff in Hk. destruct Hk as [n [<- Hn]].
      apply in_seq in Hn. lia.
  - intros Hin. vm_compute in Hin.
    repeat (destruct Hin as [Hin | Hin]; [discriminate Hin|]). exact Hin.
Qed.

End SnapshotMonthsFacts.

(** ** From the import to the titles list *)

Section ImportToList.
Import Store ContentImport TitleImport Handlers.

(** X28.  What the content import downloads is what the titles list
    shows: after a content import in which the download of a title
    succeeds, when every content row that the title had is of an earlier
    day, [TitlesHandler] lists the title with the word count and the
    checksum of the downloaded content. *)
Theorem TitlesHandler_shows_imported_content
    (cd : Downloader.ContentDownloader) (now : Z) (order : list Title)
    (db : DB) (title : Title) :
  NoDup (map t_ID order) -> In title order -> In title (titles db) ->
  downloadFails cd title = false ->
  (forall tc, In tc (title_contents db) -> tc_TitleID tc = t_ID title ->
              tc_ContentDate tc < truncateDay now) ->
  let content :=
    fst (fst (Downloader.downloadTitleContent cd (t_Number title))) in
  In (mkTitleWithMetrics (t_ID title) (t_Number title) (t_Name title)
        (WordCount.calculateWordCount content)
        (Some (calculateChecksum content)))
     (TitlesHandler (importContent cd now order db)).
Proof.
  intros Hnd Hin Htitle Hok Hold. cbv zeta.
  set (db' := importContent cd now order db).
  assert (Hcontents :
    title_contents db'
    = title_contents db
      ++ map (contentRow cd now)
           (List.filter
              (fun x => negb (downloadFails cd x)
                        && negb (existsb (sameTitleAndDate (t_ID x) (truncateDay now))
                                         (title_contents db)))
              order)).
  { unfold db'. rewrite importContent_as_loop.
    cbn [title_contents with_title_contents].
    apply loop_appends_new. apply contentRows_ordered_pairs. exact Hnd. }
  assert (Htitles : titles db' = titles db).
  { unfold db'. rewrite importContent_as_loop. reflexivity. }
  assert (Hnew : In (contentRow cd now title) (title_contents db')).
  { rewrite Hcontents. apply in_or_app. right. apply in_map.
    apply filter_In. split; [exact Hin|]. rewrite Hok. cbn [negb andb].
    destruct (existsb _ (title_contents db)) eqn:Hex; [|reflexivity].
    apply existsb_exists in Hex. destruct Hex as [tc [Htc Hk]].
    unfold sameTitleAndDate in Hk. rewrite andb_true_iff, N.eqb_eq, Z.eqb_eq in Hk.
    specialize (Hold tc Htc (proj1 Hk)). lia. }
  assert (Hmap : metricsMap db' !! t_ID title = Some (contentRow cd now title)).
  { pose proof (metricsMap_lookup db' (t_ID title)) as H.
    destruct (metricsMap db' !! t_ID title) as [m|].
    - destruct H as [Hid [Hm Hlatest]].
      specialize (Hlatest _ Hnew (eq_sym Hid)).
      cbn [contentRow tc_ContentDate] in Hlatest.
      rewrite Hcontents in Hm. apply in_app_or in Hm. destruct Hm as [Hm | Hm].
      + specialize (Hold m Hm Hid). lia.
      + apply in_map_iff in Hm. destruct Hm as [x [<- Hx]].
        apply filter_In in Hx. destruct Hx as [Hx _].
        cbn [contentRow tc_TitleID] in Hid.
        rewrite (NoDup_map_inj t_ID order x title Hnd Hx Hin Hid). reflexivity.
    - exfalso. exact (H _ Hnew eq_refl). }
  unfold TitlesHandler. apply in_map_iff. exists title. split.
  - unfold titleWithMetrics. rewrite Hmap. reflexivity.
  - apply list_elem_of_In. rewrite (orderTitlesByNumber_Permutation _).
    apply list_elem_of_In. rewrite Htitles. exact Htitle.
Qed.

Lemma TitlesHandler_shows_imported_content_witness :
  let cd := Downloader.NewContentDownloader
              (fun _ => ("<a>one two</a>", None)) (fun _ _ => ("", Some "offline")) in
  let energy := mkTitle 1 10 "Energy" false in
  let db := mkDB [] [energy] []
                 [mkTitleContent 1 0 "<a>old</a>" (Some 1) (Some "c0") 5] [] ∅ in
  In (mkTitleWithMetrics 1 10 "Energy" 2
        (Some (calculateChecksum "<a>one two</a>")))
     (TitlesHandler (importContent cd 90000 [energy] db)).
Proof.
  cbv zeta.
  apply (TitlesHandler_shows_imported_content
           (Downloader.NewContentDownloader
              (fun _ => ("<a>one two</a>", None)) (fun _ _ => ("", Some "offline")))
           90000 [mkTitle 1 10 "Energy" false]
           (mkDB [] [mkTitle 1 10 "Energy" false] []
                 [mkTitleContent 1 0 "<a>old</a>" (Some 1) (Some "c0") 5] [] ∅)
           (mkTitle 1 10 "Energy" false)).
  - apply (bool_decide_unpack _). reflexivity.
  - left. reflexivity.
  - left. reflexivity.
  - reflexivity.
  - intros tc [<- | []] _. vm_compute. reflexivity.
Defined.

End ImportToList.

(** ** The handler of the title checksums *)

Section TitleChecksumsFacts.
Import Store TitleChecksums.

Lemma insertInfoByNumber_Permutation r rows :
  insertInfoByNumber r rows ≡ₚ r :: rows.
Proof.
  induction rows as [|x rows IH]; simpl; [reflexivity|].
  destruct (ci_TitleNumber r <=? ci_TitleNumber x); [reflexivity|].
  rewrite IH. apply Permutation_swap.
Qed.

Lemma orderInfoByNumber_Permutation rows : orderInfoByNumber rows ≡ₚ rows.
Proof.
  induction rows as [|r rows IH]; simpl; [reflexivity|].
  rewrite insertInfoByNumber_Permutation, IH. reflexivity.
Qed.

Lemma insertInfoByNumber_sorted r rows :
  StronglySorted (fun x y => ci_TitleNumber x <= ci_TitleNumber y) rows ->
  StronglySorted (fun x y => ci_TitleNumber x <= ci_TitleNumber y)
                 (insertInfoByNumber r rows).
Proof.
  induction 1 as [|x rows Hs IH Hx]; simpl.
  - repeat constructor.
  - destruct (Z.leb_spec (ci_TitleNumber r) (ci_TitleNumber x)) as [Hle|Hgt].
    + constructor; [constructor; assumption|].
      constructor; [exact Hle|].
      eapply Forall_impl; [exact Hx|]. intros y Hy. simpl in *. lia.
    + constructor; [exact IH|].
      rewrite (insertInfoByNumber_Permutation r rows).
      constructor; [lia | exact Hx].
Qed.

Lemma orderInfoByNumber_sorted rows :
  StronglySorted (fun x y => ci_TitleNumber x <= ci_TitleNumber y)
                 (orderInfoByNumber rows).
Proof.
  induction rows as [|r rows IH]; simpl; [constructor|].
  apply insertInfoByNumber_sorted. exact IH.
Qed.

(** The join gives a row its one title. *)
Lemma the_title_of_a_row {B : Type} (titles : list Title) (titleID : N)
    (f : Title -> list B) :
  NoDup (map t_ID titles) -> In titleID (map t_ID titles) ->
  exists t, In t titles /\ t_ID t = titleID
            /\ flat_map (fun t => if (t_ID t =? titleID)%N then f t else [])
                        titles = f t.
Proof.
  induction titles as [|t titles IH]; intros Hnd Hin; [destruct Hin|].
  cbn [map] in *. apply NoDup_cons in Hnd. destruct Hnd as [Hnotin Hnd].
  cbn [flat_map]. destruct (N.eqb_spec (t_ID t) titleID) as [E|E].
  - exists t. split; [left; reflexivity|]. split; [exact E|].
    rewrite flat_map_nil; [apply app_nil_r|].
    intros x Hx. destruct (N.eqb_spec (t_ID x) titleID) as [E'|E']; [|reflexivity].
    exfalso. apply Hnotin. rewrite E, <- E'. apply (list_elem_of_fmap_2 t_ID).
    apply list_elem_of_In. exact Hx.
  - destruct Hin as [Hin | Hin]; [contradiction|].
    destruct (IH Hnd Hin) as [t0 [Ht0 [Hid Hflat]]].
    exists t0. split; [right; exact Ht0|]. split; [exact Hid | exact Hflat].
Qed.

(** X29.  [ChecksumsHandler] lists its entries in ascending title number,
    every entry with the number and the name of the title of its content
    row; when title ids are distinct and every content row names a stored
    title, there is one entry for each content row that has a checksum:
    for every content date of a title, and also for an empty checksum. *)
Theorem ChecksumsHandler_lists_every_checksum (db : DB) :
  StronglySorted Z.le (map ci_TitleNumber (ChecksumsHandler db))
  /\ Forall (fun info =>
       exists tc t, In tc (title_contents db) /\ In t (titles db)
                    /\ t_ID t = tc_TitleID tc
                    /\ tc_Checksum tc = Some (ci_Checksum info)
                    /\ ci_TitleNumber info = t_Number t
                    /\ ci_TitleName info = t_Name t)
       (ChecksumsHandler db)
  /\ (NoDup (map t_ID (titles db)) ->
      (forall tc, In tc (title_contents db) ->
                  In (tc_TitleID tc) (map t_ID (titles db))) ->
      map ci_Checksum (ChecksumsHandler db) ≡ₚ storedChecksums db).
Proof.
  unfold ChecksumsHandler. split; [|split].
  - pose proof (orderInfoByNumber_sorted (checksumRows db)) as Hs.
    induction Hs as [|x rows Hs IH Hx]; simpl; constructor; [exact IH|].
    apply Forall_map. exact Hx.
  - apply Forall_forall. intros info Hin.
    rewrite (orderInfoByNumber_Permutation _) in Hin. apply list_elem_of_In in Hin.
    unfold checksumRows in Hin.
    apply in_flat_map in Hin. destruct Hin as [tc [Htc Hin]].
    apply in_flat_map in Hin. destruct Hin as [t [Ht Hin]].
    destruct (N.eqb_spec (t_ID t) (tc_TitleID tc)) as [E|E]; [|destruct Hin].
    destruct (tc_Checksum tc) as [c|] eqn:Hc; [|destruct Hin].
    destruct Hin as [<- | []]. exists tc, t. cbn. repeat split; assumption.
  - intros Hnd Hfk.
    change (map ci_Checksum (orderInfoByNumber (checksumRows db)))
      with (ci_Checksum <$> orderInfoByNumber (checksumRows db)).
    rewrite (orderInfoByNumber_Permutation _).
    change (ci_Checksum <$> checksumRows db)
      with (map ci_Checksum (checksumRows db)).
    unfold checksumRows, storedChecksums.
    assert (Heq : forall tcs,
              (forall tc, In tc tcs -> In (tc_TitleID tc) (map t_ID (titles db))) ->
              map ci_Checksum
                (flat_map (fun tc =>
                   flat_map (fun t =>
                     if (t_ID t =? tc_TitleID tc)%N
                     then match tc_Checksum tc with
                          | Some c => [mkChecksumInfo (t_Number t) (t_Name t) c
                                                      (tc_CreatedAt tc)]
                          | None => []
                          end
                     else [])
                     (titles db))
                   tcs)
              = flat_map (fun tc => match tc_Checksum tc with
                                    | Some c => [c]
                                    | None => []
                                    end) tcs).
    { induction tcs as [|tc tcs IH]; intros Hin; [reflexivity|].
      cbn [flat_map]. rewrite map_app, IH by (intros x Hx; apply Hin; right; exact Hx).
      f_equal.
      destruct (the_title_of_a_row (titles db) (tc_TitleID tc)
                  (fun t => match tc_Checksum tc with
                            | Some c => [mkChecksumInfo (t_Number t) (t_Name t) c
                                                        (tc_CreatedAt tc)]
                            | None => []
                            end)
                  Hnd (Hin tc (or_introl eq_refl))) as [t [_ [_ ->]]].
      destruct (tc_Checksum tc); reflexivity. }
    rewrite (Heq _ Hfk). reflexivity.
Qed.

End TitleChecksumsFacts.

(** ** The agencies that an import leaves *)

Section AgencyRows.
Import Store AgencyImport.

Lemma addsSlugs_nil acc : NoDup (map a_ID (snd acc)) -> addsSlugs [] acc acc.
Proof.
  intros Hids. split; [exact Hids|]. split.
  - intros slug. split; [auto | intros [H | []]; exact H].
  - intros slug [H | []]. exact H.
Qed.

Lemma addsSlugs_app s1 s2 a b c :
  addsSlugs s1 a b -> addsSlugs s2 b c -> addsSlugs (s1 ++ s2) a c.
Proof.
  intros (_ & S1 & M1) (I2 & S2 & M2). split; [exact I2|]. split.
  - intros slug. rewrite S2, S1, in_app_iff. tauto.
  - intros slug H. apply M2. rewrite in_app_iff in H.
    destruct H as [H | [H | H]]; [left; apply M1; auto | left; apply M1; auto | auto].
Qed.

Lemma FirstOrCreate_slugs newID name slug parent table :
  let found := FirstOrCreate (slugIs slug)
                 (mkAgency (newID table) name slug parent) table in
  a_Slug (fst found) = slug
  /\ forall s, In s (map a_Slug (snd found))
               <-> In s (map a_Slug table) \/ s = slug.
Proof.
  cbv zeta. unfold FirstOrCreate.
  destruct (find (slugIs slug) table) as [found|] eqn:Hf; cbn [fst snd].
  - apply find_some in Hf. destruct Hf as [Hin Hslug].
    apply String.eqb_eq in Hslug. split; [exact Hslug|].
    intros s. split; [auto|]. intros [H | ->]; [exact H|].
    rewrite <- Hslug. apply in_map. exact Hin.
  - split; [reflexivity|]. intros s. rewrite map_app, in_app_iff. cbn.
    split; intros [H | H]; auto.
    + destruct H as [<- | []]. auto.
Qed.

Lemma createAgency_adds newID acc agencyData :
  freshIDs newID -> NoDup (map a_ID (snd acc)) ->
  addsSlugs [agd_Slug agencyData] acc (createAgency newID acc agencyData).
Proof.
  intros Hfresh Hids.
  pose proof (createAgency_keeps newID acc agencyData Hfresh Hids) as (_ & Hid & _).
  split; [exact Hid|]. unfold createAgency. cbn [fst snd].
  destruct (FirstOrCreate_slugs newID (agd_Name agencyData) (agd_Slug agencyData)
              None (snd acc)) as [_ Hs].
  split.
  - intros slug. rewrite Hs. cbn. intuition.
  - intros slug [H | [<- | []]].
    + destruct (String.eqb_spec (agd_Slug agencyData) slug) as [->|Hne].
      * rewrite lookup_insert_eq. eauto.
      * rewrite lookup_insert_ne by exact Hne. exact H.
    + rewrite lookup_insert_eq. eauto.
Qed.

Lemma createChild_adds newID parent acc childData :
  freshIDs newID -> NoDup (map a_ID (snd acc)) ->
  addsSlugs [agd_Slug childData] acc (createChild newID parent acc childData).
Proof.
  intros Hfresh Hids.
  pose proof (createChild_keeps newID parent acc childData Hfresh Hids)
    as (_ & Hid & _).
  split; [exact Hid|]. unfold createChild. cbv zeta.
  destruct (FirstOrCreate_slugs newID (agd_Name childData) (agd_Slug childData)
              (Some (a_ID parent)) (snd acc)) as [Hslug Hs].
  pose proof (FirstOrCreate_agency newID (agd_Name childData)
                (agd_Slug childData) (Some (a_ID parent)) (snd acc) Hids Hfresh)
    as H.
  cbv zeta in H. destruct H as (Hin & _ & Hid2 & _).
  set (found := FirstOrCreate _ _ (snd acc)) in *.
  assert (Hmap : forall (a : Agency) (m : gmap string Agency) slug,
            is_Some (m !! slug) \/ In slug [agd_Slug childData] ->
            is_Some (<[agd_Slug childData := a]> m !! slug)).
  { intros a m slug [H | [<- | []]].
    - destruct (String.eqb_spec (agd_Slug childData) slug) as [->|Hne].
      + rewrite lookup_insert_eq. eauto.
      + rewrite lookup_insert_ne by exact Hne. exact H.
    - rewrite lookup_insert_eq. eauto. }
  destruct (eqb_opt (a_ParentID (readOver parent (fst found))) (a_ID parent));
    cbn [fst snd].
  - split; [|apply Hmap]. intros slug. rewrite Hs. cbn. intuition.
  - split; [|apply Hmap].
    destruct (Save_keeps (snd found) (fst found)
                (mkAgency (a_ID (readOver parent (fst found)))
                          (a_Name (readOver parent (fst found)))
                          (a_Slug (readOver parent (fst found)))
                          (Some (a_ID parent)))
                Hid2 Hin eq_refl eq_refl eq_refl) as (_ & _ & E3).
    intros slug. rewrite E3, Hs. cbn. intuition.
Qed.

Lemma addsSlugs_fold {X : Type}
    (step : gmap string Agency * list Agency -> X
            -> gmap string Agency * list Agency)
    (slugOf : X -> string) xs :
  (forall acc x, NoDup (map a_ID (snd acc)) ->
                 addsSlugs [slugOf x] acc (step acc x)) ->
  forall acc, NoDup (map a_ID (snd acc)) ->
              addsSlugs (map slugOf xs) acc (fold_left step xs acc).
Proof.
  intros Hstep. induction xs as [|x xs IH]; intros acc Hids; cbn [fold_left map].
  - apply addsSlugs_nil. exact Hids.
  - pose proof (Hstep acc x Hids) as H1.
    apply (addsSlugs_app [slugOf x] (map slugOf xs) acc (step acc x));
      [exact H1|].
    apply IH. apply H1.
Qed.

Lemma createChildren_adds newID acc agencyData :
  freshIDs newID -> NoDup (map a_ID (snd acc)) ->
  is_Some (fst acc !! agd_Slug agencyData) ->
  addsSlugs (map agd_Slug (agd_Children agencyData)) acc
            (createChildren newID acc agencyData).
Proof.
  intros Hfresh Hids [parent Hparent]. unfold createChildren. rewrite Hparent.
  apply (addsSlugs_fold (createChild newID parent) agd_Slug); [|exact Hids].
  intros acc' x Hids'. apply createChild_adds; assumption.
Qed.

Lemma createChildren_fold_adds newID document acc :
  freshIDs newID -> NoDup (map a_ID (snd acc)) ->
  (forall agencyData, In agencyData document ->
                      is_Some (fst acc !! agd_Slug agencyData)) ->
  addsSlugs (map agd_Slug (flat_map agd_Children document)) acc
            (fold_left (createChildren newID) document acc).
Proof.
  intros Hfresh. revert acc. induction document as [|d document IH];
    intros acc Hids Hmap; cbn [fold_left flat_map].
  - apply addsSlugs_nil. exact Hids.
  - rewrite map_app.
    pose proof (createChildren_adds newID acc d Hfresh Hids
                  (Hmap d (or_introl eq_refl))) as H1.
    apply (addsSlugs_app _ _ acc (createChildren newID acc d)); [exact H1|].
    apply IH; [apply H1|].
    intros d' Hd'. apply H1. left. apply Hmap. right. exact Hd'.
Qed.

(** X30.  [ImportAgencies] leaves a row for every agency of the document
    and for every child of such an agency, and creates no other agency:
    with distinct agency ids and fresh ids for new rows, the slugs of the
    agencies afterwards are those that were there, those of the agencies
    of the document and those of their children.  An agency that the
    document lists only as a child of a child gets no row. *)
Theorem ImportAgencies_imports_two_levels (document : list AgencyData)
    (newID : list Agency -> N) (db : DB) (slug : string) :
  NoDup (map a_ID (agencies db)) -> freshIDs newID ->
  let db' := snd (ImportAgencies (inl document) newID db) in
  In slug (map a_Slug (agencies db'))
  <-> In slug (map a_Slug (agencies db))
      \/ In slug (map agd_Slug document)
      \/ In slug (map agd_Slug (flat_map agd_Children document)).
Proof.
  intros Hids Hfresh. cbv zeta. revert slug. unfold ImportAgencies. cbv zeta.
  cbn [snd agencies].
  pose proof (addsSlugs_fold (createAgency newID) agd_Slug document
                (fun acc x Hacc => createAgency_adds newID acc x Hfresh Hacc)
                (∅, Store.agencies db) Hids) as H1.
  set (first := fold_left (createAgency newID) document (∅, Store.agencies db)) in *.
  pose proof (createChildren_fold_adds newID document first Hfresh
                (proj1 H1)) as H2.
  destruct H1 as (_ & S1 & M1).
  destruct H2 as (_ & S2 & _).
  - intros d Hd. apply M1. right. apply in_map. exact Hd.
  - intros slug. rewrite S2, S1. cbn [snd]. tauto.
Qed.

Lemma ImportAgencies_imports_two_levels_witness :
  let document :=
    [mkAgencyData "Office of Examples" "office-examples"
       [mkAgencyData "Bureau of Samples" "bureau-samples"
          [mkAgencyData "Desk of Drafts" "desk-drafts" [] [(10, "III")]]
          [(10, "I")]]
       [(10, "II")]] in
  let db := mkDB [mkAgency 7 "Board of Trials" "board-trials" None]
                 [mkTitle 1 10 "Energy" false] [] [] [] ∅ in
  let db' := snd (ImportAgencies (inl document) nextID db) in
  In "desk-drafts" (map a_Slug (agencies db'))
  <-> In "desk-drafts" ["board-trials"]
      \/ In "desk-drafts" ["office-examples"]
      \/ In "desk-drafts" ["bureau-samples"].
Proof.
  cbv zeta.
  apply (ImportAgencies_imports_two_levels
           [mkAgencyData "Office of Examples" "office-examples"
              [mkAgencyData "Bureau of Samples" "bureau-samples"
                 [mkAgencyData "Desk of Drafts" "desk-drafts" [] [(10, "III")]]
                 [(10, "I")]]
              [(10, "II")]]
           nextID
           (mkDB [mkAgency 7 "Board of Trials" "board-trials" None]
                 [mkTitle 1 10 "Energy" false] [] [] [] ∅)
           "desk-drafts").
  - apply (bool_decide_unpack _). reflexivity.
  - exact nextID_fresh.
Defined.

End AgencyRows.
